(** * pprof-analyzer: the profile analysis core

    A shallow embedding of the Go package [analyzer] (block and mutex
    contention analysis, differential comparison of two profiles, heap
    time-series trends) together with the properties its specification
    states about it.

    Conventions of the embedding.
    - Go [int64] and [int] values are integers of [Z]; every [int64]
      operation of the source is written with its two's-complement
      wrap-around ([Int64.add], [Int64.sub], [Int64.quo]).
    - Go [float64] values are IEEE-754 binary64 numbers, taken from the
      standard library's executable specification [SpecFloat] with
      precision 53 and maximal exponent 1024 (round to nearest even).
    - A Go [map[string]T] is a [gmap string T]; ranging over a map visits
      [map_to_list], and no statement below depends on that order.
    - A run of a function either returns or panics ([run]); a Go result
      pair [(string, error)] is a pair of an [output] and an optional
      [error].
    - [log.Printf] calls write to the process log only and are left out. *)

From Stdlib Require Import ZArith Lia Bool.
From Stdlib Require Import Strings.String Strings.Ascii.
From Stdlib Require Import DecimalString.
From Stdlib Require Import Sorting.Sorted.
From Stdlib Require Import Floats.SpecFloat.
From stdpp Require Import base option list strings gmap fin_maps.

Local Open Scope string_scope.
Local Open Scope list_scope.
Local Open Scope Z_scope.

(** ** Runs that may panic *)

Inductive run (A : Type) : Type :=
| Done (a : A)
| Panic (reason : string).
Arguments Done {A} a.
Arguments Panic {A} reason.

#[global] Instance run_ret : MRet run := fun A a => Done a.
#[global] Instance run_bind : MBind run := fun A B f r =>
  match r with
  | Done a => f a
  | Panic why => Panic why
  end.

Definition divide_by_zero : string := "runtime error: integer divide by zero".
Definition index_out_of_range : string := "runtime error: index out of range".

(** [l[i]] on a Go slice: panics outside [0 <= i < len(l)]. *)
Definition index {A : Type} (l : list A) (i : Z) : run A :=
  if i <? 0 then Panic index_out_of_range
  else match l !! Z.to_nat i with
       | Some x => Done x
       | None => Panic index_out_of_range
       end.

(** [len(l)] as a Go [int]. *)
Definition len {A : Type} (l : list A) : Z := Z.of_nat (length l).

(** A left-to-right loop over a slice whose body may panic. *)
Fixpoint forRange {S A : Type} (body : S -> A -> run S) (s : S) (l : list A) : run S :=
  match l with
  | [] => Done s
  | x :: l' => s' ← body s x; forRange body s' l'
  end.

(** ** 64-bit signed integers *)

Module Int64.

Definition min_value : Z := - 2 ^ 63.
Definition max_value : Z := 2 ^ 63 - 1.

Definition in_range (z : Z) : Prop := min_value <= z <= max_value.

(** Two's-complement reduction of an exact result to 64 bits. *)
Definition wrap (z : Z) : Z := (z + 2 ^ 63) mod 2 ^ 64 - 2 ^ 63.

Definition add (a b : Z) : Z := wrap (a + b).
Definition sub (a b : Z) : Z := wrap (a - b).

(** Go's [a / b]: truncated towards zero; panics on a zero divisor;
    [min_value / -1] wraps back to [min_value]. *)
Definition quo (a b : Z) : run Z :=
  if b =? 0 then Panic divide_by_zero else Done (wrap (Z.quot a b)).

End Int64.

(** ** IEEE-754 binary64 *)

Module Float64.

Definition float64 : Type := spec_float.

Definition prec : Z := 53.
Definition emax : Z := 1024.

(** The conversion [float64(z)] of an integer, and integer constants. *)
Definition of_int (z : Z) : float64 := binary_normalize prec emax z 0 false.

Definition zero : float64 := S754_zero false.

Definition div (x y : float64) : float64 := SFdiv prec emax x y.
Definition mul (x y : float64) : float64 := SFmul prec emax x y.

(** [x > y] and [x < y]; both are false when an operand is NaN. *)
Definition gt (x y : float64) : bool := SFltb y x.
Definition lt (x y : float64) : bool := SFltb x y.


(** [math.Abs]. *)
Definition Abs (x : float64) : float64 := SFabs x.

Definition is_nan (x : float64) : bool :=
  match x with S754_nan => true | _ => false end.

Definition is_inf (x : float64) : bool :=
  match x with S754_infinity _ => true | _ => false end.

End Float64.

Export Float64(float64).

(** ** The parsed profile (package [profile] of pprof, read only) *)

Module profile.

Record ValueType : Type := { Type_ : string; Unit : string }.

Record Function : Type := { Name : string }.

(** [Function] is a pointer in Go; [None] is [nil]. *)
Record Line : Type := { Function_ : option Function }.

Record Location : Type := { Line_ : list Line }.

Record Sample : Type := { Location_ : list Location; Value : list Z }.

Record Profile : Type := { SampleType : list ValueType; Sample_ : list Sample }.

End profile.

Import profile.

(** The first line of a location that carries a function, as the loops
    [for _, line := range loc.Line { if line.Function != nil { ...; break } }]
    find it. *)
Fixpoint firstFunction (lines : list Line) : option Function :=
  match lines with
  | [] => None
  | line :: rest =>
      match Function_ line with
      | Some f => Some f
      | None => firstFunction rest
      end
  end.

(** ** Formatting collaborators

    [fmt.Sprintf] and the helpers [formatNumber], [truncateString] and
    [FormatBytes] of the package's utilities are not part of the analysed
    sources.  They are pure string producers; the development is
    parametric in them.  String literals are copied from the source with
    their escape sequences as written. *)

Inductive fmtarg : Type :=
| IntArg (z : Z)
| FloatArg (f : float64)
| StrArg (s : string).

Class Formatting : Type := {
  Sprintf : string -> list fmtarg -> string;
  formatNumber : Z -> string;
  truncateString : string -> Z -> string;
  FormatBytes : Z -> string
}.

(** [strings.Repeat]. *)
Fixpoint Repeat (s : string) (n : nat) : string :=
  match n with
  | O => ""
  | S n' => s +:+ Repeat s n'
  end.

(** ** Results handed back to the caller *)

Record error : Type := { Error : string }.

(** The value tree that [json.MarshalIndent] serialises; object fields
    carry the names of the struct tags. *)
#[local] Set Warnings "-register-all".

Inductive json : Type :=
| JInt (z : Z)
| JFloat (f : float64)
| JString (s : string)
| JArray (items : list json)
| JObject (fields : list (string * json)).

(** A report written through a [strings.Builder]: the chunks written
    before the ranking loop, one chunk per iteration of the loop, and the
    chunks written after it.  [b.String()] is their concatenation. *)
Record table : Type := {
  header : list string;
  rows : list string;
  footer : list string
}.

Inductive output : Type :=
| Text (s : string)
| Table (t : table)
| JSON (j : json).

(** [encoding/json] refuses NaN and infinite numbers. *)
Fixpoint json_supported (j : json) : bool :=
  match j with
  | JFloat f => negb (Float64.is_nan f || Float64.is_inf f)
  | JArray items => forallb json_supported items
  | JObject fields => forallb (fun kv => json_supported (snd kv)) fields
  | _ => true
  end.

(** [json.MarshalIndent] followed by the caller's
    [if err != nil { return "", fmt.Errorf("failed to marshal JSON: %w", err) }]. *)
Definition marshalError : error :=
  {| Error := "failed to marshal JSON: json: unsupported value" |}.

Definition MarshalIndent (j : json) : output * option error :=
  if json_supported j then (JSON j, None) else (Text "", Some marshalError).

(** ** [sort.Slice]

    The library sorts in place with an unspecified, unstable algorithm;
    it is modelled by insertion (which the library itself uses on short
    slices).  [less x y] says that [x] must come before [y]. *)

Fixpoint insert_by {A : Type} (less : A -> A -> bool) (x : A) (l : list A) : list A :=
  match l with
  | [] => [x]
  | y :: l' => if less x y then x :: y :: l' else y :: insert_by less x l'
  end.

Definition sort_Slice {A : Type} (less : A -> A -> bool) (l : list A) : list A :=
  foldr (insert_by less) [] l.

(** ** Block and mutex contention analysis

    [AnalyzeBlockProfile] and [AnalyzeMutexProfile] are the same function
    up to the names of their types and the literal strings they emit.
    The record [wording] collects those strings; [analyzeContention] is
    the shared body. *)

Record wording : Type := {
  wProfileType : string;
  wArrayField : string;
  wNoneFound : string;
  wTitleMd : string;
  wTotalMd : string;
  wTopMd : string;
  wColumnsMd : string;
  wTitleTxt : string;
  wTotalTxt : string;
  wTopTxt : string;
  wCountColumn : string;
  wShareColumn : string;
  wAdvice : list string
}.

Definition blockWording : wording := {|
  wProfileType := "block";
  wArrayField := "blocks";
  wNoneFound := "Block profile 分析完成：未发现阻塞操作。";
  wTitleMd := "# Block Profile 分析报告\n\n";
  wTotalMd := "**总阻塞次数**: %s\n";
  wTopMd := "## Top 阻塞点\n\n";
  wColumnsMd := "| 排名 | 函数名 | 阻塞次数 | 阻塞占比 | 总延迟 | 延迟占比 | 平均延迟 |\n";
  wTitleTxt := "Block Profile 分析结果\n";
  wTotalTxt := "总阻塞次数: %s\n";
  wTopTxt := "Top 阻塞点:\n";
  wCountColumn := "阻塞次数";
  wShareColumn := "阻塞占比";
  wAdvice :=
    [ "- 关注总延迟时间最长的函数，这些可能是通道操作、网络 I/O 或系统调用导致的阻塞\n";
      "- 高阻塞次数但低延迟可能表明频繁但短暂的阻塞操作（如无缓冲通道的发送/接收）\n";
      "- 考虑使用带缓冲的通道、超时机制或异步处理来减少阻塞\n";
      "- 检查是否有 goroutine 泄漏导致资源耗尽\n" ]
|}.

Definition mutexWording : wording := {|
  wProfileType := "mutex";
  wArrayField := "contentions";
  wNoneFound := "Mutex profile 分析完成：未发现锁竞争。";
  wTitleMd := "# Mutex Profile 分析报告\n\n";
  wTotalMd := "**总竞争次数**: %s\n";
  wTopMd := "## Top Mutex 竞争点\n\n";
  wColumnsMd := "| 排名 | 函数名 | 竞争次数 | 竞争占比 | 总延迟 | 延迟占比 | 平均延迟 |\n";
  wTitleTxt := "Mutex Profile 分析结果\n";
  wTotalTxt := "总竞争次数: %s\n";
  wTopTxt := "Top Mutex 竞争点:\n";
  wCountColumn := "竞争次数";
  wShareColumn := "竞争占比";
  wAdvice :=
    [ "- 关注总延迟时间最长的函数，这些是性能瓶颈的根源\n";
      "- 高竞争次数但低延迟可能表明锁粒度过小，频繁获取/释放\n";
      "- 考虑使用细粒度锁、读写锁 (sync.RWMutex) 或无锁数据结构来减少竞争\n" ]
|}.

(** [BlockContentionStat] and [MutexContentionStat]. *)
Record ContentionStat : Type := {
  FunctionName : string;
  Contentions : Z;
  DelayNanos : Z;
  DelayFormatted : string;
  ContentionsPct : float64;
  DelayPct : float64;
  AvgDelayNanos : Z;
  AvgDelayFormatted : string
}.

Definition BlockContentionStat : Type := ContentionStat.
Definition MutexContentionStat : Type := ContentionStat.

(** The loop state of the aggregation: the map [blockData]
    ([contentionData] in the mutex analyser) and the two running totals. *)
Record aggregation : Type := {
  blockData : gmap string ContentionStat;
  totalContentions : Z;
  totalDelay : Z
}.

Definition noAggregation : aggregation :=
  {| blockData := ∅; totalContentions := 0; totalDelay := 0 |}.

(** [max] of the block analyser's file. *)
Definition max (a b : Z) : Z := if a >? b then a else b.

(** The scan of [p.SampleType]: the last column named "contentions" and
    the last column named "delay", each [-1] when absent. *)
Fixpoint contentionColumns (i : Z) (types : list ValueType)
    (contentionIndex delayIndex : Z) : Z * Z :=
  match types with
  | [] => (contentionIndex, delayIndex)
  | st :: rest =>
      if String.eqb (Type_ st) "contentions" then
        contentionColumns (i + 1) rest i delayIndex
      else if String.eqb (Type_ st) "delay" then
        contentionColumns (i + 1) rest contentionIndex i
      else contentionColumns (i + 1) rest contentionIndex delayIndex
  end.

(** The name under which a sample is aggregated. *)
Definition contentionFunctionName (loc : Location) : string :=
  let functionName :=
    match firstFunction (Line_ loc) with
    | Some f => Name f
    | None => ""
    end in
  if String.eqb functionName "" then "unknown" else functionName.

(** One iteration of [for _, s := range p.Sample]. *)
Definition aggregateSample (contentionIndex delayIndex : Z)
    (a : aggregation) (s : Sample) : run aggregation :=
  if (len (Location_ s) =? 0) || (len (Value s) <=? max contentionIndex delayIndex)
  then Done a
  else
    contentions ← index (Value s) contentionIndex;
    delay ← index (Value s) delayIndex;
    loc ← index (Location_ s) 0;
    let functionName := contentionFunctionName loc in
    data ← match blockData a !! functionName with
           | Some stat =>
               Done (<[functionName :=
                       {| FunctionName := FunctionName stat;
                          Contentions := Int64.add (Contentions stat) contentions;
                          DelayNanos := Int64.add (DelayNanos stat) delay;
                          DelayFormatted := DelayFormatted stat;
                          ContentionsPct := ContentionsPct stat;
                          DelayPct := DelayPct stat;
                          AvgDelayNanos := AvgDelayNanos stat;
                          AvgDelayFormatted := AvgDelayFormatted stat |}]> (blockData a))
           | None =>
               avg ← Int64.quo delay contentions;
               Done (<[functionName :=
                       {| FunctionName := functionName;
                          Contentions := contentions;
                          DelayNanos := delay;
                          DelayFormatted := "";
                          ContentionsPct := Float64.zero;
                          DelayPct := Float64.zero;
                          AvgDelayNanos := avg;
                          AvgDelayFormatted := "" |}]> (blockData a))
           end;
    Done {| blockData := data;
            totalContentions := Int64.add (totalContentions a) contentions;
            totalDelay := Int64.add (totalDelay a) delay |}.

Definition aggregateSamples (contentionIndex delayIndex : Z)
    (samples : list Sample) : run aggregation :=
  forRange (aggregateSample contentionIndex delayIndex) noAggregation samples.

(** The order of [sort.Slice(stats, ...)]: longer total delay first. *)
Definition byDelay (x y : ContentionStat) : bool := DelayNanos x >? DelayNanos y.

Definition missingSampleTypes : error :=
  {| Error := "无法从 profile 中找到必需的样本类型 (contentions, delay)" |}.

Section Contention.

Context `{Formatting}.

(** [formatNanos], from the mutex analyser's file.  Its divisors are
    non-zero constants. *)
Definition formatNanos (nanos : Z) : string :=
  if nanos <? 1000 then Sprintf "%d ns" [IntArg nanos]
  else
    let micros := Z.quot nanos 1000 in
    if micros <? 1000 then
      Sprintf "%.2f μs" [FloatArg (Float64.div (Float64.of_int nanos) (Float64.of_int 1000))]
    else
      let millis := Z.quot micros 1000 in
      if millis <? 1000 then
        Sprintf "%.2f ms" [FloatArg (Float64.div (Float64.of_int micros) (Float64.of_int 1000))]
      else
        let seconds := Z.quot millis 1000 in
        if seconds <? 60 then
          Sprintf "%.2f s" [FloatArg (Float64.div (Float64.of_int millis) (Float64.of_int 1000))]
        else
          let minutes := Z.quot seconds 60 in
          let secondsRemainder := Z.rem seconds 60 in
          Sprintf "%d m %d s" [IntArg minutes; IntArg secondsRemainder].

(** The body of [for _, stat := range blockData]: percentages of the
    profile-wide totals and the formatted durations. *)
Definition withShares (totalContentions totalDelay : Z) (stat : ContentionStat) : ContentionStat :=
  {| FunctionName := FunctionName stat;
     Contentions := Contentions stat;
     DelayNanos := DelayNanos stat;
     DelayFormatted := formatNanos (DelayNanos stat);
     ContentionsPct :=
       Float64.mul (Float64.div (Float64.of_int (Contentions stat))
                                (Float64.of_int totalContentions))
                   (Float64.of_int 100);
     DelayPct :=
       Float64.mul (Float64.div (Float64.of_int (DelayNanos stat))
                                (Float64.of_int totalDelay))
                   (Float64.of_int 100);
     AvgDelayNanos := AvgDelayNanos stat;
     AvgDelayFormatted := formatNanos (AvgDelayNanos stat) |}.

(** The slice [stats] after [sort.Slice]. *)
Definition rankedStats (a : aggregation) : list ContentionStat :=
  sort_Slice byDelay
    (map (fun kv => withShares (totalContentions a) (totalDelay a) (snd kv))
         (map_to_list (blockData a))).

Definition statJSON (stat : ContentionStat) : json :=
  JObject [ ("functionName", JString (FunctionName stat));
            ("contentions", JInt (Contentions stat));
            ("delayNanos", JInt (DelayNanos stat));
            ("delayFormatted", JString (DelayFormatted stat));
            ("contentionsPct", JFloat (ContentionsPct stat));
            ("delayPct", JFloat (DelayPct stat));
            ("avgDelayNanos", JInt (AvgDelayNanos stat));
            ("avgDelayFormatted", JString (AvgDelayFormatted stat)) ].

(** [BlockAnalysisResult] and [MutexAnalysisResult] as serialised. *)
Definition resultJSON (w : wording) (totalContentions totalDelay topN : Z)
    (stats : list ContentionStat) : json :=
  JObject [ ("profileType", JString (wProfileType w));
            ("totalContentions", JInt totalContentions);
            ("totalDelayNanos", JInt totalDelay);
            ("totalDelayFormatted", JString (formatNanos totalDelay));
            ("topN", JInt topN);
            (wArrayField w, JArray (map statJSON stats)) ].

Definition contentionHeader (w : wording) (markdown : bool)
    (totalContentions totalDelay : Z) : list string :=
  if markdown then
    [ wTitleMd w;
      Sprintf (wTotalMd w) [StrArg (formatNumber totalContentions)];
      Sprintf "**总延迟时间**: %s\n\n" [StrArg (formatNanos totalDelay)];
      wTopMd w;
      wColumnsMd w;
      "|------|--------|----------|----------|--------|----------|----------|\n" ]
  else
    [ wTitleTxt w;
      "========================\n\n";
      Sprintf (wTotalTxt w) [StrArg (formatNumber totalContentions)];
      Sprintf "总延迟时间: %s\n\n" [StrArg (formatNanos totalDelay)];
      wTopTxt w;
      Repeat "-" 120 +:+ "\n";
      Sprintf "%-6s %-50s %12s %10s %12s %10s %12s\n"
        [ StrArg "排名"; StrArg "函数名"; StrArg (wCountColumn w); StrArg (wShareColumn w);
          StrArg "总延迟"; StrArg "延迟占比"; StrArg "平均延迟" ];
      Repeat "-" 120 +:+ "\n" ].

(** The chunk written for [stats[i]]. *)
Definition contentionRow (markdown : bool) (i : Z) (stat : ContentionStat) : string :=
  if markdown then
    Sprintf "| %d | `%s` | %s | %.2f%% | %s | %.2f%% | %s |\n"
      [ IntArg (i + 1); StrArg (truncateString (FunctionName stat) 40);
        StrArg (formatNumber (Contentions stat)); FloatArg (ContentionsPct stat);
        StrArg (DelayFormatted stat); FloatArg (DelayPct stat);
        StrArg (AvgDelayFormatted stat) ]
  else
    Sprintf "%-6d %-50s %12s %9.2f%% %12s %9.2f%% %12s\n"
      [ IntArg (i + 1); StrArg (truncateString (FunctionName stat) 50);
        StrArg (formatNumber (Contentions stat)); FloatArg (ContentionsPct stat);
        StrArg (DelayFormatted stat); FloatArg (DelayPct stat);
        StrArg (AvgDelayFormatted stat) ].

(** [for i := 0; i < limit; i++ { stat := stats[i]; ... }], run on the
    part of the slice that starts at index [i]; [limit] never exceeds the
    length of the slice. *)
Fixpoint rankingLoop {A : Type} (row : Z -> A -> string) (i limit : Z) (items : list A) : list string :=
  match items with
  | [] => []
  | item :: rest =>
      if i <? limit then row i item :: rankingLoop row (i + 1) limit rest else []
  end.

(** [limit := topN; if limit > len(stats) { limit = len(stats) }]. *)
Definition rowLimit {A : Type} (topN : Z) (items : list A) : Z :=
  if topN >? len items then len items else topN.

Definition contentionFooter (w : wording) (markdown : bool) : list string :=
  "\n**分析建议**:\n" :: wAdvice w ++ (if markdown then ["\n```"] else []).

(** Part 4 of the analysers: the output for a ranked slice. *)
Definition renderContention (w : wording) (totalContentions totalDelay : Z)
    (stats : list ContentionStat) (topN : Z) (format : string) : output * option error :=
  if String.eqb format "json" then
    MarshalIndent (resultJSON w totalContentions totalDelay topN stats)
  else
    let markdown := String.eqb format "markdown" in
    (Table {| header := contentionHeader w markdown totalContentions totalDelay;
              rows := rankingLoop (contentionRow markdown) 0 (rowLimit topN stats) stats;
              footer := contentionFooter w markdown |}, None).

Definition analyzeContention (w : wording) (p : Profile) (topN : Z) (format : string)
    : run (output * option error) :=
  let '(contentionIndex, delayIndex) := contentionColumns 0 (SampleType p) (-1) (-1) in
  if (contentionIndex =? -1) || (delayIndex =? -1) then
    Done (Text "", Some missingSampleTypes)
  else
    a ← aggregateSamples contentionIndex delayIndex (Sample_ p);
    if totalContentions a =? 0 then Done (Text (wNoneFound w), None)
    else
      Done (renderContention w (totalContentions a) (totalDelay a) (rankedStats a) topN format).

Definition AnalyzeBlockProfile : Profile -> Z -> string -> run (output * option error) :=
  analyzeContention blockWording.

Definition AnalyzeMutexProfile : Profile -> Z -> string -> run (output * option error) :=
  analyzeContention mutexWording.

End Contention.

(** ** Differential comparison of two profiles ([diff.go]) *)

Module Diff.

Record FunctionDiff : Type := {
  FunctionName : string;
  BaselineValue : Z;
  TargetValue : Z;
  DiffValue : Z;
  DiffPercentage : float64;
  BaselineFormatted : string;
  TargetFormatted : string;
  DiffFormatted : string
}.

Record DiffSummary : Type := {
  BaselineTotal : Z;
  TargetTotal : Z;
  TotalDiff : Z;
  TotalDiffPercent : float64;
  ImprovedFuncs : Z;
  RegressedFuncs : Z;
  AddedFuncs : Z;
  RemovedFuncs : Z
}.

(** The test that the [switch profileType] of [getValueIndex] applies to
    one sample type; an unrecognised kind matches nothing. *)
Definition matchesKind (profileType : string) (st : ValueType) : bool :=
  if String.eqb profileType "cpu" then
    String.eqb (Type_ st) "cpu"
    || (String.eqb (Type_ st) "samples" && String.eqb (Unit st) "nanoseconds")
  else if String.eqb profileType "heap" || String.eqb profileType "allocs" then
    String.eqb (Type_ st) "inuse_space" || String.eqb (Type_ st) "alloc_space"
  else if String.eqb profileType "mutex" || String.eqb profileType "block" then
    String.eqb (Type_ st) "delay"
  else false.

(** [for i, st := range p.SampleType { ... return i, nil ... }]. *)
Fixpoint kindColumn (i : Z) (profileType : string) (types : list ValueType) : option Z :=
  match types with
  | [] => None
  | st :: rest =>
      if matchesKind profileType st then Some i
      else kindColumn (i + 1) profileType rest
  end.

Definition getValueIndex (p : Profile) (profileType : string) : Z * option error :=
  match kindColumn 0 profileType (SampleType p) with
  | Some i => (i, None)
  | None => if len (SampleType p) >? 1 then (1, None) else (0, None)
  end.

Definition topFunctionName (loc : Location) : string :=
  match firstFunction (Line_ loc) with
  | Some f => Name f
  | None => "unknown"
  end.

(** [m[key]] on a [map[string]int64]: zero for a missing key. *)
Definition valueOf (m : gmap string Z) (key : string) : Z := default 0 (m !! key).

(** One iteration of the loop of [aggregateFunctionValues]. *)
Definition aggregateValue (valueIndex : Z) (result : gmap string Z) (sample : Sample)
    : run (gmap string Z) :=
  if (len (Location_ sample) =? 0) || (len (Value sample) <=? valueIndex) then Done result
  else
    value ← index (Value sample) valueIndex;
    loc ← index (Location_ sample) 0;
    let functionName := topFunctionName loc in
    Done (<[functionName := Int64.add (valueOf result functionName) value]> result).

Definition aggregateFunctionValues (p : Profile) (valueIndex : Z) : run (gmap string Z) :=
  forRange (aggregateValue valueIndex) ∅ (Sample_ p).

(** The percentage of [computeFunctionDiffs]; [100.0] for an entry
    without a positive baseline and with a positive target. *)
Definition diffPercent (baselineVal targetVal diff : Z) : float64 :=
  if baselineVal >? 0 then
    Float64.mul (Float64.div (Float64.of_int diff) (Float64.of_int baselineVal))
                (Float64.of_int 100)
  else if targetVal >? 0 then Float64.of_int 100
  else Float64.zero.

(** The order of [sort.Slice(diffs, ...)] in [CompareProfiles]. *)
Definition byChange (x y : FunctionDiff) : bool :=
  Float64.gt (Float64.Abs (DiffPercentage x)) (Float64.Abs (DiffPercentage y)).

(** The four counters of [computeDiffSummary]. *)
Record tally : Type := { improved : Z; regressed : Z; added : Z; removed : Z }.

Definition count (c : tally) (diff : FunctionDiff) : tally :=
  if (BaselineValue diff =? 0) && (TargetValue diff >? 0) then
    {| improved := improved c; regressed := regressed c;
       added := added c + 1; removed := removed c |}
  else if (TargetValue diff =? 0) && (BaselineValue diff >? 0) then
    {| improved := improved c; regressed := regressed c;
       added := added c; removed := removed c + 1 |}
  else if DiffValue diff <? 0 then
    {| improved := improved c + 1; regressed := regressed c;
       added := added c; removed := removed c |}
  else if DiffValue diff >? 0 then
    {| improved := improved c; regressed := regressed c + 1;
       added := added c; removed := removed c |}
  else c.

(** [for _, v := range m { total += v }]. *)
Definition totalOf (m : gmap string Z) : Z :=
  foldl (fun total kv => Int64.add total (snd kv)) 0 (map_to_list m).

Section Formatted.

Context `{Formatting}.

Definition formatValue (value : Z) : string :=
  if value <? 1024 then Sprintf "%d" [IntArg value] else FormatBytes value.

Definition formatDiffValue (diff : Z) : string :=
  if diff >? 0 then "+" +:+ formatValue diff else formatValue diff.

(** The body of [for name := range allFuncs]. *)
Definition functionDiff (baselineFuncs targetFuncs : gmap string Z) (name : string)
    : FunctionDiff :=
  let baselineVal := valueOf baselineFuncs name in
  let targetVal := valueOf targetFuncs name in
  let diff := Int64.sub targetVal baselineVal in
  {| FunctionName := name;
     BaselineValue := baselineVal;
     TargetValue := targetVal;
     DiffValue := diff;
     DiffPercentage := diffPercent baselineVal targetVal diff;
     BaselineFormatted := formatValue baselineVal;
     TargetFormatted := formatValue targetVal;
     DiffFormatted := formatDiffValue diff |}.

(** [allFuncs] is the set of the names of both maps. *)
Definition computeFunctionDiffs (baselineFuncs targetFuncs : gmap string Z)
    : list FunctionDiff :=
  let allFuncs : gset string := dom baselineFuncs ∪ dom targetFuncs in
  map (functionDiff baselineFuncs targetFuncs) (elements allFuncs).

Definition computeDiffSummary (baselineFuncs targetFuncs : gmap string Z)
    (diffs : list FunctionDiff) : DiffSummary :=
  let baselineTotal := totalOf baselineFuncs in
  let targetTotal := totalOf targetFuncs in
  let totalDiff := Int64.sub targetTotal baselineTotal in
  let totalDiffPercent :=
    if baselineTotal >? 0 then
      Float64.mul (Float64.div (Float64.of_int totalDiff) (Float64.of_int baselineTotal))
                  (Float64.of_int 100)
    else Float64.zero in
  let c := foldl count {| improved := 0; regressed := 0; added := 0; removed := 0 |} diffs in
  {| BaselineTotal := baselineTotal;
     TargetTotal := targetTotal;
     TotalDiff := totalDiff;
     TotalDiffPercent := totalDiffPercent;
     ImprovedFuncs := improved c;
     RegressedFuncs := regressed c;
     AddedFuncs := added c;
     RemovedFuncs := removed c |}.

Definition diffHeader (summary : DiffSummary) (profileType : string) (markdown : bool)
    : list string :=
  if markdown then
    [ Sprintf "# Profile 差异分析报告 (%s)\n\n" [StrArg profileType];
      "## 总体摘要\n\n";
      Sprintf "- **Baseline 总值**: %s\n" [StrArg (formatValue (BaselineTotal summary))];
      Sprintf "- **Target 总值**: %s\n" [StrArg (formatValue (TargetTotal summary))];
      Sprintf "- **总差异**: %s (%.2f%%)\n\n"
        [StrArg (formatDiffValue (TotalDiff summary)); FloatArg (TotalDiffPercent summary)];
      Sprintf "- **性能提升**: %d 个函数\n" [IntArg (ImprovedFuncs summary)];
      Sprintf "- **性能回归**: %d 个函数\n" [IntArg (RegressedFuncs summary)];
      Sprintf "- **新增函数**: %d 个\n" [IntArg (AddedFuncs summary)];
      Sprintf "- **移除函数**: %d 个\n\n" [IntArg (RemovedFuncs summary)];
      "## Top 变化函数\n\n";
      "| 排名 | 函数名 | Baseline | Target | 差异 | 变化%% |\n";
      "|------|--------|----------|--------|------|-------|\n" ]
  else
    [ Sprintf "Profile 差异分析报告 (%s)\n" [StrArg profileType];
      "==============================\n\n";
      "总体摘要:\n";
      Sprintf "  Baseline 总值: %s\n" [StrArg (formatValue (BaselineTotal summary))];
      Sprintf "  Target 总值:   %s\n" [StrArg (formatValue (TargetTotal summary))];
      Sprintf "  总差异:         %s (%.2f%%)\n\n"
        [StrArg (formatDiffValue (TotalDiff summary)); FloatArg (TotalDiffPercent summary)];
      Sprintf "  性能提升: %d 个函数\n" [IntArg (ImprovedFuncs summary)];
      Sprintf "  性能回归: %d 个函数\n" [IntArg (RegressedFuncs summary)];
      Sprintf "  新增函数: %d 个\n" [IntArg (AddedFuncs summary)];
      Sprintf "  移除函数: %d 个\n\n" [IntArg (RemovedFuncs summary)];
      "Top 变化函数:\n";
      Repeat "-" 140 +:+ "\n";
      Sprintf "%-6s %-50s %15s %15s %15s %10s\n"
        [ StrArg "排名"; StrArg "函数名"; StrArg "Baseline"; StrArg "Target";
          StrArg "差异"; StrArg "变化%" ];
      Repeat "-" 140 +:+ "\n" ].

Definition diffRow (markdown : bool) (i : Z) (diff : FunctionDiff) : string :=
  if markdown then
    let indicator :=
      if DiffValue diff >? 0 then "🔴"
      else if (BaselineValue diff =? 0) && (TargetValue diff >? 0) then "🆕"
      else if (TargetValue diff =? 0) && (BaselineValue diff >? 0) then "❌"
      else "🟢" in
    Sprintf "| %d | %s `%s` | %s | %s | %s | %.2f%% |\n"
      [ IntArg (i + 1); StrArg indicator; StrArg (truncateString (FunctionName diff) 40);
        StrArg (BaselineFormatted diff); StrArg (TargetFormatted diff);
        StrArg (DiffFormatted diff); FloatArg (DiffPercentage diff) ]
  else
    let indicator :=
      if DiffValue diff >? 0 then " ⬆"
      else if DiffValue diff <? 0 then " ⬇"
      else "" in
    Sprintf "%-6d %-50s %15s %15s %15s %9.2f%%%s\n"
      [ IntArg (i + 1); StrArg (truncateString (FunctionName diff) 50);
        StrArg (BaselineFormatted diff); StrArg (TargetFormatted diff);
        StrArg (DiffFormatted diff); FloatArg (DiffPercentage diff); StrArg indicator ].

Definition diffFooter (markdown : bool) : list string :=
  [ "\n**符号说明**:\n";
    "- 🔴/⬆ : 性能回归（增加）\n";
    "- 🟢/⬇ : 性能提升（减少）\n";
    "- 🆕 : 新增函数\n";
    "- ❌ : 移除函数\n" ] ++ (if markdown then ["\n```"] else []).

Definition formatDiffReport (diffs : list FunctionDiff) (summary : DiffSummary)
    (profileType : string) (topN : Z) (format : string) : table :=
  let markdown := String.eqb format "markdown" in
  {| header := diffHeader summary profileType markdown;
     rows := rankingLoop (diffRow markdown) 0 (rowLimit topN diffs) diffs;
     footer := diffFooter markdown |}.

Definition functionDiffJSON (diff : FunctionDiff) : json :=
  JObject [ ("functionName", JString (FunctionName diff));
            ("baselineValue", JInt (BaselineValue diff));
            ("targetValue", JInt (TargetValue diff));
            ("diffValue", JInt (DiffValue diff));
            ("diffPercentage", JFloat (DiffPercentage diff));
            ("baselineFormatted", JString (BaselineFormatted diff));
            ("targetFormatted", JString (TargetFormatted diff));
            ("diffFormatted", JString (DiffFormatted diff)) ].

Definition summaryJSON (summary : DiffSummary) : json :=
  JObject [ ("baselineTotal", JInt (BaselineTotal summary));
            ("targetTotal", JInt (TargetTotal summary));
            ("totalDiff", JInt (TotalDiff summary));
            ("totalDiffPercent", JFloat (TotalDiffPercent summary));
            ("improvedFuncs", JInt (ImprovedFuncs summary));
            ("regressedFuncs", JInt (RegressedFuncs summary));
            ("addedFuncs", JInt (AddedFuncs summary));
            ("removedFuncs", JInt (RemovedFuncs summary)) ].

(** [DiffResult] as serialised. *)
Definition diffResultJSON (profileTypeName : string) (topN : Z)
    (diffs : list FunctionDiff) (summary : DiffSummary) : json :=
  JObject [ ("profileType", JString profileTypeName);
            ("baselineUri", JString "baseline");
            ("targetUri", JString "target");
            ("topN", JInt topN);
            ("functions", JArray (map functionDiffJSON diffs));
            ("summary", summaryJSON summary) ].

(** The slice [diffs] after the sort, for two aggregated maps. *)
Definition rankedDiffs (baselineFuncs targetFuncs : gmap string Z) : list FunctionDiff :=
  sort_Slice byChange (computeFunctionDiffs baselineFuncs targetFuncs).

Definition CompareProfiles (baseline target : Profile) (profileTypeName : string)
    (topN : Z) (format : string) : run (output * option error) :=
  let '(valueIndex, err) := getValueIndex baseline profileTypeName in
  match err with
  | Some e => Done (Text "", Some e)
  | None =>
      baselineFuncs ← aggregateFunctionValues baseline valueIndex;
      targetFuncs ← aggregateFunctionValues target valueIndex;
      let diffs := rankedDiffs baselineFuncs targetFuncs in
      let summary := computeDiffSummary baselineFuncs targetFuncs diffs in
      if String.eqb format "json" then
        Done (MarshalIndent (diffResultJSON profileTypeName topN diffs summary))
      else
        Done (Table (formatDiffReport diffs summary profileTypeName topN format), None)
  end.

End Formatted.

End Diff.

(** ** Error messages

    [fmt.Errorf] with a format whose only verbs are [%d] is rendered
    concretely: each verb is replaced by the decimal numeral of the next
    argument. *)

Definition decimal (z : Z) : string := NilZero.string_of_int (Z.to_int z).

Fixpoint expand (format : string) (args : list Z) : string :=
  match format with
  | EmptyString => ""
  | String "%"%char (String "d"%char rest) =>
      match args with
      | a :: args' => decimal a +:+ expand rest args'
      | [] => "%!d(MISSING)" +:+ expand rest []
      end
  | String c rest => String c (expand rest args)
  end.

Definition Errorf (format : string) (args : list Z) : error :=
  {| Error := expand format args |}.

(** [needle] occurs in [hay] ([strings.Contains]). *)
Fixpoint Contains (hay needle : string) : bool :=
  String.prefix needle hay
  || match hay with
     | EmptyString => false
     | String _ hay' => Contains hay' needle
     end.

(** ** Heap time series ([timeseries.go]) *)

(** The formatted wall-clock time [i] minutes after the call,
    [time.Now().Add(time.Duration(i) * time.Minute).Format(...)]; it is
    display only and taken as given. *)
Class Clock : Type := { timestampAfter : Z -> string }.

Module TimeSeries.

Record TimeSeriesData : Type := {
  Timestamp : string;
  Label : string;
  TotalBytes : Z;
  TotalObjects : Z
}.

Record ObjectTrend : Type := {
  TypeName : string;
  Values : list Z;
  FormattedValues : list string;
  GrowthBytes : Z;
  GrowthPercent : float64;
  GrowthRate : float64;
  TrendDirection : string
}.

Record TimeSeriesSummary : Type := {
  DataPoints : Z;
  TimeSpanMinutes : float64;
  TotalGrowth : Z;
  AvgGrowthRate : float64;
  GrowingObjects : Z;
  StableObjects : Z
}.

Definition tooFewProfiles (profiles : Z) : error :=
  Errorf "至少需要 3 个 profile 来进行时序分析，当前只有 %d 个" [profiles].

Definition labelMismatch (labels profiles : Z) : error :=
  Errorf "标签数量 (%d) 与 profile 数量 (%d) 不匹配" [labels; profiles].

(** The column scan of [extractTimeSeriesData]: the last column named
    "inuse_space" and the last one named "inuse_objects" ([-1] when
    absent); the loop has no [break]. *)
Fixpoint heapColumns (j : Z) (types : list ValueType) (valueIndex objectIndex : Z) : Z * Z :=
  match types with
  | [] => (valueIndex, objectIndex)
  | st :: rest =>
      let valueIndex := if String.eqb (Type_ st) "inuse_space" then j else valueIndex in
      let objectIndex := if String.eqb (Type_ st) "inuse_objects" then j else objectIndex in
      heapColumns (j + 1) rest valueIndex objectIndex
  end.

(** One iteration of [for _, sample := range prof.Sample] in
    [extractTimeSeriesData]; the state is [(totalBytes, totalObjects)]. *)
Definition addSample (valueIndex objectIndex : Z) (totals : Z * Z) (sample : Sample)
    : run (Z * Z) :=
  totalBytes ←
    (if (valueIndex >=? 0) && (len (Value sample) >? valueIndex) then
       v ← index (Value sample) valueIndex; Done (Int64.add (fst totals) v)
     else Done (fst totals));
  totalObjects ←
    (if (objectIndex >=? 0) && (len (Value sample) >? objectIndex) then
       v ← index (Value sample) objectIndex; Done (Int64.add (snd totals) v)
     else Done (snd totals));
  Done (totalBytes, totalObjects).

(** The column scan of [analyzeObjectTrends]: the first column named
    "inuse_space" ([-1] when absent); this loop breaks. *)
Fixpoint firstInuseSpace (j : Z) (types : list ValueType) : Z :=
  match types with
  | [] => -1
  | st :: rest =>
      if String.eqb (Type_ st) "inuse_space" then j else firstInuseSpace (j + 1) rest
  end.

Fixpoint firstFunctionOfStack (locations : list Location) : option Function :=
  match locations with
  | [] => None
  | loc :: rest =>
      match firstFunction (Line_ loc) with
      | Some f => Some f
      | None => firstFunctionOfStack rest
      end
  end.

Definition getObjectTypeFromSample (sample : Sample) : string :=
  match firstFunctionOfStack (Location_ sample) with
  | Some f => Name f
  | None => "unknown"
  end.

(** One iteration of the per-type aggregation of one profile. *)
Definition addTypeValue (valueIndex : Z) (typeValues : gmap string Z) (sample : Sample)
    : run (gmap string Z) :=
  if len (Value sample) <=? valueIndex then Done typeValues
  else
    value ← index (Value sample) valueIndex;
    let typeName := getObjectTypeFromSample sample in
    Done (<[typeName := Int64.add (Diff.valueOf typeValues typeName) value]> typeValues).

(** One iteration of [for typeName, value := range typeValues]:
    [typeDataMap[typeName][i] = value], on a fresh slice of [points]
    zeros when the type is new. *)
Definition recordValue (points i : Z) (typeDataMap : gmap string (list Z))
    (entry : string * Z) : run (gmap string (list Z)) :=
  let values :=
    match typeDataMap !! fst entry with
    | Some values => values
    | None => replicate (Z.to_nat points) 0
    end in
  if (0 <=? i) && (i <? len values) then
    Done (<[fst entry := <[Z.to_nat i := snd entry]> values]> typeDataMap)
  else Panic index_out_of_range.

(** One iteration of [for i, prof := range profiles] in
    [analyzeObjectTrends]. *)
Definition recordProfile (points : Z) (state : Z * gmap string (list Z)) (prof : Profile)
    : run (Z * gmap string (list Z)) :=
  let '(i, typeDataMap) := state in
  let valueIndex := firstInuseSpace 0 (SampleType prof) in
  if valueIndex =? -1 then Done (i + 1, typeDataMap)
  else
    typeValues ← forRange (addTypeValue valueIndex) ∅ (Sample_ prof);
    typeDataMap' ← forRange (recordValue points i) typeDataMap (map_to_list typeValues);
    Done (i + 1, typeDataMap').

Definition trendDirection (growthPercent : float64) : string :=
  if Float64.gt growthPercent (Float64.of_int 10) then "increasing"
  else if Float64.lt growthPercent (Float64.of_int (-10)) then "decreasing"
  else "stable".

(** The order of [sort.Slice(trends, ...)]. *)
Definition byGrowth (x y : ObjectTrend) : bool :=
  Float64.gt (GrowthPercent x) (GrowthPercent y).

Section Formatted.

Context `{Formatting} `{Clock}.

(** One iteration of [for i, prof := range profiles] in
    [extractTimeSeriesData]. *)
Definition pointData (i : Z) (prof : Profile) (labels : list string) : run TimeSeriesData :=
  let '(valueIndex, objectIndex) := heapColumns 0 (SampleType prof) (-1) (-1) in
  totals ← forRange (addSample valueIndex objectIndex) (0, 0) (Sample_ prof);
  label ← index labels i;
  Done {| Timestamp := timestampAfter i;
          Label := label;
          TotalBytes := fst totals;
          TotalObjects := snd totals |}.

Fixpoint extractFrom (i : Z) (profiles : list Profile) (labels : list string)
    : run (list TimeSeriesData) :=
  match profiles with
  | [] => Done []
  | prof :: rest =>
      data ← pointData i prof labels;
      series ← extractFrom (i + 1) rest labels;
      Done (data :: series)
  end.

Definition extractTimeSeriesData (profiles : list Profile) (labels : list string)
    : run (list TimeSeriesData) :=
  extractFrom 0 profiles labels.

(** The body of [for typeName, values := range typeDataMap]. *)
Definition objectTrend (entry : string * list Z) : run ObjectTrend :=
  let '(typeName, values) := entry in
  let formattedValues := map FormatBytes values in
  firstVal ← index values 0;
  lastVal ← index values (len values - 1);
  let growthBytes := Int64.sub lastVal firstVal in
  let growthPercent :=
    if firstVal >? 0 then
      Float64.mul (Float64.div (Float64.of_int growthBytes) (Float64.of_int firstVal))
                  (Float64.of_int 100)
    else Float64.zero in
  let timePoints := len values in
  let growthRate :=
    Float64.div
      (Float64.div (Float64.div (Float64.of_int growthBytes) (Float64.of_int timePoints))
                   (Float64.of_int 1024))
      (Float64.of_int 1024) in
  Done {| TypeName := typeName;
          Values := values;
          FormattedValues := formattedValues;
          GrowthBytes := growthBytes;
          GrowthPercent := growthPercent;
          GrowthRate := growthRate;
          TrendDirection := trendDirection growthPercent |}.

(** [typeDataMap] after the loop over the profiles. *)
Definition typeData (profiles : list Profile) : run (gmap string (list Z)) :=
  state ← forRange (recordProfile (len profiles)) (0, ∅) profiles;
  Done (snd state).

Definition appendTrend (trends : list ObjectTrend) (entry : string * list Z)
    : run (list ObjectTrend) :=
  trend ← objectTrend entry; Done (trends ++ [trend]).

Definition analyzeObjectTrends (profiles : list Profile) (labels : list string)
    : run (list ObjectTrend * option error) :=
  typeDataMap ← typeData profiles;
  trends ← forRange appendTrend [] (map_to_list typeDataMap);
  Done (sort_Slice byGrowth trends, None).

Definition countDirection (counts : Z * Z) (trend : ObjectTrend) : Z * Z :=
  if String.eqb (TrendDirection trend) "increasing" then (fst counts + 1, snd counts)
  else if String.eqb (TrendDirection trend) "stable"
          || String.eqb (TrendDirection trend) "decreasing"
  then (fst counts, snd counts + 1)
  else counts.

Definition computeTimeSeriesSummary (series : list TimeSeriesData)
    (trends : list ObjectTrend) : run TimeSeriesSummary :=
  if len series <? 2 then
    Done {| DataPoints := len series; TimeSpanMinutes := Float64.zero; TotalGrowth := 0;
            AvgGrowthRate := Float64.zero; GrowingObjects := 0; StableObjects := 0 |}
  else
    let timeSpanMinutes := Float64.of_int (len series - 1) in
    last ← index series (len series - 1);
    first ← index series 0;
    let totalGrowth := Int64.sub (TotalBytes last) (TotalBytes first) in
    let avgGrowthRate :=
      Float64.div
        (Float64.div (Float64.div (Float64.of_int totalGrowth) timeSpanMinutes)
                     (Float64.of_int 1024))
        (Float64.of_int 1024) in
    let counts := foldl countDirection (0, 0) trends in
    Done {| DataPoints := len series;
            TimeSpanMinutes := timeSpanMinutes;
            TotalGrowth := totalGrowth;
            AvgGrowthRate := avgGrowthRate;
            GrowingObjects := fst counts;
            StableObjects := snd counts |}.

Definition seriesLine (markdown : bool) (data : TimeSeriesData) : string :=
  if markdown then
    Sprintf "| %s | %s | %s | %d |\n"
      [ StrArg (Timestamp data); StrArg (Label data);
        StrArg (FormatBytes (TotalBytes data)); IntArg (TotalObjects data) ]
  else
    Sprintf "  [%s] %s: %s (%d objects)\n"
      [ StrArg (Timestamp data); StrArg (Label data);
        StrArg (FormatBytes (TotalBytes data)); IntArg (TotalObjects data) ].

Definition seriesHeader (series : list TimeSeriesData) (summary : TimeSeriesSummary)
    (markdown : bool) : list string :=
  if markdown then
    [ "# 内存时序分析报告\n\n";
      "## 概述\n\n";
      Sprintf "- **数据点数**: %d\n" [IntArg (DataPoints summary)];
      Sprintf "- **时间跨度**: %.0f 分钟\n" [FloatArg (TimeSpanMinutes summary)];
      Sprintf "- **总内存增长**: %s\n" [StrArg (FormatBytes (TotalGrowth summary))];
      Sprintf "- **平均增长率**: %.2f MB/分钟\n\n" [FloatArg (AvgGrowthRate summary)];
      "## 时序数据\n\n";
      "| 时间点 | 标签 | 总内存 | 对象数 |\n";
      "|--------|------|--------|--------|\n" ]
    ++ map (seriesLine true) series
    ++ [ "\n## Top 增长对象类型\n\n";
         "| 对象类型 | 初始值 | 最终值 | 增长 | 增长率 | 趋势 |\n";
         "|----------|--------|--------|------|--------|------|\n" ]
  else
    [ "内存时序分析报告\n";
      "==================\n\n";
      "概述:\n";
      Sprintf "  数据点数: %d\n" [IntArg (DataPoints summary)];
      Sprintf "  时间跨度: %.0f 分钟\n" [FloatArg (TimeSpanMinutes summary)];
      Sprintf "  总内存增长: %s\n" [StrArg (FormatBytes (TotalGrowth summary))];
      Sprintf "  平均增长率: %.2f MB/分钟\n\n" [FloatArg (AvgGrowthRate summary)];
      "时序数据:\n" ]
    ++ map (seriesLine false) series
    ++ [ "\nTop 增长对象类型:\n";
         Repeat "-" 120 +:+ "\n";
         Sprintf "%-30s %15s %15s %12s %10s %10s\n"
           [ StrArg "对象类型"; StrArg "初始值"; StrArg "最终值"; StrArg "增长";
             StrArg "增长率"; StrArg "趋势" ];
         Repeat "-" 120 +:+ "\n" ].

Definition trendRow (markdown : bool) (trend : ObjectTrend) : run string :=
  let trendIndicator :=
    if String.eqb (TrendDirection trend) "decreasing" then "📉"
    else if String.eqb (TrendDirection trend) "stable" then "➡️"
    else "📈" in
  first ← index (FormattedValues trend) 0;
  last ← index (FormattedValues trend) (len (FormattedValues trend) - 1);
  if markdown then
    Done (Sprintf "| %s `%s` | %s | %s | %s | %.1f%% | %s %s |\n"
            [ StrArg trendIndicator; StrArg (truncateString (TypeName trend) 25);
              StrArg first; StrArg last; StrArg (FormatBytes (GrowthBytes trend));
              FloatArg (GrowthPercent trend); StrArg (TrendDirection trend);
              StrArg trendIndicator ])
  else
    Done (Sprintf "%-30s %15s %15s %12s %9.1f%% %10s %s\n"
            [ StrArg (truncateString (TypeName trend) 30);
              StrArg first; StrArg last; StrArg (FormatBytes (GrowthBytes trend));
              FloatArg (GrowthPercent trend); StrArg (TrendDirection trend);
              StrArg trendIndicator ]).

(** [for i := 0; i < maxTrends; i++ { trend := trends[i]; ... }]. *)
Fixpoint trendLoop (markdown : bool) (i maxTrends : Z) (trends : list ObjectTrend)
    : run (list string) :=
  match trends with
  | [] => Done []
  | trend :: rest =>
      if i <? maxTrends then
        line ← trendRow markdown trend;
        lines ← trendLoop markdown (i + 1) maxTrends rest;
        Done (line :: lines)
      else Done []
  end.

Definition seriesFooter (markdown : bool) : list string :=
  [ "\n**建议**:\n";
    "- 关注增长率为正且增长率较高的对象类型\n";
    "- 检查是否有内存泄漏（持续增长的类型）\n";
    "- 优化高频分配的对象类型\n" ] ++ (if markdown then ["\n```"] else []).

Definition formatTimeSeriesReport (series : list TimeSeriesData) (trends : list ObjectTrend)
    (summary : TimeSeriesSummary) (format : string) : run table :=
  let markdown := String.eqb format "markdown" in
  lines ← trendLoop markdown 0 (rowLimit 10 trends) trends;
  Done {| header := seriesHeader series summary markdown;
          rows := lines;
          footer := seriesFooter markdown |}.

(** [TotalObjects] carries [omitempty]. *)
Definition seriesJSON (data : TimeSeriesData) : json :=
  JObject ([ ("timestamp", JString (Timestamp data));
             ("label", JString (Label data));
             ("totalBytes", JInt (TotalBytes data)) ]
           ++ (if TotalObjects data =? 0 then []
               else [("totalObjects", JInt (TotalObjects data))])).

Definition trendJSON (trend : ObjectTrend) : json :=
  JObject [ ("typeName", JString (TypeName trend));
            ("values", JArray (map JInt (Values trend)));
            ("formattedValues", JArray (map JString (FormattedValues trend)));
            ("growthBytes", JInt (GrowthBytes trend));
            ("growthPercent", JFloat (GrowthPercent trend));
            ("growthRate", JFloat (GrowthRate trend));
            ("trendDirection", JString (TrendDirection trend)) ].

Definition timeSeriesSummaryJSON (summary : TimeSeriesSummary) : json :=
  JObject [ ("dataPoints", JInt (DataPoints summary));
            ("timeSpanMinutes", JFloat (TimeSpanMinutes summary));
            ("totalGrowth", JInt (TotalGrowth summary));
            ("avgGrowthRate", JFloat (AvgGrowthRate summary));
            ("growingObjects", JInt (GrowingObjects summary));
            ("stableObjects", JInt (StableObjects summary)) ].

Definition timeSeriesResultJSON (series : list TimeSeriesData) (trends : list ObjectTrend)
    (summary : TimeSeriesSummary) : json :=
  JObject [ ("profileType", JString "heap");
            ("series", JArray (map seriesJSON series));
            ("trends", JArray (map trendJSON trends));
            ("summary", timeSeriesSummaryJSON summary) ].

(** The analysis proper, after the two precondition checks. *)
Definition analyzeSeries (profiles : list Profile) (labels : list string) (format : string)
    : run (output * option error) :=
  series ← extractTimeSeriesData profiles labels;
  result ← analyzeObjectTrends profiles labels;
  match snd result with
  | Some err => Done (Text "", Some {| Error := "分析对象趋势失败: " +:+ Error err |})
  | None =>
      let trends := fst result in
      summary ← computeTimeSeriesSummary series trends;
      if String.eqb format "json" then
        Done (MarshalIndent (timeSeriesResultJSON series trends summary))
      else
        report ← formatTimeSeriesReport series trends summary format;
        Done (Table report, None)
  end.

Definition AnalyzeHeapTimeSeries (profiles : list Profile) (labels : list string)
    (format : string) : run (output * option error) :=
  if len profiles <? 3 then Done (Text "", Some (tooFewProfiles (len profiles)))
  else if negb (len labels =? len profiles) then
    Done (Text "", Some (labelMismatch (len labels) (len profiles)))
  else analyzeSeries profiles labels format.

End Formatted.

End TimeSeries.


(** ** The substring test of the package's tests ([mutex_test.go])

    A Go string is its sequence of bytes; [len(s)] counts them and
    [s[i:j]] panics unless [0 <= i <= j <= len(s)]. *)

Definition slice_out_of_range : string := "runtime error: slice bounds out of range".

Definition strlen (s : string) : Z := Z.of_nat (String.length s).

(** [s[i:j]]. *)
Definition slice (s : string) (i j : Z) : run string :=
  if (0 <=? i) && (i <=? j) && (j <=? strlen s)
  then Done (String.substring (Z.to_nat i) (Z.to_nat (j - i)) s)
  else Panic slice_out_of_range.

(** [for i := ...; i <= len(s)-len(substr); i++ { if s[i:i+len(substr)] == substr
    { return true } }; return false], with [n] iterations left: the bound
    does not change in the loop, so the iterations are counted. *)
Fixpoint containsSubstringFrom (s substr : string) (i : Z) (n : nat) : run bool :=
  match n with
  | O => Done false
  | S n' =>
      piece ← slice s i (i + strlen substr);
      if String.eqb piece substr then Done true
      else containsSubstringFrom s substr (i + 1) n'
  end.

Definition containsSubstring (s substr : string) : run bool :=
  containsSubstringFrom s substr 0 (Z.to_nat (strlen s - strlen substr + 1)).

(** [len(s) >= len(substr) && (s == substr || len(s) > len(substr) &&
    containsSubstring(s, substr))], with the short-circuit evaluation of
    Go. *)
Definition containsString (s substr : string) : run bool :=
  if strlen s >=? strlen substr then
    if String.eqb s substr then Done true
    else if strlen s >? strlen substr then containsSubstring s substr
    else Done false
  else Done false.

(** ** The tool handlers ([handler.go], package [main])

    A handler validates the arguments of a tool call, brings the
    profiles into memory and hands them to an analyser.  What lies
    outside the analysed sources is taken from an [Environment]: the
    file and process operations, the analysers of the other profile
    kinds, and the result of converting a float that no [int] can hold.
    The deferred [cleanup()] and [file.Close()] calls release resources
    and do not bear on what a handler returns; like the log they are
    left out. *)

Inductive result (A : Type) : Type :=
| Ok (a : A)
| Err (err : error).
Arguments Ok {A} a.
Arguments Err {A} err.

(** [os.Process], as far as the handlers use it. *)
Record Process : Type := { Pid : Z }.

Inductive Signal : Type := Interrupt | Kill.

Class Environment : Type := {
  (** [getProfileAsFile(uri)], [os.Open(path)] and [profile.Parse(file)]
      for the [n]-th profile that a request brings in. *)
  getProfileAsFile : Z -> string -> result string;
  Open : Z -> string -> option error;
  Parse : Z -> string -> result Profile;
  (** [exec.LookPath(name)], [cmd.Start()] of the command [name args...] and
      [process.Signal(sig)]. *)
  LookPath : string -> option error;
  Start : string -> list string -> result Process;
  signal : Process -> Signal -> option error;
  (** [int(x)] for an [x] that no [int] can hold: the language leaves
      the result to the implementation. *)
  unrepresentable : float64 -> Z;
  (** The analysers of the other profile kinds. *)
  AnalyzeCPUProfile : Profile -> Z -> string -> run (output * option error);
  AnalyzeHeapProfile : Profile -> Z -> string -> run (output * option error);
  AnalyzeGoroutineProfile : Profile -> Z -> string -> run (output * option error);
  AnalyzeAllocsProfile : Profile -> Z -> string -> run (output * option error);
  DetectPotentialMemoryLeaks : Profile -> Profile -> float64 -> Z -> run (output * option error)
}.

Module AnalyzePprofArgs.
Record t : Type := {
  ProfileURI : string;
  ProfileType : string;
  TopN : float64;
  OutputFormat : string
}.
End AnalyzePprofArgs.

Module DetectMemoryLeaksArgs.
Record t : Type := {
  OldProfileURI : string;
  NewProfileURI : string;
  Threshold : float64;
  Limit : float64
}.
End DetectMemoryLeaksArgs.

Module OpenInteractivePprofArgs.
Record t : Type := { ProfileURI : string; HTTPAddress : string }.
End OpenInteractivePprofArgs.

Module DisconnectPprofSessionArgs.
Record t : Type := { PID : float64; HTTPAddress : string }.
End DisconnectPprofSessionArgs.

Module CompareProfilesArgs.
Record t : Type := {
  BaselineProfileURI : string;
  TargetProfileURI : string;
  ProfileType : string;
  TopN : float64;
  OutputFormat : string
}.
End CompareProfilesArgs.

Module AnalyzeHeapTimeSeriesArgs.
Record t : Type := {
  ProfileURIs : list string;
  Labels : list string;
  OutputFormat : string
}.
End AnalyzeHeapTimeSeriesArgs.

(** [x <= 0] and [x == 0] on floats; both are false for NaN. *)
Definition notPositive (x : float64) : bool := SFleb x Float64.zero.

(** The integer part of a finite float, the fraction discarded. *)
Definition truncation (x : float64) : option Z :=
  match x with
  | S754_zero _ => Some 0
  | S754_finite s m e =>
      let magnitude := if 0 <=? e then Zpos m * 2 ^ e else Zpos m / 2 ^ (- e) in
      Some (if s then - magnitude else magnitude)
  | _ => None
  end.

(** [int(x)]. *)
Definition toInt `{Environment} (x : float64) : Z :=
  match truncation x with
  | Some z => if (Int64.min_value <=? z) && (z <=? Int64.max_value) then z else unrepresentable x
  | None => unrepresentable x
  end.


(** [mcp.CallToolResult] with its text contents. *)
Record CallToolResult : Type := { Content : list output }.

(** What a handler returns: the result and the error (the value in
    between is always nil). *)
Definition response : Type := option CallToolResult * option error.

Definition failure (err : error) : response := (None, Some err).
Definition success (contents : list output) : response :=
  (Some {| Content := contents |}, None).

(** [fmt.Errorf(prefix + "%w", err)]. *)
Definition wrapError (prefix : string) (err : error) : error :=
  {| Error := prefix +:+ Error err |}.

Definition missingArgument (name : string) : error :=
  {| Error := "missing required argument: " +:+ name |}.

Section Handlers.

Context `{Formatting} `{Clock} `{Environment}.

(** The three steps that bring the [n]-th profile of a request into
    memory; every handler words their errors alike, naming the profile
    by [what]. *)
Definition loadProfile (n : Z) (uri what : string) : result Profile :=
  match getProfileAsFile n uri with
  | Err err => Err (wrapError ("failed to get " +:+ what +:+ ": ") err)
  | Ok filePath =>
      match Open n filePath with
      | Some err =>
          Err (wrapError ("failed to open " +:+ what +:+ " '" +:+ filePath +:+ "': ") err)
      | None =>
          match Parse n filePath with
          | Err err =>
              Err (wrapError ("failed to parse " +:+ what +:+ " '" +:+ filePath +:+ "': ") err)
          | Ok prof => Ok prof
          end
      end
  end.

(** The end of the handlers that return the text of an analysis. *)
Definition respond (wrap : option string) (analysis : run (output * option error))
    : run response :=
  out ← analysis;
  match snd out with
  | Some err =>
      Done (failure (match wrap with
                     | Some prefix => wrapError prefix err
                     | None => err
                     end))
  | None => Done (success [fst out])
  end.

Definition handleAnalyzePprof (args : AnalyzePprofArgs.t) : run response :=
  if String.eqb (AnalyzePprofArgs.ProfileURI args) "" then
    Done (failure (missingArgument "profile_uri"))
  else if String.eqb (AnalyzePprofArgs.ProfileType args) "" then
    Done (failure (missingArgument "profile_type"))
  else
    let TopN := if notPositive (AnalyzePprofArgs.TopN args) then Float64.of_int 5
                else AnalyzePprofArgs.TopN args in
    let OutputFormat := if String.eqb (AnalyzePprofArgs.OutputFormat args) ""
                        then "flamegraph-json" else AnalyzePprofArgs.OutputFormat args in
    let topN := toInt TopN in
    match loadProfile 0 (AnalyzePprofArgs.ProfileURI args) "profile file" with
    | Err err => Done (failure err)
    | Ok prof =>
        let ProfileType := AnalyzePprofArgs.ProfileType args in
        respond None
          (if String.eqb ProfileType "cpu" then AnalyzeCPUProfile prof topN OutputFormat
           else if String.eqb ProfileType "heap" then AnalyzeHeapProfile prof topN OutputFormat
           else if String.eqb ProfileType "goroutine" then
             AnalyzeGoroutineProfile prof topN OutputFormat
           else if String.eqb ProfileType "allocs" then
             AnalyzeAllocsProfile prof topN OutputFormat
           else if String.eqb ProfileType "mutex" then AnalyzeMutexProfile prof topN OutputFormat
           else if String.eqb ProfileType "block" then AnalyzeBlockProfile prof topN OutputFormat
           else Done (Text "",
                      Some {| Error := "unsupported profile type: '" +:+ ProfileType +:+ "'" |}))
    end.


(** [runningPprofs]: the background sessions by process id.  The two
    session handlers read and write it under [pprofMutex]; they take it
    as an argument and return it. *)
Definition registry : Type := gmap Z Process.

Definition newline : string := String "010"%char "".

Definition handleOpenInteractivePprof (args : OpenInteractivePprofArgs.t)
    (runningPprofs : registry) : response * registry :=
  if String.eqb (OpenInteractivePprofArgs.ProfileURI args) "" then
    (failure (missingArgument "profile_uri"), runningPprofs)
  else
    let httpAddress := if String.eqb (OpenInteractivePprofArgs.HTTPAddress args) ""
                       then ":8081" else OpenInteractivePprofArgs.HTTPAddress args in
    match getProfileAsFile 0 (OpenInteractivePprofArgs.ProfileURI args) with
    | Err err => (failure (wrapError "failed to get profile file: " err), runningPprofs)
    | Ok inputFilePath =>
        let cmdArgs := ["tool"; "pprof"; "-http=" +:+ httpAddress; inputFilePath] in
        match LookPath "go" with
        | Some _ =>
            (failure {| Error := "'go' command not found in PATH, cannot start pprof" |},
             runningPprofs)
        | None =>
            match Start "go" cmdArgs with
            | Err err =>
                (failure (wrapError "failed to start 'go tool pprof': " err), runningPprofs)
            | Ok process =>
                let pid := Pid process in
                let runningPprofs := <[pid := process]> runningPprofs in
                let resultText :=
                  expand "已成功在后台启动 'go tool pprof' (PID: %d) 来分析 '" [pid]
                  +:+ inputFilePath +:+ "'"
                  +:+ "，监听地址约为 " +:+ httpAddress +:+ "。"
                  +:+ newline
                  +:+ "你可以使用 'disconnect_pprof_session' 工具并提供 PID 来尝试终止此进程。"
                  +:+ newline
                  +:+ "注意：如果是远程 URL，下载的临时 pprof 文件在进程结束前不会被自动删除。" in
                (success [Text resultText], runningPprofs)
            end
        end
    end.

Definition handleDisconnectPprofSession (args : DisconnectPprofSessionArgs.t)
    (runningPprofs : registry) : response * registry :=
  if notPositive (DisconnectPprofSessionArgs.PID args) then
    (failure (Errorf "invalid PID: %d" [toInt (DisconnectPprofSessionArgs.PID args)]),
     runningPprofs)
  else
    let pid := toInt (DisconnectPprofSessionArgs.PID args) in
    match runningPprofs !! pid with
    | None =>
        (failure (Errorf "未找到 PID 为 %d 的正在运行的 pprof 会话" [pid]), runningPprofs)
    | Some process =>
        let runningPprofs := delete pid runningPprofs in
        let sent := success [Text (expand "已成功向 PID %d 发送终止信号。" [pid])] in
        match signal process Interrupt with
        | Some _ =>
            match signal process Kill with
            | Some err =>
                (failure (wrapError (expand "尝试终止 PID %d 失败：" [pid]) err), runningPprofs)
            | None => (sent, runningPprofs)
            end
        | None => (sent, runningPprofs)
        end
    end.

Definition handleCompareProfiles (args : CompareProfilesArgs.t) : run response :=
  if String.eqb (CompareProfilesArgs.BaselineProfileURI args) "" then
    Done (failure (missingArgument "baseline_profile_uri"))
  else if String.eqb (CompareProfilesArgs.TargetProfileURI args) "" then
    Done (failure (missingArgument "target_profile_uri"))
  else if String.eqb (CompareProfilesArgs.ProfileType args) "" then
    Done (failure (missingArgument "profile_type"))
  else
    let TopN := if notPositive (CompareProfilesArgs.TopN args) then Float64.of_int 10
                else CompareProfilesArgs.TopN args in
    let OutputFormat := if String.eqb (CompareProfilesArgs.OutputFormat args) ""
                        then "markdown" else CompareProfilesArgs.OutputFormat args in
    let topN := toInt TopN in
    match loadProfile 0 (CompareProfilesArgs.BaselineProfileURI args)
            "baseline profile file" with
    | Err err => Done (failure err)
    | Ok baselineProf =>
        match loadProfile 1 (CompareProfilesArgs.TargetProfileURI args)
                "target profile file" with
        | Err err => Done (failure err)
        | Ok targetProf =>
            respond (Some "failed to compare profiles: ")
              (Diff.CompareProfiles baselineProf targetProf
                 (CompareProfilesArgs.ProfileType args) topN OutputFormat)
        end
    end.

(** The labels [T1], [T2], ... that stand in for omitted ones. *)
Definition defaultLabels (uris : list string) : list string :=
  imap (fun i _ => expand "T%d" [Z.of_nat i + 1]) uris.

(** The loop that loads the profiles, from index [i] on; it ends at
    the first profile that fails to load. *)
Fixpoint loadProfiles (i : Z) (uris : list string) : result (list Profile) :=
  match uris with
  | [] => Ok []
  | uri :: rest =>
      match loadProfile i uri (expand "profile file #%d" [i + 1]) with
      | Err err => Err err
      | Ok prof =>
          match loadProfiles (i + 1) rest with
          | Err err => Err err
          | Ok profiles => Ok (prof :: profiles)
          end
      end
  end.

Definition handleAnalyzeHeapTimeSeries (args : AnalyzeHeapTimeSeriesArgs.t) : run response :=
  let ProfileURIs := AnalyzeHeapTimeSeriesArgs.ProfileURIs args in
  if len ProfileURIs <? 3 then
    Done (failure (Errorf "至少需要 3 个 profile 来进行时序分析，当前只有 %d 个"
                     [len ProfileURIs]))
  else
    let OutputFormat := if String.eqb (AnalyzeHeapTimeSeriesArgs.OutputFormat args) ""
                        then "markdown" else AnalyzeHeapTimeSeriesArgs.OutputFormat args in
    let labels := AnalyzeHeapTimeSeriesArgs.Labels args in
    if negb (len labels =? 0) && negb (len labels =? len ProfileURIs) then
      Done (failure (Errorf "标签数量 (%d) 与 profile 数量 (%d) 不匹配"
                       [len labels; len ProfileURIs]))
    else
      let labels := if len labels =? 0 then defaultLabels ProfileURIs else labels in
      match loadProfiles 0 ProfileURIs with
      | Err err => Done (failure err)
      | Ok profiles =>
          respond (Some "failed to analyze time series: ")
            (TimeSeries.AnalyzeHeapTimeSeries profiles labels OutputFormat)
      end.

End Handlers.
(** ** A concrete instance for closed examples

    The examples below evaluate the analysers on concrete profiles; they
    need some [Formatting].  This one prints integers in decimal and
    leaves format strings uninterpreted.  No statement depends on the
    choice: the general theorems hold for every instance. *)

#[global] Instance fixedClock : Clock := {| timestampAfter := decimal |}.

#[global] Instance plainFormatting : Formatting := {|
  Sprintf := fun format _ => format;
  formatNumber := decimal;
  truncateString := fun s n => String.substring 0 (Z.to_nat n) s;
  FormatBytes := decimal
|}.

(** A sample with one location whose only line names [name]. *)
Definition sampleAt (name : string) (values : list Z) : Sample :=
  {| Location_ := [ {| Line_ := [ {| Function_ := Some {| Name := name |} |} ] |} ];
     Value := values |}.

Definition contentionTypes : list ValueType :=
  [ {| Type_ := "contentions"; Unit := "count" |};
    {| Type_ := "delay"; Unit := "nanoseconds" |} ].

(** * Vocabulary of the statements *)

(** ** Sums, counts and order *)

Definition Zsum (l : list Z) : Z := foldr Z.add 0 l.

(** The exact sum of a field over the values of a map. *)
Definition sumOver {A : Type} (field : A -> Z) (m : gmap string A) : Z :=
  Zsum (map (fun kv => field (snd kv)) (map_to_list m)).

(** The number of entries of a slice that pass a test. *)
Definition countIf {A : Type} (test : A -> bool) (l : list A) : Z := len (List.filter test l).

(** [before less x y]: nothing forces [y] in front of [x]. *)
Definition before {A : Type} (less : A -> A -> bool) (x y : A) : Prop := less y x = false.



(** ** Tools of the floating-point proofs *)

(** The number of binary digits of a mantissa. *)
Definition digits (p : positive) : Z := Zpos (digits2_pos p).



(** ** Serialised objects *)

(** Field access in a serialised object, and the items of an array. *)
Definition field (name : string) (j : json) : option json :=
  match j with
  | JObject fields => snd <$> List.find (fun kv => String.eqb (fst kv) name) fields
  | _ => None
  end.

(** ** The contention analysers *)

(** A sample takes part in the contention aggregation when it has a call
    stack and enough values. *)
Definition eligible (contentionIndex delayIndex : Z) (s : Sample) : bool :=
  negb ((len (Location_ s) =? 0) || (len (Value s) <=? max contentionIndex delayIndex)).

(** The value of a sample in one column, zero when the column is absent. *)
Definition valueAt (column : Z) (s : Sample) : Z := nth (Z.to_nat column) (Value s) 0.

(** The exact profile-wide total of a column over the eligible samples. *)
Definition columnTotal (contentionIndex delayIndex column : Z) (samples : list Sample) : Z :=
  Zsum (map (valueAt column) (filter (fun s => eligible contentionIndex delayIndex s = true) samples)).

(** The aggregation is closed: the groups add up, in 64-bit arithmetic,
    to the two profile-wide totals. *)
Definition closed (a : aggregation) : Prop :=
  Int64.wrap (sumOver Contentions (blockData a)) = totalContentions a
  /\ Int64.wrap (sumOver DelayNanos (blockData a)) = totalDelay a.

(** The name under which [sampleAt name] is aggregated by the
    contention analysers. *)
Definition groupOf (name : string) : string :=
  if String.eqb name "" then "unknown" else name.

(** The profile of the two failing scenarios: one sample, no contentions. *)
Definition idleProfile (name : string) (delay : Z) : Profile :=
  {| SampleType := contentionTypes; Sample_ := [sampleAt name [0; delay]] |}.

(** The profile of the average-delay test: one sample. *)
Definition oneSampleProfile (name : string) (contentions delay : Z) : Profile :=
  {| SampleType := contentionTypes; Sample_ := [sampleAt name [contentions; delay]] |}.

(** A function met by two samples. *)
Definition twoSampleProfile : Profile :=
  {| SampleType := contentionTypes;
     Sample_ := [sampleAt "main.worker" [10; 100]; sampleAt "main.worker" [10; 300]] |}.

(** The profile of the analysers' tests: two functions. *)
Definition twoFunctionProfile : Profile :=
  {| SampleType := contentionTypes;
     Sample_ := [ sampleAt "main.channelReceive" [200; 100000000];
                  sampleAt "main.networkCall" [80; 40000000] ] |}.

(** ** The differential comparator *)

(** Every value of an aggregated map is a 64-bit integer. *)
Definition ranged (m : gmap string Z) : Prop :=
  forall name value, m !! name = Some value -> Int64.in_range value.

(** The classes of a diff entry, in the words of the specification. *)
Definition addedEntry (d : Diff.FunctionDiff) : bool :=
  (Diff.BaselineValue d =? 0) && (Diff.TargetValue d >? 0).

Definition removedEntry (d : Diff.FunctionDiff) : bool :=
  (Diff.TargetValue d =? 0) && (Diff.BaselineValue d >? 0).

Definition improvedEntry (d : Diff.FunctionDiff) : bool :=
  (Diff.DiffValue d <? 0) && negb (addedEntry d) && negb (removedEntry d).

Definition regressedEntry (d : Diff.FunctionDiff) : bool :=
  (Diff.DiffValue d >? 0) && negb (addedEntry d) && negb (removedEntry d).

(** The percentage of a diff entry as the specification words it:
    relative to a positive baseline, exactly 100 for a zero baseline with
    a positive target, and 0 otherwise. *)
Definition statedPercent (baselineValue targetValue diffValue : Z) : float64 :=
  if baselineValue >? 0 then
    Float64.mul (Float64.div (Float64.of_int diffValue) (Float64.of_int baselineValue))
                (Float64.of_int 100)
  else if (baselineValue =? 0) && (targetValue >? 0) then Float64.of_int 100
  else Float64.zero.

(** A diff entry as the specification words it. *)
Definition entryAsStated (d : Diff.FunctionDiff) : Prop :=
  Diff.DiffValue d = Diff.TargetValue d - Diff.BaselineValue d
  /\ Diff.DiffPercentage d
     = statedPercent (Diff.BaselineValue d) (Diff.TargetValue d) (Diff.DiffValue d).

(** A diff entry as the code computes it from the two aggregated maps. *)
Definition entryAsComputed (baselineFuncs targetFuncs : gmap string Z)
    (d : Diff.FunctionDiff) : Prop :=
  let baselineValue := Diff.BaselineValue d in
  let targetValue := Diff.TargetValue d in
  let diffValue := Diff.DiffValue d in
  baselineValue = Diff.valueOf baselineFuncs (Diff.FunctionName d)
  /\ targetValue = Diff.valueOf targetFuncs (Diff.FunctionName d)
  /\ diffValue = Int64.sub targetValue baselineValue
  /\ (Int64.in_range (targetValue - baselineValue) ->
      diffValue = targetValue - baselineValue)
  /\ (baselineValue > 0 ->
      Diff.DiffPercentage d
      = Float64.mul (Float64.div (Float64.of_int diffValue) (Float64.of_int baselineValue))
                    (Float64.of_int 100))
  /\ (baselineValue <= 0 -> targetValue > 0 ->
      Diff.DiffPercentage d = Float64.of_int 100)
  /\ (baselineValue <= 0 -> targetValue <= 0 ->
      Diff.DiffPercentage d = Float64.zero).

(** Profiles with one function and one value in the "cpu" column. *)
Definition cpuTypes : list ValueType :=
  [ {| Type_ := "samples"; Unit := "count" |};
    {| Type_ := "cpu"; Unit := "nanoseconds" |} ].

Definition cpuProfile (name : string) (value : Z) : Profile :=
  {| SampleType := cpuTypes; Sample_ := [sampleAt name [1; value]] |}.

(** ** The time series *)

(** The bytes that a sample contributes through one column: nothing when
    the column is absent from the profile or from the sample. *)
Definition bytesOf (valueIndex : Z) (s : Sample) : Z :=
  if (valueIndex >=? 0) && (len (Value s) >? valueIndex) then valueAt valueIndex s else 0.

(** The column of [extractTimeSeriesData] for the bytes of a profile. *)
Definition lastInuseSpace (prof : Profile) : Z :=
  fst (TimeSeries.heapColumns 0 (SampleType prof) (-1) (-1)).

(** The number of columns of a profile named "inuse_space". *)
Definition inuseSpaceColumns (prof : Profile) : nat :=
  length (List.filter (fun st => String.eqb (Type_ st) "inuse_space") (SampleType prof)).

(** The per-type sums of one profile, as [analyzeObjectTrends]
    aggregates them (empty without an "inuse_space" column). *)
Definition typeValuesOf (prof : Profile) : gmap string Z :=
  let valueIndex := TimeSeries.firstInuseSpace 0 (SampleType prof) in
  if valueIndex =? -1 then ∅
  else match forRange (TimeSeries.addTypeValue valueIndex) ∅ (Sample_ prof) with
       | Done typeValues => typeValues
       | Panic _ => ∅
       end.

(** The exact sum, over the types of [typeDataMap], of their values at
    one time point. *)
Definition pointSum (point : nat) (typeDataMap : gmap string (list Z)) : Z :=
  sumOver (fun values => nth point values 0) typeDataMap.

(** Every sequence of [typeDataMap] has one value per time point. *)
Definition shaped (points : nat) (typeDataMap : gmap string (list Z)) : Prop :=
  forall typeName values,
    typeDataMap !! typeName = Some values -> length values = points /\ (0 < points)%nat.

(** No type has a value yet at a time point. *)
Definition blank (point : nat) (typeDataMap : gmap string (list Z)) : Prop :=
  forall typeName values, typeDataMap !! typeName = Some values -> nth point values 0 = 0.

Definition rangedTable (typeDataMap : gmap string (list Z)) : Prop :=
  forall typeName values, typeDataMap !! typeName = Some values -> Forall Int64.in_range values.

(** The sum, over the ranked trends, of their values at one time point. *)
Definition trendsAt (point : nat) (trends : list TimeSeries.ObjectTrend) : Z :=
  Zsum (map (fun t => nth point (TimeSeries.Values t) 0) trends).

(** The growth rate of a trend as the specification words it: growth
    bytes divided by the number of time points. *)
Definition growthPerPoint (t : TimeSeries.ObjectTrend) : float64 :=
  Float64.div (Float64.of_int (TimeSeries.GrowthBytes t))
              (Float64.of_int (len (TimeSeries.Values t))).

(** The direction of a trend, by the two thresholds. *)
Definition directionByThresholds (t : TimeSeries.ObjectTrend) : Prop :=
  let growthPercent := TimeSeries.GrowthPercent t in
  (TimeSeries.TrendDirection t = "increasing"
   <-> Float64.gt growthPercent (Float64.of_int 10) = true)
  /\ (TimeSeries.TrendDirection t = "decreasing"
      <-> Float64.lt growthPercent (Float64.of_int (-10)) = true)
  /\ (TimeSeries.TrendDirection t = "stable"
      <-> Float64.gt growthPercent (Float64.of_int 10) = false
          /\ Float64.lt growthPercent (Float64.of_int (-10)) = false).

(** A trend as the code computes it from its value sequence over
    [points] time points. *)
Definition trendAsComputed (points : nat) (t : TimeSeries.ObjectTrend) : Prop :=
  length (TimeSeries.Values t) = points
  /\ exists firstVal lastVal,
       head (TimeSeries.Values t) = Some firstVal
       /\ last (TimeSeries.Values t) = Some lastVal
       /\ TimeSeries.GrowthBytes t = Int64.sub lastVal firstVal
       /\ (Int64.in_range (lastVal - firstVal) ->
           TimeSeries.GrowthBytes t = lastVal - firstVal)
       /\ (firstVal > 0 ->
           TimeSeries.GrowthPercent t
           = Float64.mul (Float64.div (Float64.of_int (TimeSeries.GrowthBytes t))
                                      (Float64.of_int firstVal))
                         (Float64.of_int 100))
       /\ (firstVal <= 0 -> TimeSeries.GrowthPercent t = Float64.zero)
       /\ TimeSeries.GrowthRate t
          = Float64.div (Float64.div (growthPerPoint t) (Float64.of_int 1024))
                        (Float64.of_int 1024)
       /\ directionByThresholds t.

(** An error message states a count when the decimal numeral of the
    count occurs in it. *)
Definition states (e : error) (count : Z) : Prop :=
  Contains (Error e) (decimal count) = true.

(** The sample types of a heap profile. *)
Definition heapTypes : list ValueType :=
  [ {| Type_ := "inuse_space"; Unit := "bytes" |};
    {| Type_ := "inuse_objects"; Unit := "count" |} ].

(** A heap profile in which one function holds some MiB in 100 objects. *)
Definition heapProfile (name : string) (mebibytes : Z) : Profile :=
  {| SampleType := heapTypes; Sample_ := [sampleAt name [mebibytes * 1048576; 100]] |}.

(** Three heap profiles in which one function holds 10, 20 and 50 MiB. *)
Definition growingSeries : list Profile :=
  [ heapProfile "main.cache" 10; heapProfile "main.cache" 20; heapProfile "main.cache" 50 ].

(** A heap profile without samples, and seven labels. *)
Definition emptyHeapProfile : Profile := {| SampleType := heapTypes; Sample_ := [] |}.

Definition sevenLabels : list string := ["t0"; "t1"; "t2"; "t3"; "t4"; "t5"; "t6"].

(** Three profiles that declare the column "inuse_space" twice. *)
Definition twiceDeclared : Profile :=
  {| SampleType := [ {| Type_ := "inuse_space"; Unit := "bytes" |};
                     {| Type_ := "inuse_space"; Unit := "bytes" |} ];
     Sample_ := [sampleAt "main.f" [1; 2]] |}.

Definition twiceDeclaredSeries : list Profile := [twiceDeclared; twiceDeclared; twiceDeclared].

(** ** Magnitudes of floating-point numbers *)

(** A zero or a finite number below [2 ^ B] in absolute value. *)
Definition bounded_by (B : Z) (x : float64) : Prop :=
  match x with
  | S754_zero _ => True
  | S754_finite _ m e => digits m + e <= B
  | _ => False
  end.

(** A finite non-zero number of absolute value at least [2 ^ (L - 1)] and
    below [2 ^ B]. *)
Definition within (L B : Z) (x : float64) : Prop :=
  match x with
  | S754_finite _ m e => L <= digits m + e <= B
  | _ => False
  end.


(** Every value of every sample is a 64-bit integer, as in a parsed profile. *)
Definition int64Values (samples : list Sample) : Prop :=
  Forall (fun s => Forall Int64.in_range (Value s)) samples.

(** The group in which the contention analysers put a sample that has a
    call stack. *)
Definition sampleGroup (s : Sample) : option string :=
  contentionFunctionName <$> head (Location_ s).

(** The sample takes part in the aggregation, in the group [name]. *)
Definition inGroup (contentionIndex delayIndex : Z) (name : string) (s : Sample) : bool :=
  eligible contentionIndex delayIndex s && bool_decide (sampleGroup s = Some name).

(** The exact total of a column over the samples of a group. *)
Definition groupTotal (contentionIndex delayIndex column : Z) (name : string)
    (samples : list Sample) : Z :=
  Zsum (map (valueAt column) (List.filter (inGroup contentionIndex delayIndex name) samples)).

(** What the aggregation holds for each name once [samples] have been
    processed. *)
Definition groupsOf (contentionIndex delayIndex : Z) (samples : list Sample)
    (a : aggregation) : Prop :=
  forall name,
    match blockData a !! name with
    | Some stat =>
        FunctionName stat = name
        /\ name <> ""
        /\ Int64.wrap (Contentions stat)
           = Int64.wrap (groupTotal contentionIndex delayIndex contentionIndex name samples)
        /\ Int64.wrap (DelayNanos stat)
           = Int64.wrap (groupTotal contentionIndex delayIndex delayIndex name samples)
        /\ (int64Values samples ->
            Int64.in_range (Contentions stat) /\ Int64.in_range (DelayNanos stat))
        /\ exists s, In s samples /\ inGroup contentionIndex delayIndex name s = true
    | None =>
        forall s, In s samples -> inGroup contentionIndex delayIndex name s = false
    end.


(** A sample without contentions that opens a group: it takes part in
    the aggregation, its contentions value is zero, and no sample before
    it that takes part falls in the same group. *)
Definition zeroOpener (contentionIndex delayIndex : Z) (samples : list Sample) : Prop :=
  exists before s after,
    samples = before ++ s :: after
    /\ eligible contentionIndex delayIndex s = true
    /\ valueAt contentionIndex s = 0
    /\ forall s', In s' before -> eligible contentionIndex delayIndex s' = true ->
                  sampleGroup s' <> sampleGroup s.


(** A profile whose only sample waited for no time at all. *)
Definition zeroDelayProfile : Profile :=
  {| SampleType := contentionTypes; Sample_ := [sampleAt "main.f" [5; 0]] |}.

(** ** The differential comparator: aggregation *)

(** A sample is counted by [aggregateFunctionValues] when it has a call
    stack and a value in the column. *)
Definition counted (valueIndex : Z) (s : Sample) : bool :=
  negb ((len (Location_ s) =? 0) || (len (Value s) <=? valueIndex)).

(** The function to which the comparator attributes a sample that has a
    call stack. *)
Definition topName (s : Sample) : option string :=
  Diff.topFunctionName <$> head (Location_ s).

Definition inFunction (valueIndex : Z) (name : string) (s : Sample) : bool :=
  counted valueIndex s && bool_decide (topName s = Some name).

(** The exact total of the column over the counted samples of a function. *)
Definition functionTotal (valueIndex : Z) (name : string) (samples : list Sample) : Z :=
  Zsum (map (valueAt valueIndex) (List.filter (inFunction valueIndex name) samples)).

(** The aggregated map holds, for each function with a counted sample,
    the 64-bit sum of its values, and nothing else. *)
Definition sumsOf (valueIndex : Z) (samples : list Sample) (funcs : gmap string Z) : Prop :=
  forall name,
    funcs !! name
    = if existsb (inFunction valueIndex name) samples
      then Some (Int64.wrap (functionTotal valueIndex name samples))
      else None.

(** The exact total of the column over all counted samples. *)
Definition countedTotal (valueIndex : Z) (samples : list Sample) : Z :=
  Zsum (map (valueAt valueIndex) (List.filter (counted valueIndex) samples)).


(** The value of a function changed between the two profiles. *)
Definition changedEntry (d : Diff.FunctionDiff) : bool := negb (Diff.DiffValue d =? 0).

(** The indicator that the markdown table of a comparison shows for an
    entry. *)
Definition shownIndicator (d : Diff.FunctionDiff) : string :=
  if Diff.DiffValue d >? 0 then "🔴"
  else if removedEntry d then "❌"
  else "🟢".

(** The markdown row of an entry, with a given indicator. *)
Definition markdownRow `{Formatting} (indicator : string) (i : Z) (d : Diff.FunctionDiff)
    : string :=
  Sprintf "| %d | %s `%s` | %s | %s | %s | %.2f%% |\n"
    [ IntArg (i + 1); StrArg indicator; StrArg (truncateString (Diff.FunctionName d) 40);
      StrArg (Diff.BaselineFormatted d); StrArg (Diff.TargetFormatted d);
      StrArg (Diff.DiffFormatted d); FloatArg (Diff.DiffPercentage d) ].

(** ** The time series: points, summary and report *)

(** The column of [extractTimeSeriesData] for the objects of a profile. *)
Definition lastInuseObjects (prof : Profile) : Z :=
  snd (TimeSeries.heapColumns 0 (SampleType prof) (-1) (-1)).

(** The exact total of a column of a heap profile over the samples that
    have a value in it; zero for an absent column. *)
Definition heapTotal (column : Z) (prof : Profile) : Z :=
  Zsum (map (bytesOf column) (Sample_ prof)).

(** The point of the series for the profile at position [k]. *)
Definition pointOf `{Clock} (k : nat) (prof : Profile) (label : string)
    : TimeSeries.TimeSeriesData :=
  {| TimeSeries.Timestamp := timestampAfter (Z.of_nat k);
     TimeSeries.Label := label;
     TimeSeries.TotalBytes := Int64.wrap (heapTotal (lastInuseSpace prof) prof);
     TimeSeries.TotalObjects := Int64.wrap (heapTotal (lastInuseObjects prof) prof) |}.

Definition increasing (t : TimeSeries.ObjectTrend) : bool :=
  String.eqb (TimeSeries.TrendDirection t) "increasing".

(** ** The time series: the values of a type *)

(** A sample is attributed to the type [typeName] when it has a value in
    the column. *)
Definition inType (valueIndex : Z) (typeName : string) (s : Sample) : bool :=
  (len (Value s) >? valueIndex)
  && bool_decide (TimeSeries.getObjectTypeFromSample s = typeName).

(** The profile has samples of the type: it declares "inuse_space" and
    some sample with a value in the first such column is attributed to
    the type. *)
Definition hasType (prof : Profile) (typeName : string) : bool :=
  let valueIndex := TimeSeries.firstInuseSpace 0 (SampleType prof) in
  negb (valueIndex =? -1) && existsb (inType valueIndex typeName) (Sample_ prof).

(** The value of a type in a profile: the 64-bit sum of the first
    "inuse_space" column over the samples of the type, 0 when the
    profile has none. *)
Definition typeValue (prof : Profile) (typeName : string) : Z :=
  let valueIndex := TimeSeries.firstInuseSpace 0 (SampleType prof) in
  if hasType prof typeName then
    Int64.wrap (Zsum (map (valueAt valueIndex)
                          (List.filter (inType valueIndex typeName) (Sample_ prof))))
  else 0.

(** The table [typeDataMap] once [processed] profiles out of [points]
    have been recorded. *)
Definition tableOf (points : nat) (processed : list Profile)
    (typeDataMap : gmap string (list Z)) : Prop :=
  forall typeName,
    typeDataMap !! typeName
    = if existsb (fun prof => hasType prof typeName) processed
      then Some (map (fun prof => typeValue prof typeName) processed
                 ++ replicate (points - length processed) 0)
      else None.

(** ** Strings *)

(** [substr] occurs in [s]. *)
Definition occursIn (substr s : string) : Prop :=
  exists before after, s = before +:+ substr +:+ after.

(** ** An environment for closed examples

    Every operation succeeds: a URI serves as its own file path, the
    [n]-th profile of a request is the [n]-th of the growing series (an
    empty heap profile beyond it), a started process has the id 4242, a
    conversion that cannot be represented gives the least [int], and the
    analysers of the other kinds report nothing. *)
#[global] Instance quietEnvironment : Environment := {|
  getProfileAsFile _ uri := Ok uri;
  Open _ _ := None;
  Parse n _ := Ok (nth (Z.to_nat n) growingSeries emptyHeapProfile);
  LookPath _ := None;
  Start _ _ := Ok {| Pid := 4242 |};
  signal _ _ := None;
  unrepresentable _ := Int64.min_value;
  AnalyzeCPUProfile _ _ _ := Done (Text "", None);
  AnalyzeHeapProfile _ _ _ := Done (Text "", None);
  AnalyzeGoroutineProfile _ _ _ := Done (Text "", None);
  AnalyzeAllocsProfile _ _ _ := Done (Text "", None);
  DetectPotentialMemoryLeaks _ _ _ _ := Done (Text "", None)
|}.

(** The errors of the session handlers. *)
Definition invalidPID (pid : Z) : error := Errorf "invalid PID: %d" [pid].
Definition sessionNotFound (pid : Z) : error :=
  Errorf "未找到 PID 为 %d 的正在运行的 pprof 会话" [pid].
(** * Properties *)

(** ** Arithmetic modulo 2^64 *)

Lemma wrap_in_range (z : Z) : Int64.in_range z -> Int64.wrap z = z.
Proof.
  unfold Int64.in_range, Int64.min_value, Int64.max_value, Int64.wrap.
  intros Hz. rewrite Z.mod_small by lia. lia.
Qed.

Lemma wrap_range (z : Z) : Int64.in_range (Int64.wrap z).
Proof.
  unfold Int64.in_range, Int64.min_value, Int64.max_value, Int64.wrap.
  pose proof (Z.mod_pos_bound (z + 2 ^ 63) (2 ^ 64) ltac:(lia)). lia.
Qed.

Lemma wrap_add_l (a b : Z) : Int64.wrap (Int64.wrap a + b) = Int64.wrap (a + b).
Proof.
  unfold Int64.wrap. f_equal.
  replace ((a + 2 ^ 63) mod 2 ^ 64 - 2 ^ 63 + b + 2 ^ 63)
    with ((a + 2 ^ 63) mod 2 ^ 64 + b) by lia.
  rewrite Zplus_mod_idemp_l. f_equal. lia.
Qed.

Lemma wrap_add_r (a b : Z) : Int64.wrap (a + Int64.wrap b) = Int64.wrap (a + b).
Proof. rewrite (Z.add_comm a), wrap_add_l. f_equal. lia. Qed.

Lemma wrap_wrap (a : Z) : Int64.wrap (Int64.wrap a) = Int64.wrap a.
Proof. apply wrap_in_range, wrap_range. Qed.

Lemma wrap_zero : Int64.wrap 0 = 0.
Proof. reflexivity. Qed.

(** Equations between wrapped sums, by linear arithmetic on quotients. *)
Ltac wrap_lia :=
  unfold Int64.add, Int64.sub, Int64.wrap in *;
  change (2 ^ 63) with 9223372036854775808 in *;
  change (2 ^ 64) with 18446744073709551616 in *;
  Z.div_mod_to_equations; lia.

(** ** Sums over slices and maps *)

Lemma Zsum_app (l1 l2 : list Z) : Zsum (l1 ++ l2) = Zsum l1 + Zsum l2.
Proof. induction l1 as [|x l1 IH]; simpl; [reflexivity | rewrite IH; lia]. Qed.

Lemma Zsum_perm (l1 l2 : list Z) : l1 ≡ₚ l2 -> Zsum l1 = Zsum l2.
Proof. induction 1; simpl; lia. Qed.

Lemma sumOver_empty {A : Type} (field : A -> Z) : sumOver field (∅ : gmap string A) = 0.
Proof. unfold sumOver. rewrite map_to_list_empty. reflexivity. Qed.

Lemma sumOver_insert_fresh {A : Type} (field : A -> Z) (m : gmap string A) k v :
  m !! k = None -> sumOver field (<[k := v]> m) = field v + sumOver field m.
Proof.
  intros Hk. unfold sumOver.
  rewrite (Zsum_perm _ (map (fun kv => field (snd kv)) ((k, v) :: map_to_list m))).
  - reflexivity.
  - apply Permutation_map, map_to_list_insert, Hk.
Qed.

Lemma sumOver_insert_present {A : Type} (field : A -> Z) (m : gmap string A) k old v :
  m !! k = Some old -> sumOver field (<[k := v]> m) = field v - field old + sumOver field m.
Proof.
  intros Hk.
  rewrite <- (insert_delete_eq m k v).
  rewrite sumOver_insert_fresh by apply lookup_delete_eq.
  assert (sumOver field m = field old + sumOver field (delete k m)) as ->; [|lia].
  unfold sumOver.
  rewrite <- (Zsum_perm _ _ (Permutation_map (fun kv => field (snd kv))
                               (map_to_list_delete m k old Hk))).
  reflexivity.
Qed.

(** ** The contract of the sort *)

Lemma insert_by_perm {A : Type} (less : A -> A -> bool) (x : A) (l : list A) :
  insert_by less x l ≡ₚ x :: l.
Proof.
  induction l as [|y l IH]; simpl; [reflexivity|].
  destruct (less x y); [reflexivity|].
  rewrite IH. apply perm_swap.
Qed.

Lemma sort_Slice_perm {A : Type} (less : A -> A -> bool) (l : list A) :
  sort_Slice less l ≡ₚ l.
Proof.
  induction l as [|x l IH]; simpl; [reflexivity|].
  unfold sort_Slice in *. simpl. rewrite insert_by_perm, IH. reflexivity.
Qed.

Lemma sort_Slice_length {A : Type} (less : A -> A -> bool) (l : list A) :
  length (sort_Slice less l) = length l.
Proof. apply Permutation_length, sort_Slice_perm. Qed.

Section SortContract.

Context {A : Type} (less : A -> A -> bool).
Hypothesis less_asym : forall x y, less x y = true -> less y x = false.




End SortContract.


(** ** Loops and indexing *)

Lemma forRange_invariant {S A : Type} (P : S -> Prop) (body : S -> A -> run S) :
  (forall s x s', P s -> body s x = Done s' -> P s') ->
  forall l s s', P s -> forRange body s l = Done s' -> P s'.
Proof.
  intros Hbody. induction l as [|x l IH]; intros s s' Hs Hrun; simpl in Hrun.
  - congruence.
  - destruct (body s x) as [s1|] eqn:Hstep; simpl in Hrun; [|discriminate].
    eapply IH; [eapply Hbody; eassumption | exact Hrun].
Qed.

Lemma forRange_invariant_in {S A : Type} (P : S -> Prop) (body : S -> A -> run S) (l : list A) :
  (forall s x s', In x l -> P s -> body s x = Done s' -> P s') ->
  forall s s', P s -> forRange body s l = Done s' -> P s'.
Proof.
  induction l as [|x l IH]; intros Hbody s s' Hs Hrun; simpl in Hrun.
  - congruence.
  - destruct (body s x) as [s1|] eqn:Hstep; simpl in Hrun; [|discriminate].
    eapply IH; [ | | exact Hrun].
    + intros s0 y s0' Hy. apply Hbody. right. exact Hy.
    + eapply Hbody; [left; reflexivity | exact Hs | exact Hstep].
Qed.

Lemma forRange_cons {S A : Type} (body : S -> A -> run S) (x : A) (l : list A) (s : S) :
  forRange body s (x :: l) = (s' ← body s x; forRange body s' l).
Proof. reflexivity. Qed.

Lemma bind_Done {A B : Type} (a : A) (f : A -> run B) : (Done a ≫= f) = f a.
Proof. reflexivity. Qed.

Lemma index_Done {A : Type} (l : list A) (i : Z) (x : A) :
  index l i = Done x <-> 0 <= i /\ l !! Z.to_nat i = Some x.
Proof.
  unfold index. destruct (Z.ltb_spec i 0).
  - split; [discriminate | lia].
  - destruct (l !! Z.to_nat i); split; intros Hx;
      try discriminate; try (destruct Hx; discriminate).
    + split; [lia | congruence].
    + destruct Hx as [_ Hx]. congruence.
Qed.

Lemma index_in_range {A : Type} (l : list A) (i : Z) :
  0 <= i < len l -> exists x, index l i = Done x.
Proof.
  intros Hi. unfold len in Hi.
  destruct (lookup_lt_is_Some_2 l (Z.to_nat i)) as [x Hx]; [lia|].
  exists x. apply index_Done. split; [lia | exact Hx].
Qed.

Lemma index_valueAt (s : Sample) (column v : Z) :
  index (Value s) column = Done v -> valueAt column s = v.
Proof.
  intros Hv. apply index_Done in Hv as [_ Hv].
  unfold valueAt. apply nth_lookup_Some. exact Hv.
Qed.

(** ** Floating-point numbers: conversion of 64-bit integers *)

Lemma digits_xO p : digits (p~0) = digits p + 1.
Proof. unfold digits. simpl. lia. Qed.

Lemma digits_xI p : digits (p~1) = digits p + 1.
Proof. unfold digits. simpl. lia. Qed.

Lemma digits_pos p : 1 <= digits p.
Proof. unfold digits. lia. Qed.

Lemma digits_lower p : 2 ^ (digits p - 1) <= Zpos p.
Proof.
  induction p as [p IH|p IH|].
  - rewrite digits_xI. replace (digits p + 1 - 1) with (Z.succ (digits p - 1)) by lia.
    rewrite Z.pow_succ_r by (pose proof (digits_pos p); lia). lia.
  - rewrite digits_xO. replace (digits p + 1 - 1) with (Z.succ (digits p - 1)) by lia.
    rewrite Z.pow_succ_r by (pose proof (digits_pos p); lia). lia.
  - reflexivity.
Qed.

Lemma digits_bound p : Zpos p <= 2 ^ 63 -> digits p <= 64.
Proof.
  intros Hp. destruct (Z.le_gt_cases (digits p) 64) as [|Hgt]; [assumption|].
  pose proof (digits_lower p) as Hl.
  assert (2 ^ 64 <= 2 ^ (digits p - 1)) by (apply Z.pow_le_mono_r; lia).
  lia.
Qed.

Lemma digits_succ p : digits (Pos.succ p) = digits p \/ digits (Pos.succ p) = digits p + 1.
Proof.
  induction p as [p IH|p IH|].
  - change (Pos.succ p~1) with ((Pos.succ p)~0)%positive.
    rewrite digits_xO, digits_xI. destruct IH; lia.
  - change (Pos.succ p~0) with (p~1)%positive. rewrite digits_xI, digits_xO. lia.
  - right. reflexivity.
Qed.

Lemma digits_iter_xO p k : digits (Pos.iter xO p k) = digits p + Zpos k.
Proof.
  induction k as [|k IH] using Pos.peano_ind.
  - simpl. apply digits_xO.
  - rewrite Pos.iter_succ, digits_xO, IH. lia.
Qed.

Lemma iter_pos_nat {A : Type} (f : A -> A) (p : positive) (x : A) :
  SpecFloat.iter_pos f p x = Nat.iter (Pos.to_nat p) f x.
Proof.
  revert x. induction p as [p IH|p IH|]; intros x.
  - change (SpecFloat.iter_pos f p~1 x)
      with (SpecFloat.iter_pos f p (SpecFloat.iter_pos f p (f x))).
    rewrite !IH, Pos2Nat.inj_xI.
    replace (S (2 * Pos.to_nat p))%nat with (Pos.to_nat p + (Pos.to_nat p + 1))%nat by lia.
    rewrite !Nat.iter_add. reflexivity.
  - change (SpecFloat.iter_pos f p~0 x)
      with (SpecFloat.iter_pos f p (SpecFloat.iter_pos f p x)).
    rewrite !IH, Pos2Nat.inj_xO.
    replace (2 * Pos.to_nat p)%nat with (Pos.to_nat p + Pos.to_nat p)%nat by lia.
    rewrite Nat.iter_add. reflexivity.
  - reflexivity.
Qed.

(** One right shift removes one digit of a mantissa of two digits or more. *)
Lemma shr_1_digit p r s :
  2 <= digits p ->
  exists p' r' s',
    shr_1 (Build_shr_record (Zpos p) r s) = Build_shr_record (Zpos p') r' s'
    /\ digits p = digits p' + 1.
Proof.
  intros Hd. destruct p as [p|p|].
  - exists p, true, (r || s). split; [reflexivity | apply digits_xI].
  - exists p, false, (r || s). split; [reflexivity | apply digits_xO].
  - unfold digits in Hd. simpl in Hd. lia.
Qed.

Lemma shr_iter_digits (k : nat) :
  forall p r s,
    digits p = 53 + Z.of_nat k ->
    exists p' r' s',
      Nat.iter k shr_1 (Build_shr_record (Zpos p) r s) = Build_shr_record (Zpos p') r' s'
      /\ digits p' = 53.
Proof.
  induction k as [|k IH]; intros p r s Hd.
  - exists p, r, s. split; [reflexivity | lia].
  - rewrite Nat.iter_succ_r.
    destruct (shr_1_digit p r s ltac:(lia)) as (p1 & r1 & s1 & -> & Hd1).
    apply IH. lia.
Qed.

Lemma round_nearest_even_pos p l :
  exists q,
    round_nearest_even (Zpos p) l = Zpos q
    /\ (digits q = digits p \/ digits q = digits p + 1).
Proof.
  assert (Z.add (Zpos p) (Zpos 1) = Zpos (Pos.succ p)) as Hs by lia.
  unfold round_nearest_even.
  destruct l as [|[| |]]; rewrite ?Hs;
    try destruct (Z.even (Zpos p));
    first [ exists p; split; [reflexivity | left; reflexivity]
          | exists (Pos.succ p); split; [reflexivity | apply digits_succ] ].
Qed.

Lemma fexp_small e : -1021 <= e -> fexp Float64.prec Float64.emax e = e - 53.
Proof. unfold fexp, emin, Float64.prec, Float64.emax. lia. Qed.

Lemma record_of_loc_shape m l : exists r s, shr_record_of_loc m l = Build_shr_record m r s.
Proof. destruct l as [|[| |]]; simpl; eauto. Qed.

(** The shift to the format brings a mantissa of 53 + k digits down to
    53 digits. *)
Lemma shr_fexp_digits (k : nat) p e l :
  digits p = 53 + Z.of_nat k -> -1021 <= digits p + e ->
  exists p' r s,
    shr_fexp Float64.prec Float64.emax (Zpos p) e l
    = (Build_shr_record (Zpos p') r s, e + Z.of_nat k)
    /\ digits p' = 53.
Proof.
  intros Hd He. unfold shr_fexp.
  change (Zdigits2 (Zpos p)) with (digits p).
  rewrite fexp_small by lia.
  replace (digits p + e - 53 - e) with (Z.of_nat k) by lia.
  destruct (record_of_loc_shape (Zpos p) l) as (r & s & ->).
  destruct k as [|k].
  - exists p, r, s. simpl shr. rewrite Z.add_0_r. split; [reflexivity | lia].
  - change (Z.of_nat (S k)) with (Zpos (Pos.of_succ_nat k)) in *.
    unfold shr. rewrite iter_pos_nat, SuccNat2Pos.id_succ.
    destruct (shr_iter_digits (S k) p r s) as (p' & r' & s' & -> & Hd').
    + rewrite Hd. f_equal.
    + exists p', r', s'. split; [reflexivity | exact Hd'].
Qed.

Lemma binary_round_aux_finite (k : nat) sx p e l :
  digits p = 53 + Z.of_nat k -> -1021 <= digits p + e -> e + Z.of_nat k + 1 <= 971 ->
  exists q e', binary_round_aux Float64.prec Float64.emax sx (Zpos p) e l = S754_finite sx q e'.
Proof.
  intros Hd He Hmax. unfold binary_round_aux.
  destruct (shr_fexp_digits k p e l Hd He) as (p1 & r1 & s1 & -> & Hd1).
  simpl shr_m.
  destruct (round_nearest_even_pos p1 (loc_of_shr_record (Build_shr_record (Zpos p1) r1 s1)))
    as (q & -> & [Hq|Hq]).
  - destruct (shr_fexp_digits 0 q (e + Z.of_nat k) loc_Exact) as (q' & r' & s' & -> & Hd');
      [simpl; lia | lia |].
    simpl shr_m.
    destruct (Z.leb_spec (e + Z.of_nat k + Z.of_nat 0) (Float64.emax - Float64.prec));
      [eauto | unfold Float64.emax, Float64.prec in *; simpl in *; lia].
  - destruct (shr_fexp_digits 1 q (e + Z.of_nat k) loc_Exact) as (q' & r' & s' & -> & Hd');
      [simpl; lia | lia |].
    simpl shr_m.
    destruct (Z.leb_spec (e + Z.of_nat k + Z.of_nat 1) (Float64.emax - Float64.prec));
      [eauto | unfold Float64.emax, Float64.prec in *; simpl in *; lia].
Qed.

Lemma binary_round_finite sx p :
  Zpos p <= 2 ^ 63 ->
  exists q e, binary_round Float64.prec Float64.emax sx p 0 = S754_finite sx q e.
Proof.
  intros Hp. pose proof (digits_bound p Hp) as Hd64. pose proof (digits_pos p) as Hd1.
  unfold binary_round.
  change (Zpos (digits2_pos p)) with (digits p).
  rewrite fexp_small by lia. unfold shl_align.
  destruct (digits p + 0 - 53 - 0) as [|d|d] eqn:Hshift.
  - apply (binary_round_aux_finite 0); change (Z.of_nat 0) with 0; lia.
  - apply (binary_round_aux_finite (Pos.to_nat d)); rewrite ?positive_nat_Z; lia.
  - apply (binary_round_aux_finite 0); change (Z.of_nat 0) with 0;
      rewrite ?digits_iter_xO; lia.
Qed.

(** [float64(z)] of a non-zero 64-bit integer is a finite number of the
    sign of [z]: the conversion neither overflows nor vanishes. *)
Lemma of_int_finite z :
  - 2 ^ 63 <= z <= 2 ^ 63 -> z <> 0 ->
  exists m e, Float64.of_int z = S754_finite (z <? 0) m e.
Proof.
  intros Hz Hnz. unfold Float64.of_int, binary_normalize.
  destruct z as [|p|p]; [contradiction| |]; apply binary_round_finite; lia.
Qed.

(** ** Floating-point numbers: no NaN in a percentage *)

Lemma shr_1_nonneg mrs : 0 <= shr_m mrs -> 0 <= shr_m (shr_1 mrs).
Proof. destruct mrs as [[|[p|p|]|p] r s]; simpl; lia. Qed.

Lemma shr_iter_nonneg (k : nat) mrs : 0 <= shr_m mrs -> 0 <= shr_m (Nat.iter k shr_1 mrs).
Proof. intros H. induction k as [|k IH]; simpl; [exact H | apply shr_1_nonneg, IH]. Qed.

Lemma shr_fexp_nonneg m e l :
  0 <= m -> 0 <= shr_m (fst (shr_fexp Float64.prec Float64.emax m e l)).
Proof.
  intros Hm. unfold shr_fexp, shr.
  destruct (record_of_loc_shape m l) as (r & s & ->).
  destruct (fexp Float64.prec Float64.emax (Zdigits2 m + e) - e); simpl fst;
    try (simpl; exact Hm).
  rewrite iter_pos_nat. apply shr_iter_nonneg. exact Hm.
Qed.

Lemma round_nearest_even_nonneg m l : 0 <= m -> 0 <= round_nearest_even m l.
Proof.
  intros Hm. unfold round_nearest_even.
  destruct l as [|[| |]]; try destruct (Z.even m); lia.
Qed.

Lemma binary_round_aux_not_nan sx m e l :
  0 <= m -> Float64.is_nan (binary_round_aux Float64.prec Float64.emax sx m e l) = false.
Proof.
  intros Hm. unfold binary_round_aux.
  pose proof (shr_fexp_nonneg m e l Hm) as H1.
  destruct (shr_fexp Float64.prec Float64.emax m e l) as [mrs1 e1]. simpl fst in H1.
  pose proof (shr_fexp_nonneg _ e1 loc_Exact
                (round_nearest_even_nonneg _ (loc_of_shr_record mrs1) H1)) as H2.
  destruct (shr_fexp Float64.prec Float64.emax _ e1 loc_Exact) as [mrs2 e2]. simpl fst in H2.
  destruct (shr_m mrs2) as [|q|q]; [reflexivity | | lia].
  destruct (e2 <=? Float64.emax - Float64.prec); reflexivity.
Qed.


Lemma SFdiv_core_nonneg m1 e1 m2 e2 :
  0 <= m1 -> 0 < m2 ->
  0 <= fst (fst (SFdiv_core_binary Float64.prec Float64.emax m1 e1 m2 e2)).
Proof.
  intros H1 H2. unfold SFdiv_core_binary.
  set (s := Z.min _ _ ). set (sh := _ - _ - s).
  set (m' := match sh with Z.pos _ => Z.shiftl m1 sh | 0 => m1 | Z.neg _ => 0 end).
  assert (0 <= m') as Hm'.
  { subst m'. destruct sh; [assumption | apply Z.shiftl_nonneg; assumption | lia]. }
  pose proof (Z.div_pos m' m2 Hm' H2) as Hq. unfold Z.div in Hq.
  destruct (Z.div_eucl m' m2) as [q r]. simpl. exact Hq.
Qed.


Lemma of_int_not_nan z : Float64.is_nan (Float64.of_int z) = false.
Proof.
  unfold Float64.of_int, binary_normalize. destruct z as [|p|p]; [reflexivity| |];
    unfold binary_round; destruct (shl_align _ _ _) as [mz ez];
    apply binary_round_aux_not_nan; lia.
Qed.


(** ** Floating-point numbers: the order *)










(** ** Error messages *)

Lemma prefix_append (s rest : string) : String.prefix s (s +:+ rest) = true.
Proof.
  induction s as [|c s IH]; simpl; [destruct rest; reflexivity|].
  destruct (ascii_dec c c); [exact IH | contradiction].
Qed.

Lemma append_assoc (a b c : string) : a +:+ (b +:+ c) = (a +:+ b) +:+ c.
Proof.
  induction a as [|x a IH]; [reflexivity|].
  change (String x (a +:+ (b +:+ c)) = String x ((a +:+ b) +:+ c)). f_equal. exact IH.
Qed.

Lemma Contains_unfold (hay needle : string) :
  Contains hay needle
  = String.prefix needle hay
    || match hay with
       | EmptyString => false
       | String _ hay' => Contains hay' needle
       end.
Proof. destruct hay; reflexivity. Qed.

Lemma Contains_append (before needle after : string) :
  Contains (before +:+ needle +:+ after) needle = true.
Proof.
  induction before as [|c before IH].
  - change (EmptyString +:+ needle +:+ after) with (needle +:+ after).
    rewrite Contains_unfold, prefix_append. reflexivity.
  - change (String c before +:+ needle +:+ after)
      with (String c (before +:+ needle +:+ after)).
    rewrite Contains_unfold, IH. apply orb_true_r.
Qed.

Lemma tooFewProfiles_states (profiles : Z) :
  states (TimeSeries.tooFewProfiles profiles) 3
  /\ states (TimeSeries.tooFewProfiles profiles) profiles.
Proof.
  unfold states. split.
  - change (Error (TimeSeries.tooFewProfiles profiles))
      with ("至少需要 " +:+ "3"
            +:+ (" 个 profile 来进行时序分析，当前只有 " +:+ decimal profiles +:+ " 个")).
    apply Contains_append.
  - change (Error (TimeSeries.tooFewProfiles profiles))
      with ("至少需要 3 个 profile 来进行时序分析，当前只有 " +:+ decimal profiles +:+ " 个").
    apply Contains_append.
Qed.

Lemma labelMismatch_states (labels profiles : Z) :
  states (TimeSeries.labelMismatch labels profiles) labels
  /\ states (TimeSeries.labelMismatch labels profiles) profiles.
Proof.
  unfold states. split.
  - change (Error (TimeSeries.labelMismatch labels profiles))
      with ("标签数量 (" +:+ decimal labels
            +:+ (") 与 profile 数量 (" +:+ decimal profiles +:+ ") 不匹配")).
    apply Contains_append.
  - change (Error (TimeSeries.labelMismatch labels profiles))
      with ("标签数量 (" +:+ decimal labels
            +:+ (") 与 profile 数量 (" +:+ decimal profiles +:+ ") 不匹配")).
    rewrite (append_assoc (decimal labels)), (append_assoc "标签数量 (").
    apply Contains_append.
Qed.

(** ** The contention analysers: the loop *)

Lemma contentionColumns_standard :
  contentionColumns 0 contentionTypes (-1) (-1) = (0, 1).
Proof. reflexivity. Qed.

Lemma contentionFunctionName_sampleAt (name : string) :
  contentionFunctionName {| Line_ := [ {| Function_ := Some {| Name := name |} |} ] |}
  = if String.eqb name "" then "unknown" else name.
Proof. reflexivity. Qed.

(** A sample without contentions that opens a new group stops the run. *)
Lemma aggregateSample_zero_divisor (contentionIndex delayIndex : Z) (a : aggregation)
    (s : Sample) (loc : Location) (delay : Z) :
  eligible contentionIndex delayIndex s = true ->
  index (Value s) contentionIndex = Done 0 ->
  index (Value s) delayIndex = Done delay ->
  index (Location_ s) 0 = Done loc ->
  blockData a !! contentionFunctionName loc = None ->
  aggregateSample contentionIndex delayIndex a s = Panic divide_by_zero.
Proof.
  intros Hel Hc Hd Hl Hnew. unfold aggregateSample, eligible in *.
  apply negb_true_iff in Hel. rewrite Hel, Hc, Hd, Hl. simpl.
  rewrite Hnew. reflexivity.
Qed.

Lemma idleProfile_panics `{Formatting} (w : wording) (name : string) (delay topN : Z)
    (format : string) :
  analyzeContention w (idleProfile name delay) topN format = Panic divide_by_zero.
Proof.
  unfold analyzeContention, idleProfile. simpl SampleType.
  rewrite contentionColumns_standard. simpl.
  unfold aggregateSamples. simpl forRange.
  rewrite (aggregateSample_zero_divisor 0 1 noAggregation _
             {| Line_ := [ {| Function_ := Some {| Name := name |} |} ] |} delay);
    try reflexivity.
Qed.

(** C1.  The specification says that the average-per-unit computation guards a
    zero divisor, so that a sample with zero contentions yields average 0
    and never a runtime failure.  The code computes [delay / contentions]
    unguarded when it opens a group: on a profile whose only sample has
    zero contentions both analysers panic with an integer division by
    zero, for every function name, delay, topN and format. *)
Theorem zero_contentions_divides_by_zero `{Formatting} (name : string) (delay topN : Z)
    (format : string) :
  AnalyzeBlockProfile (idleProfile name delay) topN format = Panic divide_by_zero
  /\ AnalyzeMutexProfile (idleProfile name delay) topN format = Panic divide_by_zero.
Proof. split; apply idleProfile_panics. Qed.

(** ** The contention analysers: closure of the aggregation *)

Lemma aggregateSample_skips (contentionIndex delayIndex : Z) (a : aggregation) (s : Sample) :
  eligible contentionIndex delayIndex s = false ->
  aggregateSample contentionIndex delayIndex a s = Done a.
Proof.
  unfold eligible, aggregateSample. intros Hel.
  apply negb_false_iff in Hel. rewrite Hel. reflexivity.
Qed.

(** What one eligible sample does to the state, when the run goes on. *)
Lemma aggregateSample_Done (contentionIndex delayIndex : Z) (a a' : aggregation) (s : Sample) :
  eligible contentionIndex delayIndex s = true ->
  aggregateSample contentionIndex delayIndex a s = Done a' ->
  exists loc stat,
    index (Location_ s) 0 = Done loc
    /\ blockData a' = <[contentionFunctionName loc := stat]> (blockData a)
    /\ totalContentions a'
       = Int64.add (totalContentions a) (valueAt contentionIndex s)
    /\ totalDelay a' = Int64.add (totalDelay a) (valueAt delayIndex s)
    /\ match blockData a !! contentionFunctionName loc with
       | Some old =>
           Contentions stat = Int64.add (Contentions old) (valueAt contentionIndex s)
           /\ DelayNanos stat = Int64.add (DelayNanos old) (valueAt delayIndex s)
           /\ AvgDelayNanos stat = AvgDelayNanos old
       | None =>
           Contentions stat = valueAt contentionIndex s
           /\ DelayNanos stat = valueAt delayIndex s
           /\ Int64.quo (valueAt delayIndex s) (valueAt contentionIndex s)
              = Done (AvgDelayNanos stat)
       end.
Proof.
  unfold eligible, aggregateSample. intros Hel Hrun.
  apply negb_true_iff in Hel. rewrite Hel in Hrun.
  destruct (index (Value s) contentionIndex) as [c|] eqn:Hc; simpl in Hrun; [|discriminate].
  destruct (index (Value s) delayIndex) as [d|] eqn:Hd; simpl in Hrun; [|discriminate].
  destruct (index (Location_ s) 0) as [loc|] eqn:Hl; simpl in Hrun; [|discriminate].
  apply index_valueAt in Hc, Hd. subst c d.
  destruct (blockData a !! contentionFunctionName loc) as [old|] eqn:Hold; simpl in Hrun.
  - injection Hrun as <-. eexists loc, _. simpl. rewrite Hold.
    repeat split; reflexivity.
  - destruct (Int64.quo (valueAt delayIndex s) (valueAt contentionIndex s)) as [avg|] eqn:Hq;
      simpl in Hrun; [|discriminate].
    injection Hrun as <-. eexists loc, _. simpl. rewrite Hold.
    repeat split; reflexivity.
Qed.

Lemma aggregateSample_closed (contentionIndex delayIndex : Z) (a : aggregation) (s : Sample)
    (a' : aggregation) :
  closed a -> aggregateSample contentionIndex delayIndex a s = Done a' -> closed a'.
Proof.
  intros [HC HD] Hrun.
  destruct (eligible contentionIndex delayIndex s) eqn:Hel.
  - destruct (aggregateSample_Done _ _ _ _ _ Hel Hrun)
      as (loc & stat & _ & Hmap & HtC & HtD & Hstat).
    unfold closed. rewrite Hmap, HtC, HtD, <- HC, <- HD. unfold Int64.add.
    destruct (blockData a !! contentionFunctionName loc) as [old|] eqn:Hold.
    + destruct Hstat as (Hc & Hd & _).
      rewrite !(sumOver_insert_present _ _ _ old) by exact Hold.
      rewrite Hc, Hd. unfold Int64.add. split; wrap_lia.
    + destruct Hstat as (Hc & Hd & _).
      rewrite !sumOver_insert_fresh by exact Hold.
      rewrite Hc, Hd. split; wrap_lia.
  - rewrite aggregateSample_skips in Hrun by exact Hel.
    injection Hrun as <-. split; assumption.
Qed.

Lemma noAggregation_closed : closed noAggregation.
Proof. split; simpl; rewrite sumOver_empty; reflexivity. Qed.

Lemma aggregateSamples_closed (contentionIndex delayIndex : Z) (samples : list Sample)
    (a : aggregation) :
  aggregateSamples contentionIndex delayIndex samples = Done a -> closed a.
Proof.
  apply (forRange_invariant closed); [|apply noAggregation_closed].
  intros s x s' Hs Hstep. eapply aggregateSample_closed; eassumption.
Qed.

(** The running totals are the column totals of the eligible samples. *)
Lemma forRange_aggregate_totals (contentionIndex delayIndex : Z) (samples : list Sample) :
  forall a a',
    forRange (aggregateSample contentionIndex delayIndex) a samples = Done a' ->
    Int64.wrap (totalContentions a')
    = Int64.wrap (totalContentions a
                  + columnTotal contentionIndex delayIndex contentionIndex samples)
    /\ Int64.wrap (totalDelay a')
       = Int64.wrap (totalDelay a
                     + columnTotal contentionIndex delayIndex delayIndex samples).
Proof.
  induction samples as [|s samples IH]; intros a a' Hrun; simpl in Hrun.
  - injection Hrun as <-. unfold columnTotal. simpl. rewrite !Z.add_0_r. split; reflexivity.
  - destruct (aggregateSample contentionIndex delayIndex a s) as [a1|] eqn:Hstep;
      simpl in Hrun; [|discriminate].
    destruct (IH _ _ Hrun) as [HC HD]. rewrite HC, HD. clear HC HD IH Hrun.
    unfold columnTotal.
    destruct (eligible contentionIndex delayIndex s) eqn:Hel.
    + rewrite filter_cons_True by exact Hel. simpl.
      destruct (aggregateSample_Done _ _ _ _ _ Hel Hstep)
        as (loc & stat & _ & _ & HtC & HtD & _).
      rewrite HtC, HtD. split; wrap_lia.
    + rewrite filter_cons_False by (rewrite Hel; discriminate).
      rewrite aggregateSample_skips in Hstep by exact Hel.
      injection Hstep as <-. split; reflexivity.
Qed.

Lemma aggregateSample_total_range (contentionIndex delayIndex : Z) (a a' : aggregation)
    (s : Sample) :
  Int64.in_range (totalContentions a) /\ Int64.in_range (totalDelay a) ->
  aggregateSample contentionIndex delayIndex a s = Done a' ->
  Int64.in_range (totalContentions a') /\ Int64.in_range (totalDelay a').
Proof.
  intros Hr Hstep. destruct (eligible contentionIndex delayIndex s) eqn:Hel.
  - destruct (aggregateSample_Done _ _ _ _ _ Hel Hstep)
      as (loc & stat & _ & _ & HtC & HtD & _).
    rewrite HtC, HtD. split; apply wrap_range.
  - rewrite aggregateSample_skips in Hstep by exact Hel. injection Hstep as <-. exact Hr.
Qed.

Lemma aggregateSamples_totals (contentionIndex delayIndex : Z) (samples : list Sample)
    (a : aggregation) :
  aggregateSamples contentionIndex delayIndex samples = Done a ->
  totalContentions a
  = Int64.wrap (columnTotal contentionIndex delayIndex contentionIndex samples)
  /\ totalDelay a
     = Int64.wrap (columnTotal contentionIndex delayIndex delayIndex samples).
Proof.
  intros Hrun.
  assert (Int64.in_range (totalContentions a) /\ Int64.in_range (totalDelay a)) as [HrC HrD].
  { eapply (forRange_invariant
              (fun a => Int64.in_range (totalContentions a) /\ Int64.in_range (totalDelay a)));
      [| |exact Hrun].
    - intros s x s' Hs Hstep. eapply aggregateSample_total_range; eassumption.
    - split; vm_compute; split; discriminate. }
  destruct (forRange_aggregate_totals _ _ _ _ _ Hrun) as [HC HD].
  rewrite (wrap_in_range _ HrC) in HC. rewrite (wrap_in_range _ HrD) in HD.
  simpl in HC, HD. split; assumption.
Qed.

(** ** The average delay of a group *)

(** What the code reports as the average of a group: the quotient of
    the sample that opened the group, whatever was added later. *)
Lemma average_is_of_opening_sample (contentionIndex delayIndex : Z) (samples : list Sample)
    (a : aggregation) (name : string) (stat : ContentionStat) :
  aggregateSamples contentionIndex delayIndex samples = Done a ->
  blockData a !! name = Some stat ->
  exists s,
    In s samples
    /\ eligible contentionIndex delayIndex s = true
    /\ Int64.quo (valueAt delayIndex s) (valueAt contentionIndex s)
       = Done (AvgDelayNanos stat).
Proof.
  intros Hagg. revert name stat.
  eapply (forRange_invariant_in
            (fun a => forall name stat,
                 blockData a !! name = Some stat ->
                 exists s, In s samples
                           /\ eligible contentionIndex delayIndex s = true
                           /\ Int64.quo (valueAt delayIndex s) (valueAt contentionIndex s)
                              = Done (AvgDelayNanos stat)));
    [ | | exact Hagg].
  - intros a0 s a1 Hin Hinv Hstep name stat Hstat.
    destruct (eligible contentionIndex delayIndex s) eqn:Hel.
    + destruct (aggregateSample_Done _ _ _ _ _ Hel Hstep)
        as (loc & stat' & _ & Hmap & _ & _ & Hcase).
      rewrite Hmap in Hstat.
      destruct (decide (contentionFunctionName loc = name)) as [<-|Hne].
      * rewrite lookup_insert_eq in Hstat. injection Hstat as <-.
        destruct (blockData a0 !! contentionFunctionName loc) as [old|] eqn:Hold.
        -- destruct Hcase as (_ & _ & ->). eapply Hinv, Hold.
        -- destruct Hcase as (_ & _ & Hq). exists s. auto.
      * rewrite lookup_insert_ne in Hstat by exact Hne. eapply Hinv, Hstat.
    + rewrite aggregateSample_skips in Hstep by exact Hel. injection Hstep as <-.
      eapply Hinv, Hstat.
  - intros name stat Hstat. simpl in Hstat. rewrite lookup_empty in Hstat. discriminate.
Qed.

(** The scenario of the average-delay test: one sample of 10 contentions
    and 100 ms yields the average 10 ms. *)
Lemma average_delay_of_single_sample `{Formatting} (name : string) (contentions delay : Z) :
  contentions <> 0 ->
  exists a stat,
    aggregateSamples 0 1 (Sample_ (oneSampleProfile name contentions delay)) = Done a
    /\ blockData a = {[ groupOf name := stat ]}
    /\ Contentions stat = contentions
    /\ DelayNanos stat = delay
    /\ AvgDelayNanos stat = Int64.wrap (Z.quot delay contentions).
Proof.
  intros Hnz. unfold aggregateSamples, oneSampleProfile. simpl Sample_.
  rewrite forRange_cons. unfold aggregateSample. simpl.
  unfold Int64.quo. destruct (Z.eqb_spec contentions 0); [contradiction|]. simpl.
  eexists _, _. split; [reflexivity|]. simpl.
  split; [reflexivity|]. split; [reflexivity|]. split; reflexivity.
Qed.

Lemma average_delay_test_scenario :
  exists a stat,
    aggregateSamples 0 1 (Sample_ (oneSampleProfile "main.slowOperation" 10 100000000)) = Done a
    /\ blockData a = {[ "main.slowOperation" := stat ]}
    /\ AvgDelayNanos stat = 10000000.
Proof.
  destruct (average_delay_of_single_sample "main.slowOperation" 10 100000000 ltac:(lia))
    as (a & stat & Hagg & Hmap & _ & _ & Havg).
  exists a, stat. split; [exact Hagg|]. split; [exact Hmap|]. rewrite Havg. reflexivity.
Qed.

(** The state after the two samples of [twoSampleProfile]. *)
Lemma twoSampleProfile_aggregation :
  exists stat,
    aggregateSamples 0 1 (Sample_ twoSampleProfile)
    = Done {| blockData := {[ "main.worker" := stat ]};
              totalContentions := 20; totalDelay := 400 |}
    /\ Contentions stat = 20 /\ DelayNanos stat = 400 /\ AvgDelayNanos stat = 10.
Proof.
  eexists. split; [vm_compute; reflexivity|]. repeat split.
Qed.

(** C2.  The specification says that the reported average delay of a group is
    its total delay divided by its total contentions, also when the
    totals come from several samples.  The code sets [AvgDelayNanos] only
    when the first sample of a function opens its group and never updates
    it: for a function met by the samples (10, 100) and (10, 300) the
    group totals are 20 contentions and 400 ns, whose quotient is 20,
    but the reported average is 10, the quotient of the first sample. *)
Theorem average_delay_keeps_first_sample `{Formatting} (topN : Z) (format : string) :
  exists stat,
    AnalyzeBlockProfile twoSampleProfile topN format
    = Done (renderContention blockWording 20 400 [stat] topN format)
    /\ AnalyzeMutexProfile twoSampleProfile topN format
       = Done (renderContention mutexWording 20 400 [stat] topN format)
    /\ Contentions stat = 20
    /\ DelayNanos stat = 400
    /\ Int64.quo (DelayNanos stat) (Contentions stat) = Done 20
    /\ AvgDelayNanos stat = 10.
Proof.
  destruct twoSampleProfile_aggregation as (stat0 & Hagg & Hc & Hd & Havg).
  exists (withShares 20 400 stat0).
  assert (forall w, analyzeContention w twoSampleProfile topN format
                    = Done (renderContention w 20 400 [withShares 20 400 stat0] topN format))
    as Hrun.
  { intros w. unfold analyzeContention.
    change (SampleType twoSampleProfile) with contentionTypes.
    rewrite contentionColumns_standard. simpl orb. cbv iota.
    rewrite Hagg. simpl. unfold rankedStats. simpl blockData.
    rewrite map_to_list_singleton. reflexivity. }
  split; [apply Hrun|]. split; [apply Hrun|].
  simpl. rewrite Hc, Hd, Havg. repeat split.
Qed.

(** ** The contention analysers: what is returned *)

Lemma contentionColumns_absent (i : Z) (types : list ValueType) (c d : Z) :
  (Forall (fun st => Type_ st <> "contentions") types ->
   fst (contentionColumns i types c d) = c)
  /\ (Forall (fun st => Type_ st <> "delay") types ->
      snd (contentionColumns i types c d) = d).
Proof.
  revert i c d. induction types as [|st types IH]; intros i c d; simpl.
  - split; reflexivity.
  - split; intros Hall; inversion Hall as [|? ? Hst Hrest]; subst.
    + destruct (String.eqb_spec (Type_ st) "contentions"); [contradiction|].
      destruct (String.eqb (Type_ st) "delay"); apply IH; exact Hrest.
    + destruct (String.eqb_spec (Type_ st) "contentions").
      * apply IH; exact Hrest.
      * destruct (String.eqb_spec (Type_ st) "delay"); [contradiction|].
        apply IH; exact Hrest.
Qed.

Lemma analyzeContention_missing `{Formatting} (w : wording) (p : Profile) (topN : Z)
    (format : string) :
  Forall (fun st => Type_ st <> "contentions") (SampleType p)
  \/ Forall (fun st => Type_ st <> "delay") (SampleType p) ->
  analyzeContention w p topN format = Done (Text "", Some missingSampleTypes).
Proof.
  intros Hmissing. unfold analyzeContention.
  destruct (contentionColumns_absent 0 (SampleType p) (-1) (-1)) as [HC HD].
  destruct (contentionColumns 0 (SampleType p) (-1) (-1)) as [c d]. simpl in HC, HD.
  destruct Hmissing as [Hm|Hm].
  - rewrite (HC Hm). reflexivity.
  - rewrite (HD Hm), orb_true_r. reflexivity.
Qed.

Lemma analyzeContention_found `{Formatting} (w : wording) (p : Profile) (topN : Z)
    (format : string) (contentionIndex delayIndex : Z) (a : aggregation) :
  contentionColumns 0 (SampleType p) (-1) (-1) = (contentionIndex, delayIndex) ->
  contentionIndex <> -1 -> delayIndex <> -1 ->
  aggregateSamples contentionIndex delayIndex (Sample_ p) = Done a ->
  analyzeContention w p topN format
  = Done (if totalContentions a =? 0 then (Text (wNoneFound w), None)
          else renderContention w (totalContentions a) (totalDelay a)
                 (rankedStats a) topN format).
Proof.
  intros Hcols Hc Hd Hagg. unfold analyzeContention. rewrite Hcols.
  destruct (Z.eqb_spec contentionIndex (-1)); [contradiction|].
  destruct (Z.eqb_spec delayIndex (-1)); [contradiction|].
  simpl. rewrite Hagg. simpl. destruct (totalContentions a =? 0); reflexivity.
Qed.

Lemma MarshalIndent_cases (j : json) :
  MarshalIndent j = (JSON j, None)
  \/ exists e, MarshalIndent j = (Text "", Some e).
Proof.
  unfold MarshalIndent. destruct (json_supported j); [left | right; eexists]; reflexivity.
Qed.

Lemma renderContention_not_text `{Formatting} (w : wording) (totalC totalD : Z)
    (stats : list ContentionStat) (topN : Z) (format msg : string) :
  renderContention w totalC totalD stats topN format <> (Text msg, None).
Proof.
  unfold renderContention. destruct (String.eqb format "json").
  - destruct (MarshalIndent_cases (resultJSON w totalC totalD topN stats)) as [->|[e ->]];
      discriminate.
  - discriminate.
Qed.

(** With both columns present and no panic, the "none found" message is
    returned exactly when the total of the contentions is zero. *)
Lemma none_found_iff_zero_total `{Formatting} (w : wording) (p : Profile) (topN : Z)
    (format : string) (contentionIndex delayIndex : Z) (a : aggregation) :
  contentionColumns 0 (SampleType p) (-1) (-1) = (contentionIndex, delayIndex) ->
  contentionIndex <> -1 -> delayIndex <> -1 ->
  aggregateSamples contentionIndex delayIndex (Sample_ p) = Done a ->
  analyzeContention w p topN format = Done (Text (wNoneFound w), None)
  <-> totalContentions a = 0.
Proof.
  intros Hcols Hc Hd Hagg.
  rewrite (analyzeContention_found w p topN format _ _ a Hcols Hc Hd Hagg).
  destruct (Z.eqb_spec (totalContentions a) 0) as [Hz|Hnz].
  - split; [intros _; exact Hz | reflexivity].
  - split; [|contradiction]. intros Heq. injection Heq as Heq.
    exfalso. eapply renderContention_not_text. exact Heq.
Qed.

(** The scenario of the empty profile. *)
Lemma no_samples_none_found `{Formatting} (w : wording) (topN : Z) (format : string) :
  analyzeContention w {| SampleType := contentionTypes; Sample_ := [] |} topN format
  = Done (Text (wNoneFound w), None).
Proof. reflexivity. Qed.

(** C9.  The specification says that every block or mutex analysis whose total
    of contentions is zero returns the "none found" message with a nil
    error.  The profile whose only sample has zero contentions has a zero
    total, yet neither analyser returns: the division that opens the
    group panics before the total is tested (the defect of C1). *)
Theorem zero_total_profile_panics `{Formatting} (name : string) (delay topN : Z)
    (format : string) :
  columnTotal 0 1 0 (Sample_ (idleProfile name delay)) = 0
  /\ AnalyzeBlockProfile (idleProfile name delay) topN format
     <> Done (Text (wNoneFound blockWording), None)
  /\ AnalyzeMutexProfile (idleProfile name delay) topN format
     <> Done (Text (wNoneFound mutexWording), None)
  /\ AnalyzeBlockProfile (idleProfile name delay) topN format = Panic divide_by_zero
  /\ AnalyzeMutexProfile (idleProfile name delay) topN format = Panic divide_by_zero.
Proof.
  assert (forall w, analyzeContention w (idleProfile name delay) topN format
                    = Panic divide_by_zero) as Hpanic
    by (intros w; apply idleProfile_panics).
  unfold AnalyzeBlockProfile, AnalyzeMutexProfile. rewrite !Hpanic.
  repeat split; try discriminate.
Qed.

(** ** The ranked slice of the contention analysers *)

Lemma rankedStats_perm `{Formatting} (a : aggregation) :
  rankedStats a
  ≡ₚ map (fun kv => withShares (totalContentions a) (totalDelay a) (snd kv))
          (map_to_list (blockData a)).
Proof. apply sort_Slice_perm. Qed.

Lemma rankedStats_length `{Formatting} (a : aggregation) :
  length (rankedStats a) = size (blockData a).
Proof.
  rewrite (Permutation_length (rankedStats_perm a)), length_map.
  apply length_map_to_list.
Qed.



Lemma rankedStats_sums `{Formatting} (a : aggregation) :
  Zsum (map Contentions (rankedStats a)) = sumOver Contentions (blockData a)
  /\ Zsum (map DelayNanos (rankedStats a)) = sumOver DelayNanos (blockData a).
Proof.
  unfold sumOver.
  split; rewrite (Zsum_perm _ _ (Permutation_map _ (rankedStats_perm a)));
    rewrite map_map; reflexivity.
Qed.

(** ** The ranking loop *)


Lemma rowLimit_min {A : Type} (topN : Z) (l : list A) :
  rowLimit topN l = Z.min topN (len l).
Proof. unfold rowLimit. destruct (Z.gtb_spec topN (len l)); lia. Qed.


(** ** The differential comparator: the value column *)

Lemma kindColumn_bounds (profileType : string) (types : list ValueType) :
  forall i j, Diff.kindColumn i profileType types = Some j -> i <= j.
Proof.
  induction types as [|st types IH]; intros i j; simpl; [discriminate|].
  destruct (Diff.matchesKind profileType st).
  - intros [= ->]. lia.
  - intros Hj. apply IH in Hj. lia.
Qed.

Lemma kindColumn_None (profileType : string) (types : list ValueType) (i : Z) :
  Diff.kindColumn i profileType types = None
  <-> existsb (Diff.matchesKind profileType) types = false.
Proof.
  revert i. induction types as [|st types IH]; intros i; simpl; [tauto|].
  destruct (Diff.matchesKind profileType st); simpl; [split; discriminate | apply IH].
Qed.

Lemma getValueIndex_returns (p : Profile) (profileType : string) :
  exists i,
    Diff.getValueIndex p profileType = (i, None)
    /\ 0 <= i
    /\ (existsb (Diff.matchesKind profileType) (SampleType p) = false ->
        i = if len (SampleType p) >? 1 then 1 else 0).
Proof.
  unfold Diff.getValueIndex.
  destruct (Diff.kindColumn 0 profileType (SampleType p)) as [j|] eqn:Hk.
  - exists j. split; [reflexivity|]. split; [eapply kindColumn_bounds; eassumption|].
    intros Hnone. apply (kindColumn_None _ _ 0) in Hnone. congruence.
  - destruct (len (SampleType p) >? 1); eexists; (split; [reflexivity|]); split;
      try lia; reflexivity.
Qed.

(** ** The differential comparator: no step can fail *)

Lemma forRange_total {S A : Type} (body : S -> A -> run S) :
  (forall s x, exists s', body s x = Done s') ->
  forall l s, exists s', forRange body s l = Done s'.
Proof.
  intros Hbody. induction l as [|x l IH]; intros s; simpl; [eexists; reflexivity|].
  destruct (Hbody s x) as [s1 ->]. simpl. apply IH.
Qed.

Lemma aggregateValue_total (valueIndex : Z) (result : gmap string Z) (sample : Sample) :
  0 <= valueIndex -> exists result', Diff.aggregateValue valueIndex result sample = Done result'.
Proof.
  intros Hi. unfold Diff.aggregateValue.
  destruct (Z.eqb_spec (len (Location_ sample)) 0) as [|Hloc]; simpl; [eexists; reflexivity|].
  destruct (Z.leb_spec (len (Value sample)) valueIndex) as [|Hval]; [eexists; reflexivity|].
  destruct (index_in_range (Value sample) valueIndex) as [v ->]; [lia|].
  destruct (index_in_range (Location_ sample) 0) as [loc ->]; [unfold len in *; lia|].
  simpl. eexists; reflexivity.
Qed.

Lemma aggregateFunctionValues_total (p : Profile) (valueIndex : Z) :
  0 <= valueIndex -> exists funcs, Diff.aggregateFunctionValues p valueIndex = Done funcs.
Proof.
  intros Hi. apply forRange_total. intros s x. apply aggregateValue_total, Hi.
Qed.

(** [CompareProfiles] always returns: it renders the ranked entries of
    the two aggregated maps. *)
Lemma CompareProfiles_returns `{Formatting} (baseline target : Profile)
    (profileTypeName : string) (topN : Z) (format : string) :
  exists valueIndex baselineFuncs targetFuncs,
    Diff.getValueIndex baseline profileTypeName = (valueIndex, None)
    /\ Diff.aggregateFunctionValues baseline valueIndex = Done baselineFuncs
    /\ Diff.aggregateFunctionValues target valueIndex = Done targetFuncs
    /\ let diffs := Diff.rankedDiffs baselineFuncs targetFuncs in
       let summary := Diff.computeDiffSummary baselineFuncs targetFuncs diffs in
       Diff.CompareProfiles baseline target profileTypeName topN format
       = Done (if String.eqb format "json" then
                 MarshalIndent (Diff.diffResultJSON profileTypeName topN diffs summary)
               else
                 (Table (Diff.formatDiffReport diffs summary profileTypeName topN format),
                  None)).
Proof.
  destruct (getValueIndex_returns baseline profileTypeName) as (i & Hidx & Hi & _).
  destruct (aggregateFunctionValues_total baseline i Hi) as [bf Hbf].
  destruct (aggregateFunctionValues_total target i Hi) as [tf Htf].
  exists i, bf, tf. repeat (split; [assumption|]).
  unfold Diff.CompareProfiles. rewrite Hidx, Hbf, Htf. simpl.
  destruct (String.eqb format "json"); reflexivity.
Qed.

(** ** The differential comparator: entries and summary *)

Lemma functionDiff_computed `{Formatting} (baselineFuncs targetFuncs : gmap string Z)
    (name : string) :
  entryAsComputed baselineFuncs targetFuncs (Diff.functionDiff baselineFuncs targetFuncs name).
Proof.
  unfold entryAsComputed, Diff.functionDiff, Diff.diffPercent. simpl.
  repeat split.
  - intros Hr. apply wrap_in_range, Hr.
  - intros Hb. destruct (Z.gtb_spec (Diff.valueOf baselineFuncs name) 0); [reflexivity | lia].
  - intros Hb Ht.
    destruct (Z.gtb_spec (Diff.valueOf baselineFuncs name) 0); [lia|].
    destruct (Z.gtb_spec (Diff.valueOf targetFuncs name) 0); [reflexivity | lia].
  - intros Hb Ht.
    destruct (Z.gtb_spec (Diff.valueOf baselineFuncs name) 0); [lia|].
    destruct (Z.gtb_spec (Diff.valueOf targetFuncs name) 0); [lia | reflexivity].
Qed.

Lemma rankedDiffs_perm `{Formatting} (baselineFuncs targetFuncs : gmap string Z) :
  Diff.rankedDiffs baselineFuncs targetFuncs
  ≡ₚ Diff.computeFunctionDiffs baselineFuncs targetFuncs.
Proof. apply sort_Slice_perm. Qed.

Lemma rankedDiffs_computed `{Formatting} (baselineFuncs targetFuncs : gmap string Z) :
  Forall (entryAsComputed baselineFuncs targetFuncs)
         (Diff.rankedDiffs baselineFuncs targetFuncs).
Proof.
  rewrite rankedDiffs_perm. unfold Diff.computeFunctionDiffs.
  apply Forall_map, Forall_forall. intros name _. apply functionDiff_computed.
Qed.

(** One entry per function name of either map. *)
Lemma rankedDiffs_names `{Formatting} (baselineFuncs targetFuncs : gmap string Z) :
  map Diff.FunctionName (Diff.rankedDiffs baselineFuncs targetFuncs)
  ≡ₚ elements (dom baselineFuncs ∪ dom targetFuncs : gset string).
Proof.
  rewrite rankedDiffs_perm. unfold Diff.computeFunctionDiffs.
  rewrite map_map. simpl. rewrite map_id. reflexivity.
Qed.


Lemma aggregateFunctionValues_ranged (p : Profile) (valueIndex : Z) (funcs : gmap string Z) :
  Diff.aggregateFunctionValues p valueIndex = Done funcs -> ranged funcs.
Proof.
  apply (forRange_invariant ranged).
  - intros m sample m' Hm. unfold Diff.aggregateValue.
    destruct ((len (Location_ sample) =? 0) || (len (Value sample) <=? valueIndex));
      [intros [= <-]; exact Hm|].
    destruct (index (Value sample) valueIndex) as [value|]; [|discriminate].
    destruct (index (Location_ sample) 0) as [loc|]; [|discriminate].
    simpl. intros [= <-] name v Hv.
    destruct (decide (Diff.topFunctionName loc = name)) as [<-|Hne].
    + rewrite lookup_insert_eq in Hv. injection Hv as <-. apply wrap_range.
    + rewrite lookup_insert_ne in Hv by exact Hne. eapply Hm, Hv.
  - intros name v Hv. rewrite lookup_empty in Hv. discriminate.
Qed.

Lemma valueOf_ranged (m : gmap string Z) (name : string) :
  ranged m -> Int64.in_range (Diff.valueOf m name).
Proof.
  intros Hm. unfold Diff.valueOf. destruct (m !! name) as [v|] eqn:Hv; simpl.
  - eapply Hm, Hv.
  - vm_compute. split; discriminate.
Qed.



Lemma countIf_cons {A : Type} (test : A -> bool) (x : A) (l : list A) :
  countIf test (x :: l) = (if test x then 1 else 0) + countIf test l.
Proof. unfold countIf, len. simpl. destruct (test x); simpl; lia. Qed.

Lemma count_step (c : Diff.tally) (d : Diff.FunctionDiff) :
  Diff.added (Diff.count c d) = Diff.added c + (if addedEntry d then 1 else 0)
  /\ Diff.removed (Diff.count c d) = Diff.removed c + (if removedEntry d then 1 else 0)
  /\ Diff.improved (Diff.count c d) = Diff.improved c + (if improvedEntry d then 1 else 0)
  /\ Diff.regressed (Diff.count c d) = Diff.regressed c + (if regressedEntry d then 1 else 0).
Proof.
  unfold Diff.count, improvedEntry, regressedEntry, addedEntry, removedEntry.
  destruct (Z.eqb_spec (Diff.BaselineValue d) 0), (Z.gtb_spec (Diff.TargetValue d) 0),
    (Z.eqb_spec (Diff.TargetValue d) 0), (Z.gtb_spec (Diff.BaselineValue d) 0),
    (Z.ltb_spec (Diff.DiffValue d) 0), (Z.gtb_spec (Diff.DiffValue d) 0);
    simpl; repeat split; lia.
Qed.

Lemma count_foldl (diffs : list Diff.FunctionDiff) :
  forall c,
    Diff.added (foldl Diff.count c diffs) = Diff.added c + countIf addedEntry diffs
    /\ Diff.removed (foldl Diff.count c diffs) = Diff.removed c + countIf removedEntry diffs
    /\ Diff.improved (foldl Diff.count c diffs) = Diff.improved c + countIf improvedEntry diffs
    /\ Diff.regressed (foldl Diff.count c diffs)
       = Diff.regressed c + countIf regressedEntry diffs.
Proof.
  induction diffs as [|d diffs IH]; intros c.
  - unfold countIf, len. simpl. repeat split; lia.
  - simpl. destruct (IH (Diff.count c d)) as (Ha & Hr & Hi & Hg).
    destruct (count_step c d) as (Ha' & Hr' & Hi' & Hg').
    rewrite Ha, Hr, Hi, Hg, Ha', Hr', Hi', Hg', !countIf_cons. repeat split; lia.
Qed.

Lemma summary_counts `{Formatting} (baselineFuncs targetFuncs : gmap string Z)
    (diffs : list Diff.FunctionDiff) :
  let summary := Diff.computeDiffSummary baselineFuncs targetFuncs diffs in
  Diff.AddedFuncs summary = countIf addedEntry diffs
  /\ Diff.RemovedFuncs summary = countIf removedEntry diffs
  /\ Diff.ImprovedFuncs summary = countIf improvedEntry diffs
  /\ Diff.RegressedFuncs summary = countIf regressedEntry diffs.
Proof.
  simpl.
  destruct (count_foldl diffs
              {| Diff.improved := 0; Diff.regressed := 0; Diff.added := 0; Diff.removed := 0 |})
    as (Ha & Hr & Hi & Hg).
  rewrite Ha, Hr, Hi, Hg. simpl. repeat split.
Qed.

(** C3, as the code has it.  For every baseline and target profile the
    comparison returns the rendering of one entry per function name of
    either profile.  Each entry has [diffValue = targetValue -
    baselineValue] in 64-bit arithmetic (the exact difference whenever
    that fits); its percentage is [diffValue / baselineValue * 100] for a
    positive baseline, exactly 100 for a baseline that is not positive
    with a positive target, and 0 otherwise.  The summary counts range
    over all entries: added are those with baseline 0 and positive
    target, removed those with target 0 and positive baseline, improved
    (regressed) those with negative (positive) diffValue that are neither
    added nor removed. *)
Theorem diff_entries_and_summary `{Formatting} (baseline target : Profile)
    (profileTypeName : string) (topN : Z) (format : string) :
  exists baselineFuncs targetFuncs,
    let diffs := Diff.rankedDiffs baselineFuncs targetFuncs in
    let summary := Diff.computeDiffSummary baselineFuncs targetFuncs diffs in
    Diff.CompareProfiles baseline target profileTypeName topN format
    = Done (if String.eqb format "json" then
              MarshalIndent (Diff.diffResultJSON profileTypeName topN diffs summary)
            else
              (Table (Diff.formatDiffReport diffs summary profileTypeName topN format), None))
    /\ Forall (entryAsComputed baselineFuncs targetFuncs) diffs
    /\ map Diff.FunctionName diffs ≡ₚ elements (dom baselineFuncs ∪ dom targetFuncs : gset string)
    /\ Diff.AddedFuncs summary = countIf addedEntry diffs
    /\ Diff.RemovedFuncs summary = countIf removedEntry diffs
    /\ Diff.ImprovedFuncs summary = countIf improvedEntry diffs
    /\ Diff.RegressedFuncs summary = countIf regressedEntry diffs.
Proof.
  destruct (CompareProfiles_returns baseline target profileTypeName topN format)
    as (i & bf & tf & _ & _ & _ & Hrun).
  exists bf, tf. cbv zeta in *.
  split; [exact Hrun|].
  split; [apply rankedDiffs_computed|].
  split; [apply rankedDiffs_names|].
  apply summary_counts.
Qed.

(** C3, as stated, fails on negative values.  A function whose baseline
    is -1 and whose target is 1 gets percentage 100, where the stated
    rule (baseline neither positive nor zero) gives 0; and with baseline
    -1 and target 2^63 - 1 the stored diffValue is -2^63, not 2^63. *)
Lemma negative_baseline_entry :
  (exists baselineFuncs targetFuncs d,
      Diff.aggregateFunctionValues (cpuProfile "main.f" (-1)) 1 = Done baselineFuncs
      /\ Diff.aggregateFunctionValues (cpuProfile "main.f" 1) 1 = Done targetFuncs
      /\ Diff.rankedDiffs baselineFuncs targetFuncs = [d]
      /\ Diff.BaselineValue d = -1 /\ Diff.TargetValue d = 1
      /\ Diff.DiffPercentage d = Float64.of_int 100
      /\ statedPercent (-1) 1 (Diff.DiffValue d) = Float64.zero
      /\ ~ entryAsStated d)
  /\ (exists baselineFuncs targetFuncs d,
         Diff.aggregateFunctionValues (cpuProfile "main.f" (-1)) 1 = Done baselineFuncs
         /\ Diff.aggregateFunctionValues (cpuProfile "main.f" (2 ^ 63 - 1)) 1 = Done targetFuncs
         /\ Diff.rankedDiffs baselineFuncs targetFuncs = [d]
         /\ Diff.DiffValue d = - 2 ^ 63
         /\ Diff.TargetValue d - Diff.BaselineValue d = 2 ^ 63
         /\ ~ entryAsStated d).
Proof.
  split.
  - eexists _, _, _.
    split; [vm_compute; reflexivity|]. split; [vm_compute; reflexivity|].
    split; [vm_compute; reflexivity|].
    repeat (split; [reflexivity|]).
    intros [_ Hp]. vm_compute in Hp. discriminate.
  - eexists _, _, _.
    split; [vm_compute; reflexivity|]. split; [vm_compute; reflexivity|].
    split; [vm_compute; reflexivity|].
    repeat (split; [reflexivity|]).
    intros [Hd _]. vm_compute in Hd. discriminate.
Qed.

(** C10.  The value-column lookup of the comparator never fails: for
    every profile and every kind string [getValueIndex] returns a nil
    error and a non-negative index, which is 1 when no column matches the
    kind and more than one sample type is declared, and 0 when none
    matches and at most one is declared.  So [CompareProfiles] always
    returns, and its error is nil unless the JSON encoder refuses; the
    block and mutex analysers, in contrast, return the missing-sample-type
    error when either of their columns is absent. *)
Theorem value_column_lookup_never_fails `{Formatting} :
  (forall (p : Profile) (profileType : string),
      exists i,
        Diff.getValueIndex p profileType = (i, None)
        /\ 0 <= i
        /\ (existsb (Diff.matchesKind profileType) (SampleType p) = false ->
            i = if len (SampleType p) >? 1 then 1 else 0))
  /\ (forall (baseline target : Profile) (profileTypeName : string) (topN : Z)
             (format : string),
         exists out err,
           Diff.CompareProfiles baseline target profileTypeName topN format = Done (out, err)
           /\ err <> Some missingSampleTypes
           /\ (err = None \/ (format = "json" /\ err = Some marshalError)))
  /\ (forall (p : Profile) (topN : Z) (format : string),
         Forall (fun st => Type_ st <> "contentions") (SampleType p)
         \/ Forall (fun st => Type_ st <> "delay") (SampleType p) ->
         AnalyzeBlockProfile p topN format = Done (Text "", Some missingSampleTypes)
         /\ AnalyzeMutexProfile p topN format = Done (Text "", Some missingSampleTypes)).
Proof.
  split; [exact getValueIndex_returns|]. split.
  - intros baseline target kind topN format.
    destruct (CompareProfiles_returns baseline target kind topN format)
      as (i & bf & tf & _ & _ & _ & Hrun). cbv zeta in Hrun. rewrite Hrun.
    destruct (String.eqb_spec format "json") as [->|Hfmt].
    + unfold MarshalIndent.
      destruct (json_supported _).
      * eexists _, _. split; [reflexivity|]. split; [discriminate | left; reflexivity].
      * eexists _, _. split; [reflexivity|]. split; [discriminate | right; split; reflexivity].
    + eexists _, _. split; [reflexivity|]. split; [discriminate | left; reflexivity].
  - intros p topN format Hmissing. split; apply analyzeContention_missing, Hmissing.
Qed.

(** ** Rendering: tables are cut at topN, arrays are not *)





(** ** Time series: the per-type table *)

Lemma nth_insert_eq (values : list Z) (i : nat) (v : Z) :
  (i < length values)%nat -> nth i (<[i := v]> values) 0 = v.
Proof. intros Hi. apply nth_lookup_Some, list_lookup_insert_eq, Hi. Qed.

Lemma nth_insert_ne (values : list Z) (i j : nat) (v : Z) :
  i <> j -> nth j (<[i := v]> values) 0 = nth j values 0.
Proof.
  intros Hij. rewrite !nth_lookup. rewrite list_lookup_insert_ne by exact Hij. reflexivity.
Qed.

Lemma nth_replicate_zero (n j : nat) : nth j (replicate n 0) 0 = 0.
Proof.
  rewrite nth_lookup. destruct (replicate n 0 !! j) as [x|] eqn:Hx; [|reflexivity].
  apply lookup_replicate in Hx as [-> _]. reflexivity.
Qed.

Lemma blank_pointSum (point : nat) (typeDataMap : gmap string (list Z)) :
  blank point typeDataMap -> pointSum point typeDataMap = 0.
Proof.
  intros Hblank. unfold pointSum, sumOver.
  assert (Forall (fun kv : string * list Z => nth point (snd kv) 0 = 0)
                 (map_to_list typeDataMap)) as Hall.
  { apply Forall_forall. intros [k values] Hin.
    apply elem_of_map_to_list in Hin. simpl. eapply Hblank, Hin. }
  induction Hall as [|kv l Hkv _ IH]; simpl; [reflexivity | lia].
Qed.

(** What [typeDataMap[typeName][i] = value] does to the table. *)
Lemma recordValue_Done (points i : nat) (typeDataMap : gmap string (list Z))
    (typeName : string) (value : Z) :
  shaped points typeDataMap -> (i < points)%nat ->
  (forall values, typeDataMap !! typeName = Some values -> nth i values 0 = 0) ->
  exists typeDataMap',
    TimeSeries.recordValue (Z.of_nat points) (Z.of_nat i) typeDataMap (typeName, value)
    = Done typeDataMap'
    /\ shaped points typeDataMap'
    /\ pointSum i typeDataMap' = pointSum i typeDataMap + value
    /\ (forall j, j <> i -> pointSum j typeDataMap' = pointSum j typeDataMap)
    /\ (forall j, j <> i -> blank j typeDataMap -> blank j typeDataMap')
    /\ (forall other, other <> typeName -> typeDataMap' !! other = typeDataMap !! other).
Proof.
  intros Hshaped Hi Hzero. unfold TimeSeries.recordValue. simpl fst. simpl snd.
  set (values := match typeDataMap !! typeName with
                 | Some values => values
                 | None => replicate (Z.to_nat (Z.of_nat points)) 0
                 end).
  assert (length values = points) as Hlen.
  { subst values. destruct (typeDataMap !! typeName) as [vs|] eqn:Hk.
    - apply (Hshaped _ _ Hk).
    - rewrite length_replicate. lia. }
  assert ((0 <=? Z.of_nat i) && (Z.of_nat i <? len values) = true) as ->.
  { unfold len. rewrite Hlen. apply andb_true_iff. split; [apply Z.leb_le | apply Z.ltb_lt]; lia. }
  rewrite Nat2Z.id.
  eexists. split; [reflexivity|].
  split; [|split; [|split; [|split]]].
  - intros k vs Hk. destruct (decide (k = typeName)) as [->|Hne].
    + rewrite lookup_insert_eq in Hk. injection Hk as <-.
      rewrite length_insert. split; lia.
    + rewrite lookup_insert_ne in Hk by congruence. apply (Hshaped _ _ Hk).
  - unfold pointSum. subst values.
    destruct (typeDataMap !! typeName) as [vs|] eqn:Hk.
    + rewrite (sumOver_insert_present _ _ _ vs) by exact Hk.
      rewrite nth_insert_eq by (destruct (Hshaped _ _ Hk); lia).
      rewrite (Hzero vs eq_refl). lia.
    + rewrite sumOver_insert_fresh by exact Hk.
      rewrite nth_insert_eq by (rewrite length_replicate; lia). lia.
  - intros j Hj. unfold pointSum. subst values.
    destruct (typeDataMap !! typeName) as [vs|] eqn:Hk.
    + rewrite (sumOver_insert_present _ _ _ vs) by exact Hk.
      rewrite nth_insert_ne by congruence. lia.
    + rewrite sumOver_insert_fresh by exact Hk.
      rewrite nth_insert_ne by congruence. rewrite nth_replicate_zero. lia.
  - intros j Hj Hblank k vs Hk. destruct (decide (k = typeName)) as [->|Hne].
    + rewrite lookup_insert_eq in Hk. injection Hk as <-.
      rewrite nth_insert_ne by congruence. subst values.
      destruct (typeDataMap !! typeName) as [vs|] eqn:Hk'.
      * eapply Hblank, Hk'.
      * apply nth_replicate_zero.
    + rewrite lookup_insert_ne in Hk by congruence. eapply Hblank, Hk.
  - intros other Hne. apply lookup_insert_ne. congruence.
Qed.

(** The loop [for typeName, value := range typeValues] at time point [i]. *)
Lemma recordValues_Done (points i : nat) (entries : list (string * Z)) :
  forall typeDataMap,
    NoDup (map fst entries) ->
    shaped points typeDataMap -> (i < points)%nat ->
    (forall typeName values,
        In typeName (map fst entries) ->
        typeDataMap !! typeName = Some values -> nth i values 0 = 0) ->
    exists typeDataMap',
      forRange (TimeSeries.recordValue (Z.of_nat points) (Z.of_nat i)) typeDataMap entries
      = Done typeDataMap'
      /\ shaped points typeDataMap'
      /\ pointSum i typeDataMap' = pointSum i typeDataMap + Zsum (map snd entries)
      /\ (forall j, j <> i -> pointSum j typeDataMap' = pointSum j typeDataMap)
      /\ (forall j, j <> i -> blank j typeDataMap -> blank j typeDataMap').
Proof.
  induction entries as [|[typeName value] entries IH]; intros M Hnodup Hshaped Hi Hzero.
  - exists M. split; [reflexivity|]. split; [exact Hshaped|].
    split; [simpl; lia|]. split; auto.
  - simpl in Hnodup. apply NoDup_cons in Hnodup as [Hfresh Hnodup].
    destruct (recordValue_Done points i M typeName value Hshaped Hi)
      as (M1 & Hstep & Hshaped1 & Hsum1 & Hother1 & Hblank1 & Hkeep1).
    { intros values. apply Hzero. simpl. left. reflexivity. }
    destruct (IH M1 Hnodup Hshaped1 Hi) as (M2 & Hrun & Hshaped2 & Hsum2 & Hother2 & Hblank2).
    { intros k values Hin Hk. rewrite Hkeep1 in Hk.
      - eapply Hzero; [simpl; right; exact Hin | exact Hk].
      - intros ->. apply Hfresh. apply list_elem_of_In. exact Hin. }
    exists M2. rewrite forRange_cons, Hstep, bind_Done. split; [exact Hrun|].
    split; [exact Hshaped2|]. split; [rewrite Hsum2, Hsum1; simpl; lia|]. split.
    + intros j Hj. rewrite Hother2, Hother1 by exact Hj. reflexivity.
    + intros j Hj Hb. apply Hblank2, Hblank1; assumption.
Qed.

(** ** Time series: one profile *)

Lemma firstInuseSpace_bounds (types : list ValueType) :
  forall j, TimeSeries.firstInuseSpace j types = -1 \/ j <= TimeSeries.firstInuseSpace j types.
Proof.
  induction types as [|st types IH]; intros j; simpl; [left; reflexivity|].
  destruct (String.eqb (Type_ st) "inuse_space"); [right; lia|].
  destruct (IH (j + 1)); [left; assumption | right; lia].
Qed.

Lemma addTypeValue_Done (valueIndex : Z) (typeValues : gmap string Z) (sample : Sample) :
  0 <= valueIndex ->
  exists typeValues',
    TimeSeries.addTypeValue valueIndex typeValues sample = Done typeValues'
    /\ Int64.wrap (sumOver (fun v => v) typeValues')
       = Int64.wrap (sumOver (fun v => v) typeValues + bytesOf valueIndex sample).
Proof.
  intros Hi. unfold TimeSeries.addTypeValue, bytesOf.
  destruct (Z.geb_spec valueIndex 0) as [_|]; [|lia]. simpl.
  destruct (Z.leb_spec (len (Value sample)) valueIndex) as [Hle|Hgt].
  - destruct (Z.gtb_spec (len (Value sample)) valueIndex); [lia|].
    eexists. split; [reflexivity|]. rewrite Z.add_0_r. reflexivity.
  - destruct (Z.gtb_spec (len (Value sample)) valueIndex); [|lia].
    destruct (index_in_range (Value sample) valueIndex) as [v Hv]; [lia|].
    rewrite Hv. simpl. eexists. split; [reflexivity|].
    apply index_valueAt in Hv. rewrite Hv.
    set (typeName := TimeSeries.getObjectTypeFromSample sample).
    unfold Diff.valueOf.
    destruct (typeValues !! typeName) as [old|] eqn:Hold; simpl.
    + rewrite (sumOver_insert_present _ _ _ old) by exact Hold. wrap_lia.
    + rewrite sumOver_insert_fresh by exact Hold. wrap_lia.
Qed.

Lemma addTypeValues_Done (valueIndex : Z) (samples : list Sample) :
  0 <= valueIndex ->
  forall typeValues,
    exists typeValues',
      forRange (TimeSeries.addTypeValue valueIndex) typeValues samples = Done typeValues'
      /\ Int64.wrap (sumOver (fun v => v) typeValues')
         = Int64.wrap (sumOver (fun v => v) typeValues
                       + Zsum (map (bytesOf valueIndex) samples)).
Proof.
  intros Hi. induction samples as [|s samples IH]; intros tv; simpl.
  - eexists. split; [reflexivity|]. rewrite Z.add_0_r. reflexivity.
  - destruct (addTypeValue_Done valueIndex tv s Hi) as (tv1 & -> & Hsum1). simpl.
    destruct (IH tv1) as (tv2 & Hrun & Hsum2).
    exists tv2. split; [exact Hrun|]. rewrite Hsum2. wrap_lia.
Qed.

(** The per-type sums of a profile add up to the bytes of its first
    "inuse_space" column. *)
Lemma typeValuesOf_sum (prof : Profile) :
  Int64.wrap (sumOver (fun v => v) (typeValuesOf prof))
  = Int64.wrap (Zsum (map (bytesOf (TimeSeries.firstInuseSpace 0 (SampleType prof)))
                          (Sample_ prof))).
Proof.
  unfold typeValuesOf.
  destruct (Z.eqb_spec (TimeSeries.firstInuseSpace 0 (SampleType prof)) (-1)) as [Habsent|Hfound].
  - rewrite Habsent, sumOver_empty. f_equal.
    induction (Sample_ prof) as [|s l IH]; simpl; [reflexivity | rewrite <- IH; reflexivity].
  - destruct (firstInuseSpace_bounds (SampleType prof) 0) as [|Hge]; [contradiction|].
    destruct (addTypeValues_Done _ (Sample_ prof) Hge ∅) as (tv & Hrun & Hsum).
    rewrite Hrun, Hsum, sumOver_empty. reflexivity.
Qed.

Lemma recordProfile_Done (points i : nat) (typeDataMap : gmap string (list Z))
    (prof : Profile) :
  shaped points typeDataMap -> (i < points)%nat -> blank i typeDataMap ->
  exists typeDataMap',
    TimeSeries.recordProfile (Z.of_nat points) (Z.of_nat i, typeDataMap) prof
    = Done (Z.of_nat (S i), typeDataMap')
    /\ shaped points typeDataMap'
    /\ pointSum i typeDataMap' = sumOver (fun v => v) (typeValuesOf prof)
    /\ (forall j, j <> i -> pointSum j typeDataMap' = pointSum j typeDataMap)
    /\ (forall j, j <> i -> blank j typeDataMap -> blank j typeDataMap').
Proof.
  intros Hshaped Hi Hblank. unfold TimeSeries.recordProfile, typeValuesOf.
  replace (Z.of_nat i + 1) with (Z.of_nat (S i)) by lia.
  destruct (Z.eqb_spec (TimeSeries.firstInuseSpace 0 (SampleType prof)) (-1)) as [_|Hfound].
  - exists typeDataMap. split; [reflexivity|]. split; [exact Hshaped|].
    split; [rewrite sumOver_empty; apply blank_pointSum, Hblank|]. split; auto.
  - destruct (firstInuseSpace_bounds (SampleType prof) 0) as [|Hge]; [contradiction|].
    destruct (addTypeValues_Done _ (Sample_ prof) Hge ∅) as (tv & Hrun & _).
    rewrite Hrun. simpl.
    destruct (recordValues_Done points i (map_to_list tv) typeDataMap)
      as (M' & Hrec & Hshaped' & Hsum & Hother & Hblank'); try assumption.
    { apply NoDup_fst_map_to_list. }
    { intros k values _ Hk. eapply Hblank, Hk. }
    exists M'. rewrite Hrec. simpl. split; [reflexivity|]. split; [exact Hshaped'|].
    split; [|split; assumption].
    rewrite Hsum, (blank_pointSum _ _ Hblank). unfold sumOver. simpl. reflexivity.
Qed.

(** ** Time series: the loop over the profiles *)

Lemma recordProfiles_Done (points : nat) (rest : list Profile) :
  forall (i : nat) (typeDataMap : gmap string (list Z)),
    (i + length rest = points)%nat ->
    shaped points typeDataMap ->
    (forall j, (i <= j)%nat -> blank j typeDataMap) ->
    exists typeDataMap',
      forRange (TimeSeries.recordProfile (Z.of_nat points)) (Z.of_nat i, typeDataMap) rest
      = Done (Z.of_nat points, typeDataMap')
      /\ shaped points typeDataMap'
      /\ (forall k prof, rest !! k = Some prof ->
                         pointSum (i + k) typeDataMap'
                         = sumOver (fun v => v) (typeValuesOf prof))
      /\ (forall j, (j < i)%nat -> pointSum j typeDataMap' = pointSum j typeDataMap).
Proof.
  induction rest as [|prof rest IH]; intros i M Hlen Hshaped Hblank.
  - simpl in Hlen. exists M. simpl. replace i with points by lia.
    split; [reflexivity|]. split; [exact Hshaped|]. split; [|reflexivity].
    intros k prof Hk. rewrite lookup_nil in Hk. discriminate.
  - simpl in Hlen.
    destruct (recordProfile_Done points i M prof Hshaped ltac:(lia) (Hblank i ltac:(lia)))
      as (M1 & Hstep & Hshaped1 & Hsum1 & Hother1 & Hblank1).
    destruct (IH (S i) M1 ltac:(lia) Hshaped1) as (M2 & Hrun & Hshaped2 & Hsums2 & Hkeep2).
    { intros j Hj. apply Hblank1; [lia|]. apply Hblank. lia. }
    exists M2. rewrite forRange_cons, Hstep, bind_Done.
    split; [exact Hrun|]. split; [exact Hshaped2|].
    split.
    + intros [|k] p Hk; simpl in Hk.
      * injection Hk as <-. rewrite Nat.add_0_r, Hkeep2 by lia. exact Hsum1.
      * replace (i + S k)%nat with (S i + k)%nat by lia. apply Hsums2, Hk.
    + intros j Hj. rewrite Hkeep2, Hother1 by lia. reflexivity.
Qed.

Lemma typeData_Done (profiles : list Profile) :
  exists typeDataMap,
    TimeSeries.typeData profiles = Done typeDataMap
    /\ shaped (length profiles) typeDataMap
    /\ (forall k prof, profiles !! k = Some prof ->
                       pointSum k typeDataMap = sumOver (fun v => v) (typeValuesOf prof)).
Proof.
  destruct (recordProfiles_Done (length profiles) profiles 0 ∅)
    as (M & Hrun & Hshaped & Hsums & _).
  - reflexivity.
  - intros k values Hk. rewrite lookup_empty in Hk. discriminate.
  - intros j _ k values Hk. rewrite lookup_empty in Hk. discriminate.
  - exists M. unfold TimeSeries.typeData, len. change (Z.of_nat 0) with 0 in Hrun.
    rewrite Hrun.
    split; [reflexivity|]. split; [exact Hshaped|]. exact Hsums.
Qed.

(** ** Time series: trends *)

Lemma thresholds_exclusive (growthPercent : float64) :
  Float64.lt growthPercent (Float64.of_int (-10)) = true ->
  Float64.gt growthPercent (Float64.of_int 10) = false.
Proof.
  destruct growthPercent as [s|s| |s m e]; try destruct s; try discriminate;
    intros _; reflexivity.
Qed.

Lemma trendDirection_thresholds (growthPercent : float64) :
  (TimeSeries.trendDirection growthPercent = "increasing"
   <-> Float64.gt growthPercent (Float64.of_int 10) = true)
  /\ (TimeSeries.trendDirection growthPercent = "decreasing"
      <-> Float64.lt growthPercent (Float64.of_int (-10)) = true)
  /\ (TimeSeries.trendDirection growthPercent = "stable"
      <-> Float64.gt growthPercent (Float64.of_int 10) = false
          /\ Float64.lt growthPercent (Float64.of_int (-10)) = false).
Proof.
  pose proof (thresholds_exclusive growthPercent) as Hex.
  unfold TimeSeries.trendDirection.
  destruct (Float64.gt growthPercent (Float64.of_int 10)) eqn:Hgt;
    destruct (Float64.lt growthPercent (Float64.of_int (-10))) eqn:Hlt;
    try (specialize (Hex eq_refl); discriminate);
    repeat split; try discriminate; try reflexivity;
    try (intros [? ?]; discriminate).
Qed.

Lemma index_first {A : Type} (l : list A) (x : A) : head l = Some x -> index l 0 = Done x.
Proof. intros Hx. apply index_Done. split; [lia|]. rewrite <- head_lookup. exact Hx. Qed.

Lemma index_last {A : Type} (l : list A) (x : A) :
  last l = Some x -> index l (len l - 1) = Done x.
Proof.
  intros Hx. apply index_Done.
  assert (l <> []) as Hne by (intros ->; discriminate).
  assert (0 < length l)%nat by (destruct l; [contradiction | simpl; lia]).
  unfold len. split; [lia|].
  replace (Z.to_nat (Z.of_nat (length l) - 1)) with (pred (length l)) by lia.
  rewrite <- last_lookup. exact Hx.
Qed.

Lemma nonempty_ends {A : Type} (l : list A) :
  (0 < length l)%nat -> exists x y, head l = Some x /\ last l = Some y.
Proof.
  intros Hl. destruct l as [|x l]; [simpl in Hl; lia|].
  exists x. destruct (last (x :: l)) as [y|] eqn:Hy; [exists y; split; reflexivity|].
  apply last_None in Hy. discriminate.
Qed.

(** The body of the trend loop on a non-empty sequence. *)
Lemma objectTrend_Done `{Formatting} (typeName : string) (values : list Z) :
  (0 < length values)%nat ->
  exists t,
    TimeSeries.objectTrend (typeName, values) = Done t
    /\ TimeSeries.TypeName t = typeName
    /\ TimeSeries.Values t = values
    /\ TimeSeries.FormattedValues t = map FormatBytes values
    /\ trendAsComputed (length values) t.
Proof.
  intros Hlen. destruct (nonempty_ends values Hlen) as (firstVal & lastVal & Hfirst & Hlast).
  unfold TimeSeries.objectTrend.
  rewrite (index_first _ _ Hfirst), (index_last _ _ Hlast). simpl.
  eexists. split; [reflexivity|]. simpl.
  split; [reflexivity|]. split; [reflexivity|]. split; [reflexivity|].
  split; [reflexivity|].
  exists firstVal, lastVal. simpl.
  split; [exact Hfirst|]. split; [exact Hlast|]. split; [reflexivity|].
  split; [intros Hr; apply wrap_in_range, Hr|].
  split; [intros Hpos; destruct (Z.gtb_spec firstVal 0); [reflexivity | lia]|].
  split; [intros Hneg; destruct (Z.gtb_spec firstVal 0); [lia | reflexivity]|].
  split; [reflexivity|].
  unfold directionByThresholds. simpl. apply trendDirection_thresholds.
Qed.

(** The trend loop over the entries of the table. *)
Lemma appendTrends_Done `{Formatting} (points : nat) (entries : list (string * list Z)) :
  Forall (fun e => length (snd e) = points /\ (0 < points)%nat) entries ->
  forall trends,
    exists added,
      forRange TimeSeries.appendTrend trends entries = Done (trends ++ added)
      /\ Forall2 (fun e t => TimeSeries.TypeName t = fst e
                             /\ TimeSeries.Values t = snd e
                             /\ TimeSeries.FormattedValues t = map FormatBytes (snd e)
                             /\ trendAsComputed points t)
                 entries added.
Proof.
  induction 1 as [|[typeName values] entries [Hlen Hpos] _ IH]; intros trends.
  - exists []. rewrite app_nil_r. split; [reflexivity | constructor].
  - simpl in Hlen.
    destruct (objectTrend_Done typeName values ltac:(lia)) as (t & Ht & Hname & Hvalues & Hfmt & Hcomp).
    destruct (IH (trends ++ [t])) as (added & Hrun & Hall).
    exists (t :: added). rewrite forRange_cons.
    change (TimeSeries.appendTrend trends (typeName, values))
      with (trend ← TimeSeries.objectTrend (typeName, values); Done (trends ++ [trend])).
    rewrite Ht, !bind_Done, Hrun, <- app_assoc. split; [reflexivity|].
    constructor; [|exact Hall]. simpl. rewrite Hlen in Hcomp. auto.
Qed.

(** [analyzeObjectTrends] always returns, with a nil error: one trend
    per type of the table, ranked. *)
Lemma analyzeObjectTrends_Done `{Formatting} (profiles : list Profile) (labels : list string) :
  exists typeDataMap trends,
    TimeSeries.typeData profiles = Done typeDataMap
    /\ shaped (length profiles) typeDataMap
    /\ (forall k prof, profiles !! k = Some prof ->
                       pointSum k typeDataMap = sumOver (fun v => v) (typeValuesOf prof))
    /\ Forall2 (fun e t => TimeSeries.TypeName t = fst e
                           /\ TimeSeries.Values t = snd e
                           /\ TimeSeries.FormattedValues t = map FormatBytes (snd e)
                           /\ trendAsComputed (length profiles) t)
               (map_to_list typeDataMap) trends
    /\ TimeSeries.analyzeObjectTrends profiles labels
       = Done (sort_Slice TimeSeries.byGrowth trends, None).
Proof.
  destruct (typeData_Done profiles) as (M & Hdata & Hshaped & Hsums).
  destruct (appendTrends_Done (length profiles) (map_to_list M)) with (trends := @nil TimeSeries.ObjectTrend)
    as (trends & Hrun & Hall).
  { apply Forall_forall. intros [k values] Hin. apply elem_of_map_to_list in Hin.
    simpl. apply (Hshaped _ _ Hin). }
  exists M, trends. repeat (split; [assumption|]).
  unfold TimeSeries.analyzeObjectTrends. rewrite Hdata, bind_Done, Hrun. reflexivity.
Qed.

Lemma Forall2_right {A B : Type} (P : B -> Prop) (R : A -> B -> Prop) (l : list A) (k : list B) :
  (forall x y, R x y -> P y) -> Forall2 R l k -> Forall P k.
Proof. intros HRP. induction 1; constructor; eauto. Qed.

(** C4, as the code has it.  For every list of profiles the trend
    analysis returns, with a nil error, trends whose value sequences have
    one value per profile, and for each of them: growthBytes is the last
    value minus the first in 64-bit arithmetic (the exact difference
    whenever that fits); growthPercent is growthBytes / first * 100 when
    the first value is positive and 0 otherwise; growthRate is growthBytes
    divided by the number of time points and then by 1024 twice (the
    code reports MiB per point, not bytes per point); and the direction
    is "increasing" iff growthPercent > 10, "decreasing" iff
    growthPercent < -10 and "stable" iff neither. *)
Theorem trend_growth_figures `{Formatting} (profiles : list Profile) (labels : list string) :
  exists trends,
    TimeSeries.analyzeObjectTrends profiles labels = Done (trends, None)
    /\ Forall (trendAsComputed (length profiles)) trends.
Proof.
  destruct (analyzeObjectTrends_Done profiles labels)
    as (M & trends & _ & _ & _ & Hall & Hrun).
  exists (sort_Slice TimeSeries.byGrowth trends). split; [exact Hrun|].
  rewrite sort_Slice_perm.
  apply (Forall2_right _ _ _ _ (fun e t Het => proj2 (proj2 (proj2 Het))) Hall).
Qed.

(** C4, as stated, fails on the growth rate.  For a function that holds
    10, 20 and 50 MiB in three profiles the growth is 41943040 bytes;
    divided by the three time points that is 13981013.33, but the
    reported rate is 13.33. *)
Lemma growth_rate_is_in_mebibytes :
  exists t,
    TimeSeries.analyzeObjectTrends growingSeries ["a"; "b"; "c"] = Done ([t], None)
    /\ TimeSeries.Values t = [10485760; 20971520; 52428800]
    /\ TimeSeries.GrowthBytes t = 41943040
    /\ growthPerPoint t = S754_finite false 7505999378950827 (-29)
    /\ TimeSeries.GrowthRate t = S754_finite false 7505999378950827 (-49)
    /\ TimeSeries.GrowthRate t <> growthPerPoint t.
Proof.
  eexists. split; [vm_compute; reflexivity|].
  repeat (split; [vm_compute; reflexivity|]).
  vm_compute. discriminate.
Qed.

(** ** Time series: the totals of each time point *)

Lemma addSample_Done (valueIndex objectIndex : Z) (totals : Z * Z) (sample : Sample) :
  exists totals',
    TimeSeries.addSample valueIndex objectIndex totals sample = Done totals'
    /\ Int64.wrap (fst totals') = Int64.wrap (fst totals + bytesOf valueIndex sample)
    /\ (Int64.in_range (fst totals) -> Int64.in_range (fst totals')).
Proof.
  unfold TimeSeries.addSample, bytesOf.
  assert (exists objects,
             (if (objectIndex >=? 0) && (len (Value sample) >? objectIndex)
              then v ← index (Value sample) objectIndex; Done (Int64.add (snd totals) v)
              else Done (snd totals)) = Done objects) as [objects Hobjects].
  { destruct (Z.geb_spec objectIndex 0), (Z.gtb_spec (len (Value sample)) objectIndex);
      simpl; try (eexists; reflexivity).
    destruct (index_in_range (Value sample) objectIndex) as [v ->]; [lia|].
    eexists; reflexivity. }
  destruct ((valueIndex >=? 0) && (len (Value sample) >? valueIndex)) eqn:Hguard.
  - apply andb_true_iff in Hguard as [Hge Hgt].
    apply Z.geb_le in Hge. apply Z.gtb_lt in Hgt.
    destruct (index_in_range (Value sample) valueIndex) as [v Hv]; [lia|].
    rewrite Hv, !bind_Done, Hobjects, bind_Done.
    apply index_valueAt in Hv. rewrite Hv.
    eexists. split; [reflexivity|]. simpl. split; [wrap_lia | intros _; apply wrap_range].
  - rewrite bind_Done, Hobjects, bind_Done.
    eexists. split; [reflexivity|]. simpl. rewrite Z.add_0_r. split; [reflexivity | auto].
Qed.

Lemma addSamples_Done (valueIndex objectIndex : Z) (samples : list Sample) :
  forall totals,
    exists totals',
      forRange (TimeSeries.addSample valueIndex objectIndex) totals samples = Done totals'
      /\ Int64.wrap (fst totals')
         = Int64.wrap (fst totals + Zsum (map (bytesOf valueIndex) samples))
      /\ (Int64.in_range (fst totals) -> Int64.in_range (fst totals')).
Proof.
  induction samples as [|s samples IH]; intros totals.
  - exists totals. simpl. rewrite Z.add_0_r. split; [reflexivity|]. split; [reflexivity | auto].
  - destruct (addSample_Done valueIndex objectIndex totals s) as (t1 & Hstep & Hsum1 & Hr1).
    destruct (IH t1) as (t2 & Hrun & Hsum2 & Hr2).
    exists t2. rewrite forRange_cons, Hstep, bind_Done. split; [exact Hrun|].
    split; [|auto]. rewrite Hsum2. simpl. wrap_lia.
Qed.

Lemma pointData_Done `{Formatting} `{Clock} (i : Z) (prof : Profile) (labels : list string) :
  0 <= i < len labels ->
  exists data,
    TimeSeries.pointData i prof labels = Done data
    /\ TimeSeries.TotalBytes data
       = Int64.wrap (Zsum (map (bytesOf (lastInuseSpace prof)) (Sample_ prof))).
Proof.
  intros Hi. unfold TimeSeries.pointData, lastInuseSpace.
  destruct (TimeSeries.heapColumns 0 (SampleType prof) (-1) (-1)) as [valueIndex objectIndex].
  destruct (addSamples_Done valueIndex objectIndex (Sample_ prof) (0, 0))
    as (totals & Hrun & Hsum & Hrange).
  destruct (index_in_range labels i Hi) as [label Hlabel].
  rewrite Hrun, bind_Done, Hlabel, bind_Done.
  eexists. split; [reflexivity|]. simpl TimeSeries.TotalBytes. simpl fst in *.
  rewrite Z.add_0_l in Hsum.
  rewrite <- Hsum. symmetry. apply wrap_in_range, Hrange.
  vm_compute. split; discriminate.
Qed.

Lemma extractFrom_Done `{Formatting} `{Clock} (labels : list string) (profiles : list Profile) :
  forall i,
    0 <= i -> i + len profiles <= len labels ->
    exists series,
      TimeSeries.extractFrom i profiles labels = Done series
      /\ Forall2 (fun prof data =>
                    TimeSeries.TotalBytes data
                    = Int64.wrap (Zsum (map (bytesOf (lastInuseSpace prof)) (Sample_ prof))))
                 profiles series.
Proof.
  induction profiles as [|prof profiles IH]; intros i Hi Hlen.
  - exists []. split; [reflexivity | constructor].
  - unfold len in *. simpl length in Hlen.
    destruct (pointData_Done i prof labels) as (data & Hdata & Hbytes); [unfold len; lia|].
    destruct (IH (i + 1)) as (series & Hrun & Hall); [lia | lia |].
    exists (data :: series). simpl. rewrite Hdata, bind_Done, Hrun, bind_Done.
    split; [reflexivity|]. constructor; assumption.
Qed.

(** A profile with at most one column named "inuse_space": both scans
    find the same column. *)
Lemma heapColumns_no_more (types : list ValueType) :
  forall j valueIndex objectIndex,
    List.filter (fun st => String.eqb (Type_ st) "inuse_space") types = [] ->
    fst (TimeSeries.heapColumns j types valueIndex objectIndex) = valueIndex.
Proof.
  induction types as [|st types IH]; intros j v o Hnone; simpl in *; [reflexivity|].
  destruct (String.eqb (Type_ st) "inuse_space"); [discriminate|].
  apply IH, Hnone.
Qed.

Lemma scans_agree (types : list ValueType) :
  forall j objectIndex,
    (length (List.filter (fun st => String.eqb (Type_ st) "inuse_space") types) <= 1)%nat ->
    fst (TimeSeries.heapColumns j types (-1) objectIndex) = TimeSeries.firstInuseSpace j types.
Proof.
  induction types as [|st types IH]; intros j o Hcount; simpl in *; [reflexivity|].
  destruct (String.eqb (Type_ st) "inuse_space").
  - simpl in Hcount. apply heapColumns_no_more.
    destruct (List.filter _ types); [reflexivity | simpl in Hcount; lia].
  - apply IH, Hcount.
Qed.

Lemma single_column_scans_agree (prof : Profile) :
  (inuseSpaceColumns prof <= 1)%nat ->
  lastInuseSpace prof = TimeSeries.firstInuseSpace 0 (SampleType prof).
Proof. apply scans_agree. Qed.

Lemma trendsAt_pointSum `{Formatting} (points point : nat)
    (typeDataMap : gmap string (list Z)) (trends : list TimeSeries.ObjectTrend) :
  Forall2 (fun e t => TimeSeries.TypeName t = fst e
                      /\ TimeSeries.Values t = snd e
                      /\ TimeSeries.FormattedValues t = map FormatBytes (snd e)
                      /\ trendAsComputed points t)
          (map_to_list typeDataMap) trends ->
  trendsAt point (sort_Slice TimeSeries.byGrowth trends) = pointSum point typeDataMap.
Proof.
  intros Hall. unfold trendsAt, pointSum, sumOver.
  rewrite (Zsum_perm _ _ (Permutation_map _ (sort_Slice_perm _ trends))).
  induction Hall as [|e t entries trends (_ & Hvalues & _) _ IH]; simpl; [reflexivity|].
  rewrite IH, Hvalues. reflexivity.
Qed.

(** C6, as the code has it.  The aggregation is closed in 64-bit
    arithmetic.  In the block and mutex analysers, whenever the
    aggregation loop completes, the contentions (delays) of the ranked
    function groups add up to the total of contentions (delays) that the
    percentages divide by, and that total is the sum of the column over
    the samples that are not skipped.  In the time series, for profiles
    that declare at most one column named "inuse_space", the values of
    all trends at a time point add up to the total bytes of that point.
    The sums are exact whenever they fit in 64 bits. *)
Theorem aggregation_is_closed `{Formatting} `{Clock} :
  (forall (contentionIndex delayIndex : Z) (samples : list Sample) (a : aggregation),
      aggregateSamples contentionIndex delayIndex samples = Done a ->
      let groupContentions := Zsum (map Contentions (rankedStats a)) in
      let groupDelays := Zsum (map DelayNanos (rankedStats a)) in
      Int64.wrap groupContentions = totalContentions a
      /\ Int64.wrap groupDelays = totalDelay a
      /\ (Int64.in_range groupContentions -> groupContentions = totalContentions a)
      /\ (Int64.in_range groupDelays -> groupDelays = totalDelay a)
      /\ totalContentions a
         = Int64.wrap (columnTotal contentionIndex delayIndex contentionIndex samples)
      /\ totalDelay a
         = Int64.wrap (columnTotal contentionIndex delayIndex delayIndex samples))
  /\ (forall (profiles : list Profile) (labels : list string),
         Forall (fun prof => (inuseSpaceColumns prof <= 1)%nat) profiles ->
         len profiles <= len labels ->
         exists series trends,
           TimeSeries.extractTimeSeriesData profiles labels = Done series
           /\ TimeSeries.analyzeObjectTrends profiles labels = Done (trends, None)
           /\ length series = length profiles
           /\ forall point data,
                series !! point = Some data ->
                TimeSeries.TotalBytes data = Int64.wrap (trendsAt point trends)
                /\ (Int64.in_range (trendsAt point trends) ->
                    TimeSeries.TotalBytes data = trendsAt point trends)).
Proof.
  split.
  - intros ci di samples a Hagg. cbv zeta.
    destruct (aggregateSamples_closed _ _ _ _ Hagg) as [HC HD].
    destruct (rankedStats_sums a) as [-> ->].
    destruct (aggregateSamples_totals _ _ _ _ Hagg) as [HtC HtD].
    split; [exact HC|]. split; [exact HD|].
    split; [intros Hr; rewrite <- HC; symmetry; apply wrap_in_range, Hr|].
    split; [intros Hr; rewrite <- HD; symmetry; apply wrap_in_range, Hr|].
    split; assumption.
  - intros profiles labels Hsingle Hlabels.
    destruct (extractFrom_Done labels profiles 0 ltac:(lia) ltac:(lia)) as (series & Hseries & Hbytes).
    destruct (analyzeObjectTrends_Done profiles labels)
      as (M & trends & _ & _ & Hsums & Hall & Hrun).
    exists series, (sort_Slice TimeSeries.byGrowth trends).
    split; [exact Hseries|]. split; [exact Hrun|].
    split; [symmetry; eapply Forall2_length; exact Hbytes|].
    intros point data Hdata.
    destruct (Forall2_lookup_r _ _ _ _ _ Hbytes Hdata) as (prof & Hprof & Htotal).
    assert (TimeSeries.TotalBytes data
            = Int64.wrap (trendsAt point (sort_Slice TimeSeries.byGrowth trends))) as Heq.
    { rewrite Htotal, (trendsAt_pointSum _ _ _ _ Hall), (Hsums _ _ Hprof).
      rewrite typeValuesOf_sum. rewrite single_column_scans_agree; [reflexivity|].
      rewrite Forall_forall in Hsingle. apply Hsingle.
      apply list_elem_of_lookup. exists point. exact Hprof. }
    split; [exact Heq|]. intros Hr. rewrite Heq. apply wrap_in_range, Hr.
Qed.

(** The closure on the two-function block profile and on the growing
    heap series. *)
Lemma closure_on_examples :
  (exists a,
      aggregateSamples 0 1 (Sample_ twoFunctionProfile) = Done a
      /\ Zsum (map Contentions (rankedStats a)) = 280
      /\ totalContentions a = 280)
  /\ (exists series trends,
         TimeSeries.extractTimeSeriesData growingSeries ["a"; "b"; "c"] = Done series
         /\ TimeSeries.analyzeObjectTrends growingSeries ["a"; "b"; "c"] = Done (trends, None)
         /\ map TimeSeries.TotalBytes series = [10485760; 20971520; 52428800]
         /\ forall point data,
              series !! point = Some data ->
              TimeSeries.TotalBytes data = Int64.wrap (trendsAt point trends)).
Proof.
  destruct (@aggregation_is_closed plainFormatting fixedClock) as [Hblock Hseries].
  split.
  - assert (exists a, aggregateSamples 0 1 (Sample_ twoFunctionProfile) = Done a
                      /\ totalContentions a = 280) as (a & Hagg & Htotal).
    { eexists. split; [vm_compute; reflexivity | reflexivity]. }
    exists a. split; [exact Hagg|]. split; [|exact Htotal].
    destruct (Hblock 0 1 _ a Hagg) as (HC & _ & Hexact & _).
    rewrite <- Htotal. apply Hexact.
    rewrite (proj1 (rankedStats_sums a)).
    assert (sumOver Contentions (blockData a) = 280) as ->.
    { vm_compute in Hagg. injection Hagg as <-. vm_compute. reflexivity. }
    vm_compute. split; discriminate.
  - destruct (Hseries growingSeries ["a"; "b"; "c"]) as (series & trends & Hs & Ht & _ & Hsum).
    + repeat constructor.
    + vm_compute. discriminate.
    + exists series, trends. split; [exact Hs|]. split; [exact Ht|]. split.
      * vm_compute in Hs. injection Hs as <-. reflexivity.
      * intros point data Hdata. apply (Hsum point data Hdata).
Defined.

(** C6, as stated, fails when a profile declares "inuse_space" twice:
    the total of a time point reads the last such column and the
    per-type values read the first.  With the sample values (1, 2) the
    total is 2 at every point and the only trend has value 1. *)
Lemma twice_declared_column_breaks_closure :
  exists series t data,
    TimeSeries.extractTimeSeriesData twiceDeclaredSeries ["a"; "b"; "c"] = Done series
    /\ TimeSeries.analyzeObjectTrends twiceDeclaredSeries ["a"; "b"; "c"] = Done ([t], None)
    /\ map TimeSeries.TotalBytes series = [2; 2; 2]
    /\ TimeSeries.Values t = [1; 1; 1]
    /\ series !! 0%nat = Some data
    /\ TimeSeries.TotalBytes data <> Int64.wrap (trendsAt 0 [t]).
Proof.
  eexists _, _, _.
  split; [vm_compute; reflexivity|]. split; [vm_compute; reflexivity|].
  split; [reflexivity|]. split; [reflexivity|]. split; [reflexivity|].
  vm_compute. discriminate.
Qed.

(** ** Time series: the analysis returns *)

Lemma computeTimeSeriesSummary_Done `{Formatting} `{Clock}
    (series : list TimeSeries.TimeSeriesData) (trends : list TimeSeries.ObjectTrend) :
  exists summary, TimeSeries.computeTimeSeriesSummary series trends = Done summary.
Proof.
  unfold TimeSeries.computeTimeSeriesSummary.
  destruct (Z.ltb_spec (len series) 2) as [|Hlen]; [eexists; reflexivity|].
  destruct (index_in_range series (len series - 1)) as [lastData ->]; [lia|].
  destruct (index_in_range series 0) as [firstData ->]; [lia|].
  eexists; reflexivity.
Qed.

Lemma trendRow_Done `{Formatting} (markdown : bool) (trend : TimeSeries.ObjectTrend) :
  (0 < length (TimeSeries.FormattedValues trend))%nat ->
  exists line, TimeSeries.trendRow markdown trend = Done line.
Proof.
  intros Hlen. unfold TimeSeries.trendRow.
  destruct (index_in_range (TimeSeries.FormattedValues trend) 0) as [first ->];
    [unfold len; lia|].
  destruct (index_in_range (TimeSeries.FormattedValues trend)
              (len (TimeSeries.FormattedValues trend) - 1)) as [final ->];
    [unfold len; lia|].
  destruct markdown; eexists; reflexivity.
Qed.

Lemma trendLoop_Done `{Formatting} (markdown : bool) (trends : list TimeSeries.ObjectTrend) :
  Forall (fun t => (0 < length (TimeSeries.FormattedValues t))%nat) trends ->
  forall i maxTrends, exists lines, TimeSeries.trendLoop markdown i maxTrends trends = Done lines.
Proof.
  induction 1 as [|trend trends Hlen _ IH]; intros i maxTrends; simpl; [eexists; reflexivity|].
  destruct (i <? maxTrends); [|eexists; reflexivity].
  destruct (trendRow_Done markdown trend Hlen) as [line ->].
  destruct (IH (i + 1) maxTrends) as [lines ->].
  eexists; reflexivity.
Qed.

Lemma analyzeSeries_Done `{Formatting} `{Clock} (profiles : list Profile)
    (labels : list string) (format : string) :
  len profiles <= len labels ->
  exists out err,
    TimeSeries.analyzeSeries profiles labels format = Done (out, err)
    /\ (err = None \/ (format = "json" /\ err = Some marshalError)).
Proof.
  intros Hlabels. unfold TimeSeries.analyzeSeries, TimeSeries.extractTimeSeriesData.
  destruct (extractFrom_Done labels profiles 0 ltac:(lia) ltac:(lia)) as (series & -> & _).
  destruct (analyzeObjectTrends_Done profiles labels)
    as (M & trends & _ & _ & _ & Hall & ->).
  rewrite !bind_Done. simpl snd. simpl fst. cbv iota.
  destruct (computeTimeSeriesSummary_Done series (sort_Slice TimeSeries.byGrowth trends))
    as [summary ->].
  rewrite bind_Done.
  destruct (String.eqb_spec format "json") as [->|Hfmt].
  - unfold MarshalIndent. destruct (json_supported _); eexists _, _; split;
      try reflexivity; [left | right; split]; reflexivity.
  - destruct (trendLoop_Done (String.eqb format "markdown")
                (sort_Slice TimeSeries.byGrowth trends)) with (i := 0)
      (maxTrends := rowLimit 10 (sort_Slice TimeSeries.byGrowth trends)) as [lines Hlines].
    { rewrite sort_Slice_perm.
      refine (Forall2_right _ _ _ _ _ Hall).
      intros e t (_ & Hvalues & Hfmt' & _ & first & final & Hhead & _).
      rewrite Hfmt', length_map, <- Hvalues.
      destruct (TimeSeries.Values t); [discriminate | simpl; lia]. }
    unfold TimeSeries.formatTimeSeriesReport. rewrite Hlines, !bind_Done.
    eexists _, _. split; [reflexivity | left; reflexivity].
Qed.

(** C5, as the code has it.  [AnalyzeHeapTimeSeries] checks its
    preconditions first.  With fewer than 3 profiles it returns, whatever
    the profiles and labels hold, an error whose message states 3 and
    the number of profiles.  With at least 3 profiles and a different
    number of labels it returns an error whose message states the number
    of labels and the number of profiles.  With at least 3 profiles and
    as many labels it runs the analysis, which returns, and the only
    error it can return is the JSON encoder's. *)
Theorem time_series_preconditions `{Formatting} `{Clock} (profiles : list Profile)
    (labels : list string) (format : string) :
  (len profiles < 3 ->
   TimeSeries.AnalyzeHeapTimeSeries profiles labels format
   = Done (Text "", Some (TimeSeries.tooFewProfiles (len profiles)))
   /\ states (TimeSeries.tooFewProfiles (len profiles)) 3
   /\ states (TimeSeries.tooFewProfiles (len profiles)) (len profiles))
  /\ (3 <= len profiles -> len labels <> len profiles ->
      TimeSeries.AnalyzeHeapTimeSeries profiles labels format
      = Done (Text "", Some (TimeSeries.labelMismatch (len labels) (len profiles)))
      /\ states (TimeSeries.labelMismatch (len labels) (len profiles)) (len labels)
      /\ states (TimeSeries.labelMismatch (len labels) (len profiles)) (len profiles))
  /\ (3 <= len profiles -> len labels = len profiles ->
      TimeSeries.AnalyzeHeapTimeSeries profiles labels format
      = TimeSeries.analyzeSeries profiles labels format
      /\ exists out err,
           TimeSeries.AnalyzeHeapTimeSeries profiles labels format = Done (out, err)
           /\ (err = None \/ (format = "json" /\ err = Some marshalError))
           /\ err <> Some (TimeSeries.tooFewProfiles (len profiles))
           /\ err <> Some (TimeSeries.labelMismatch (len labels) (len profiles))).
Proof.
  unfold TimeSeries.AnalyzeHeapTimeSeries. split; [|split].
  - intros Hfew. destruct (Z.ltb_spec (len profiles) 3); [|lia].
    split; [reflexivity|]. apply tooFewProfiles_states.
  - intros Henough Hdiff. destruct (Z.ltb_spec (len profiles) 3); [lia|].
    destruct (Z.eqb_spec (len labels) (len profiles)); [contradiction|].
    split; [reflexivity|]. apply labelMismatch_states.
  - intros Henough Hsame. destruct (Z.ltb_spec (len profiles) 3); [lia|].
    destruct (Z.eqb_spec (len labels) (len profiles)); [|contradiction].
    split; [reflexivity|]. simpl negb. cbv iota.
    destruct (analyzeSeries_Done profiles labels format ltac:(lia)) as (out & err & Hrun & Herr).
    exists out, err. split; [exact Hrun|]. split; [exact Herr|].
    destruct Herr as [-> | [_ ->]]; split; discriminate.
Qed.

(** The three scenarios of the tests: two profiles; three profiles with
    two labels; three profiles with three labels. *)
Lemma time_series_scenarios :
  (TimeSeries.AnalyzeHeapTimeSeries [emptyHeapProfile; emptyHeapProfile] ["a"; "b"] "text"
   = Done (Text "", Some {| Error := "至少需要 3 个 profile 来进行时序分析，当前只有 2 个" |}))
  /\ (TimeSeries.AnalyzeHeapTimeSeries growingSeries ["a"; "b"] "text"
      = Done (Text "", Some {| Error := "标签数量 (2) 与 profile 数量 (3) 不匹配" |}))
  /\ (exists out, TimeSeries.AnalyzeHeapTimeSeries growingSeries ["a"; "b"; "c"] "text"
                  = Done (out, None)).
Proof.
  split; [|split].
  - apply (@time_series_preconditions plainFormatting fixedClock
             [emptyHeapProfile; emptyHeapProfile] ["a"; "b"] "text").
    vm_compute. reflexivity.
  - apply (@time_series_preconditions plainFormatting fixedClock
             growingSeries ["a"; "b"] "text"); vm_compute; discriminate.
  - destruct (@time_series_preconditions plainFormatting fixedClock
                growingSeries ["a"; "b"; "c"] "text") as (_ & _ & Hrun).
    destruct Hrun as (_ & out & err & Hrun & [-> | [Hfmt _]] & _);
      [vm_compute; discriminate | reflexivity | | discriminate].
    exists out. exact Hrun.
Defined.

(** C5, as stated, fails for a label mismatch below three profiles: with
    two profiles and seven labels the error is the one about the number
    of profiles, and its message does not state the number of labels. *)
Lemma label_count_unstated_below_three :
  exists e,
    TimeSeries.AnalyzeHeapTimeSeries [emptyHeapProfile; emptyHeapProfile] sevenLabels "text"
    = Done (Text "", Some e)
    /\ len sevenLabels <> len [emptyHeapProfile; emptyHeapProfile]
    /\ Error e = "至少需要 3 个 profile 来进行时序分析，当前只有 2 个"
    /\ ~ states e (len sevenLabels).
Proof.
  eexists. split; [vm_compute; reflexivity|].
  split; [vm_compute; discriminate|]. split; [reflexivity|].
  unfold states. vm_compute. discriminate.
Qed.

(** ** Time series: every value is a 64-bit integer *)

Lemma addTypeValue_ranged (valueIndex : Z) (typeValues typeValues' : gmap string Z)
    (sample : Sample) :
  ranged typeValues ->
  TimeSeries.addTypeValue valueIndex typeValues sample = Done typeValues' ->
  ranged typeValues'.
Proof.
  intros Hm. unfold TimeSeries.addTypeValue.
  destruct (len (Value sample) <=? valueIndex); [intros [= <-]; exact Hm|].
  destruct (index (Value sample) valueIndex) as [value|]; [|discriminate].
  simpl. intros [= <-] name v Hv.
  destruct (decide (TimeSeries.getObjectTypeFromSample sample = name)) as [<-|Hne].
  - rewrite lookup_insert_eq in Hv. injection Hv as <-. apply wrap_range.
  - rewrite lookup_insert_ne in Hv by exact Hne. eapply Hm, Hv.
Qed.

Lemma recordValue_ranged (points i : Z) (typeDataMap typeDataMap' : gmap string (list Z))
    (entry : string * Z) :
  Int64.in_range (snd entry) -> rangedTable typeDataMap ->
  TimeSeries.recordValue points i typeDataMap entry = Done typeDataMap' ->
  rangedTable typeDataMap'.
Proof.
  intros Hv HM. unfold TimeSeries.recordValue.
  set (values := match typeDataMap !! fst entry with
                 | Some values => values
                 | None => replicate (Z.to_nat points) 0
                 end).
  assert (Forall Int64.in_range values) as Hvalues.
  { subst values. destruct (typeDataMap !! fst entry) as [vs|] eqn:Hk.
    - eapply HM, Hk.
    - apply Forall_replicate. vm_compute. split; discriminate. }
  destruct ((0 <=? i) && (i <? len values)); [|discriminate].
  intros [= <-] name vs Hvs.
  destruct (decide (fst entry = name)) as [<-|Hne].
  - rewrite lookup_insert_eq in Hvs. injection Hvs as <-.
    apply Forall_insert; assumption.
  - rewrite lookup_insert_ne in Hvs by exact Hne. eapply HM, Hvs.
Qed.

Lemma recordProfile_ranged (points : Z) (state state' : Z * gmap string (list Z))
    (prof : Profile) :
  rangedTable (snd state) ->
  TimeSeries.recordProfile points state prof = Done state' ->
  rangedTable (snd state').
Proof.
  destruct state as [i M]. simpl. intros HM. unfold TimeSeries.recordProfile.
  destruct (TimeSeries.firstInuseSpace 0 (SampleType prof) =? -1); [intros [= <-]; exact HM|].
  destruct (forRange (TimeSeries.addTypeValue _) ∅ (Sample_ prof)) as [typeValues|] eqn:Htv;
    [|discriminate].
  rewrite bind_Done.
  destruct (forRange (TimeSeries.recordValue points i) M (map_to_list typeValues))
    as [M'|] eqn:Hrec; [|discriminate].
  rewrite bind_Done. intros [= <-]. simpl.
  assert (ranged typeValues) as Hranged.
  { eapply (forRange_invariant ranged); [| |exact Htv].
    - intros m s m' Hm Hstep. eapply addTypeValue_ranged; eassumption.
    - intros name v Hv. rewrite lookup_empty in Hv. discriminate. }
  eapply (forRange_invariant_in rangedTable); [|exact HM|exact Hrec].
  intros M0 [name value] M1 Hin HM0 Hstep.
  eapply recordValue_ranged; [|exact HM0|exact Hstep].
  simpl. eapply Hranged. apply elem_of_map_to_list, list_elem_of_In, Hin.
Qed.

Lemma typeData_ranged (profiles : list Profile) (typeDataMap : gmap string (list Z)) :
  TimeSeries.typeData profiles = Done typeDataMap -> rangedTable typeDataMap.
Proof.
  unfold TimeSeries.typeData.
  destruct (forRange (TimeSeries.recordProfile (len profiles)) (0, ∅) profiles)
    as [state|] eqn:Hrun; [|discriminate].
  rewrite bind_Done. intros [= <-].
  eapply (forRange_invariant (fun state => rangedTable (snd state))); [| |exact Hrun].
  - intros s prof s' Hs Hstep. eapply recordProfile_ranged; eassumption.
  - intros name vs Hvs. simpl in Hvs. rewrite lookup_empty in Hvs. discriminate.
Qed.



(** ** Ranking *)




(** * Further properties of the code *)

(** ** Floating-point numbers: no overflow in a quotient of integers *)

Lemma digits_upper p : Zpos p < 2 ^ digits p.
Proof.
  induction p as [p IH|p IH|].
  - rewrite digits_xI. rewrite Z.pow_add_r by (pose proof (digits_pos p); lia). lia.
  - rewrite digits_xO. rewrite Z.pow_add_r by (pose proof (digits_pos p); lia). lia.
  - reflexivity.
Qed.

Lemma Zdigits2_nonneg m : 0 <= Zdigits2 m.
Proof. destruct m; simpl; lia. Qed.

Lemma Zdigits2_upper m : 0 <= m -> m < 2 ^ Zdigits2 m.
Proof.
  destruct m as [|p|p]; intros Hm; [reflexivity| |lia].
  apply digits_upper.
Qed.

Lemma Zdigits2_le m k : 0 <= k -> 0 <= m < 2 ^ k -> Zdigits2 m <= k.
Proof.
  intros Hk [Hm Hlt]. destruct m as [|p|p]; [simpl; lia| |lia].
  change (Zdigits2 (Zpos p)) with (digits p).
  pose proof (digits_lower p) as Hlow. pose proof (digits_pos p) as Hpos.
  destruct (Z_le_gt_dec (digits p) k) as [|Hgt]; [assumption|exfalso].
  assert (2 ^ k <= 2 ^ (digits p - 1)) by (apply Z.pow_le_mono_r; lia).
  lia.
Qed.

Lemma Zdigits2_ge m j : 0 <= j -> 2 ^ j <= m -> j + 1 <= Zdigits2 m.
Proof.
  intros Hj Hle.
  assert (0 <= m) as Hm by (pose proof (Z.pow_pos_nonneg 2 j); lia).
  pose proof (Zdigits2_upper m Hm) as Hup. pose proof (Zdigits2_nonneg m) as Hnn.
  destruct (Z_lt_le_dec j (Zdigits2 m)) as [|Hge]; [lia|exfalso].
  assert (2 ^ Zdigits2 m <= 2 ^ j) by (apply Z.pow_le_mono_r; lia).
  lia.
Qed.

Lemma Zdigits2_mono m n : 0 <= m <= n -> Zdigits2 m <= Zdigits2 n.
Proof.
  intros [Hm Hmn]. apply Zdigits2_le; [apply Zdigits2_nonneg|].
  split; [assumption|]. pose proof (Zdigits2_upper n ltac:(lia)). lia.
Qed.

Lemma shr_1_half mrs : 0 <= shr_m mrs -> shr_m (shr_1 mrs) = shr_m mrs / 2.
Proof.
  destruct mrs as [m r s]. cbn [shr_m]. intros Hm.
  destruct m as [|[p|p|]|p]; unfold shr_1; cbn [shr_m]; try lia.
  - reflexivity.
  - apply Z.div_unique with (r := 1); lia.
  - apply Z.div_unique with (r := 0); lia.
  - reflexivity.
Qed.

Lemma shr_iter_value (k : nat) mrs :
  0 <= shr_m mrs -> shr_m (Nat.iter k shr_1 mrs) = shr_m mrs / 2 ^ Z.of_nat k.
Proof.
  intros Hm. induction k as [|k IH].
  - simpl. rewrite Z.div_1_r. reflexivity.
  - rewrite Nat.iter_succ. rewrite shr_1_half by (apply shr_iter_nonneg; assumption).
    rewrite IH. rewrite Nat2Z.inj_succ, Z.pow_succ_r by lia.
    rewrite Z.div_div by (try apply Z.pow_pos_nonneg; lia).
    f_equal. lia.
Qed.

Lemma Zdigits2_div m k :
  0 <= m -> 0 <= k -> Zdigits2 (m / 2 ^ k) = Z.max 0 (Zdigits2 m - k).
Proof.
  intros Hm Hk.
  pose proof (Zdigits2_upper m Hm) as Hup. pose proof (Zdigits2_nonneg m) as Hnn.
  assert (0 < 2 ^ k) as Hpk by (apply Z.pow_pos_nonneg; lia).
  destruct (Z_le_gt_dec (Zdigits2 m) k) as [Hle|Hgt].
  - assert (2 ^ Zdigits2 m <= 2 ^ k) by (apply Z.pow_le_mono_r; lia).
    rewrite Z.div_small by lia. simpl. lia.
  - rewrite Z.max_r by lia.
    apply Z.le_antisymm.
    + apply Zdigits2_le; [lia|]. split; [apply Z.div_pos; lia|].
      apply Z.div_lt_upper_bound; [lia|].
      rewrite <- Z.pow_add_r by lia. replace (k + (Zdigits2 m - k)) with (Zdigits2 m) by lia.
      assumption.
    + destruct m as [|p|p]; [simpl in Hgt; lia| |lia].
      change (Zdigits2 (Zpos p)) with (digits p) in *.
      pose proof (digits_lower p) as Hlow.
      replace (digits p - k) with ((digits p - 1 - k) + 1) by lia.
      apply Zdigits2_ge; [lia|].
      apply Z.div_le_lower_bound; [lia|].
      rewrite <- Z.pow_add_r by lia. replace (k + (digits p - 1 - k)) with (digits p - 1) by lia.
      assumption.
Qed.

Lemma Zdigits2_succ m : 0 <= m -> Zdigits2 (m + 1) <= Zdigits2 m + 1.
Proof.
  intros Hm. pose proof (Zdigits2_upper m Hm) as Hup. pose proof (Zdigits2_nonneg m) as Hnn.
  apply Zdigits2_le; [lia|]. split; [lia|].
  rewrite Z.pow_add_r by lia. lia.
Qed.

Lemma round_nearest_even_bounds m l :
  m <= round_nearest_even m l <= m + 1.
Proof.
  destruct l as [|[| |]]; simpl; try lia. destruct (Z.even m); lia.
Qed.

Lemma fexp_eq e : fexp Float64.prec Float64.emax e = Z.max (e - 53) (-1074).
Proof. reflexivity. Qed.

Lemma shr_fexp_within m e l L B :
  0 <= m -> L <= Zdigits2 m + e <= B -> -1074 <= B ->
  let r := shr_fexp Float64.prec Float64.emax m e l in
  0 <= shr_m (fst r) /\ L <= Zdigits2 (shr_m (fst r)) + snd r <= B.
Proof.
  intros Hm Hb HB r. subst r. unfold shr_fexp. rewrite fexp_eq.
  destruct (record_of_loc_shape m l) as (r & s & ->).
  unfold shr.
  destruct (Z.max (Zdigits2 m + e - 53) (-1074) - e) as [|p|p] eqn:Hn; cbn [fst snd shr_m];
    [lia| |lia].
  rewrite iter_pos_nat.
  rewrite shr_iter_value by (cbn [shr_m]; lia). cbn [shr_m].
  rewrite positive_nat_Z.
  rewrite Zdigits2_div by lia.
  split; [apply Z.div_pos; [lia|apply Z.pow_pos_nonneg; lia]|].
  lia.
Qed.

Lemma binary_round_aux_within sx m e l L B :
  0 <= m -> L <= Zdigits2 m + e <= B -> -1074 <= B <= 971 ->
  match binary_round_aux Float64.prec Float64.emax sx m e l with
  | S754_zero _ => True
  | S754_finite _ q e' => L <= digits q + e' <= B + 1
  | _ => False
  end.
Proof.
  intros Hm Hb HB. unfold binary_round_aux.
  pose proof (shr_fexp_within m e l L B Hm Hb ltac:(lia)) as H1. cbv zeta in H1.
  destruct (shr_fexp Float64.prec Float64.emax m e l) as [mrs' e'] eqn:E1.
  cbn [fst snd] in H1. destruct H1 as [Hm' Hb'].
  set (m1 := round_nearest_even (shr_m mrs') (loc_of_shr_record mrs')).
  pose proof (round_nearest_even_bounds (shr_m mrs') (loc_of_shr_record mrs')) as Hr.
  fold m1 in Hr.
  assert (Zdigits2 (shr_m mrs') <= Zdigits2 m1 <= Zdigits2 (shr_m mrs') + 1) as Hd1.
  { split; [apply Zdigits2_mono; lia|].
    etransitivity; [apply (Zdigits2_mono m1 (shr_m mrs' + 1)); lia|].
    apply Zdigits2_succ; assumption. }
  pose proof (shr_fexp_within m1 e' loc_Exact L (B + 1) ltac:(lia) ltac:(lia) ltac:(lia)) as H2.
  cbv zeta in H2.
  destruct (shr_fexp Float64.prec Float64.emax m1 e' loc_Exact) as [mrs'' e''] eqn:E2.
  cbn [fst snd] in H2. destruct H2 as [Hm'' Hb''].
  destruct (shr_m mrs'') as [|q|q] eqn:Eq; [exact I| |lia].
  change (Zdigits2 (Zpos q)) with (digits q) in Hb''.
  pose proof (digits_pos q) as Hq.
  change (Float64.emax - Float64.prec) with 971.
  destruct (Z.leb_spec e'' 971) as [_|Hgt]; [assumption|lia].
Qed.

Lemma binary_round_within sx p :
  Zpos p <= 2 ^ 63 ->
  within 1 65 (binary_round Float64.prec Float64.emax sx p 0).
Proof.
  intros Hp. pose proof (digits_bound p Hp) as Hd64. pose proof (digits_pos p) as Hd1.
  destruct (binary_round_finite sx p Hp) as (q & e & Hfin).
  assert (match binary_round Float64.prec Float64.emax sx p 0 with
          | S754_zero _ => True
          | S754_finite _ q e' => digits p <= digits q + e' <= digits p + 1
          | _ => False
          end) as Hw.
  { unfold binary_round.
    change (Zpos (digits2_pos p)) with (digits p).
    rewrite fexp_small by lia. unfold shl_align.
    destruct (digits p + 0 - 53 - 0) as [|d|d] eqn:Hshift.
    - apply binary_round_aux_within; change (Zdigits2 (Zpos p)) with (digits p); lia.
    - apply binary_round_aux_within; change (Zdigits2 (Zpos p)) with (digits p); lia.
    - apply binary_round_aux_within;
        change (Zdigits2 (Zpos ?x)) with (digits x); rewrite ?digits_iter_xO; lia. }
  rewrite Hfin in *. unfold within. lia.
Qed.

Lemma of_int_within z :
  Int64.in_range z -> z <> 0 -> within 1 65 (Float64.of_int z).
Proof.
  unfold Int64.in_range, Int64.min_value, Int64.max_value.
  intros Hz Hnz. unfold Float64.of_int, binary_normalize.
  destruct z as [|p|p]; [contradiction| |]; apply binary_round_within; lia.
Qed.

Lemma within_bounded L B x : within L B x -> bounded_by B x.
Proof. destruct x; simpl; tauto || lia. Qed.

Lemma bounded_by_mono B B' x : B <= B' -> bounded_by B x -> bounded_by B' x.
Proof. destruct x; simpl; tauto || lia. Qed.

Lemma of_int_bounded z : Int64.in_range z -> bounded_by 65 (Float64.of_int z).
Proof.
  intros Hz. destruct (Z.eq_dec z 0) as [->|Hnz]; [exact I|].
  eapply within_bounded, of_int_within; assumption.
Qed.

Lemma bounded_is_number B x :
  bounded_by B x -> Float64.is_nan x = false /\ Float64.is_inf x = false.
Proof. destruct x; simpl; intros Hx; try contradiction; split; reflexivity. Qed.

Lemma Zdigits2_mul_pow m s :
  0 < m -> 0 <= s -> Zdigits2 (m * 2 ^ s) = Zdigits2 m + s.
Proof.
  intros Hm Hs. pose proof (Zdigits2_upper m ltac:(lia)) as Hup.
  pose proof (Zdigits2_nonneg m) as Hnn.
  assert (0 < 2 ^ s) as Hps by (apply Z.pow_pos_nonneg; lia).
  apply Z.le_antisymm.
  - apply Zdigits2_le; [lia|]. split; [nia|].
    rewrite Z.pow_add_r by lia. nia.
  - destruct m as [|p|p]; [lia| |lia].
    change (Zdigits2 (Zpos p)) with (digits p) in *.
    pose proof (digits_lower p) as Hlow. pose proof (digits_pos p) as Hd1.
    replace (digits p + s) with ((digits p - 1 + s) + 1) by lia.
    apply Zdigits2_ge; [lia|].
    rewrite Z.pow_add_r by lia. nia.
Qed.

Lemma SFdiv_core_bound mx ex my ey :
  let r := SFdiv_core_binary Float64.prec Float64.emax (Zpos mx) ex (Zpos my) ey in
  0 <= fst (fst r)
  /\ Zdigits2 (fst (fst r)) + snd (fst r)
     <= Z.max (digits mx + ex - (digits my + ey) + 1) (-1074).
Proof.
  intros r. split; [apply SFdiv_core_nonneg; lia|]. subst r.
  unfold SFdiv_core_binary. rewrite fexp_eq.
  change (Zdigits2 (Zpos mx)) with (digits mx). change (Zdigits2 (Zpos my)) with (digits my).
  set (D := digits mx + ex - (digits my + ey)).
  set (e' := Z.min (Z.max (D - 53) (-1074)) (ex - ey)).
  set (s := ex - ey - e').
  assert (0 <= s) as Hs by (subst s e'; lia).
  set (m' := match s with Z.pos _ => Z.shiftl (Zpos mx) s | 0 => Zpos mx | Z.neg _ => 0 end).
  assert (m' = Zpos mx * 2 ^ s) as Hm'.
  { subst m'. destruct s as [|p|p] eqn:Es; [lia| |lia]. rewrite Z.shiftl_mul_pow2 by lia.
    reflexivity. }
  pose proof (digits_lower my) as Hlow. pose proof (digits_pos my) as Hd1.
  pose proof (digits_pos mx) as Hdx.
  assert (0 < 2 ^ (digits my - 1)) as Hpk by (apply Z.pow_pos_nonneg; lia).
  assert (0 < 2 ^ s) as Hps by (apply Z.pow_pos_nonneg; lia).
  assert (m' / Zpos my <= m' / 2 ^ (digits my - 1)) as Hq.
  { apply Z.div_le_compat_l; [rewrite Hm'; nia|lia]. }
  assert (0 <= m' / Zpos my) as Hq0 by (apply Z.div_pos; [rewrite Hm'; nia|lia]).
  assert (Zdigits2 (m' / Zpos my) <= Z.max 0 (digits mx + s - (digits my - 1))) as Hdq.
  { etransitivity; [apply Zdigits2_mono; split; [exact Hq0|exact Hq]|].
    rewrite Zdigits2_div by (rewrite ?Hm'; nia || lia).
    rewrite Hm', Zdigits2_mul_pow by lia.
    change (Zdigits2 (Zpos mx)) with (digits mx). lia. }
  unfold Z.div in Hdq. destruct (Z.div_eucl m' (Zpos my)) as [q r]. cbn [fst snd].
  subst s e' D. lia.
Qed.

Lemma div_bounded Bx Ly By x y :
  bounded_by Bx x -> within Ly By y -> -1074 <= Bx - Ly + 1 <= 971 ->
  bounded_by (Bx - Ly + 2) (Float64.div x y).
Proof.
  intros Hx Hy HB.
  destruct y as [sy|sy| |sy my ey]; try contradiction.
  destruct x as [sx|sx| |sx mx ex]; try contradiction; [exact I|].
  simpl in Hx, Hy. unfold Float64.div, SFdiv.
  pose proof (SFdiv_core_bound mx ex my ey) as Hc. cbv zeta in Hc.
  destruct (SFdiv_core_binary Float64.prec Float64.emax (Zpos mx) ex (Zpos my) ey)
    as [[mz ez] lz].
  cbn [fst snd] in Hc. destruct Hc as [Hmz Hdz].
  pose proof (binary_round_aux_within (xorb sx sy) mz ez lz (Zdigits2 mz + ez) (Bx - Ly + 1)
                Hmz ltac:(lia) ltac:(lia)) as Hw.
  destruct (binary_round_aux Float64.prec Float64.emax (xorb sx sy) mz ez lz);
    try contradiction; [exact I|]. simpl. lia.
Qed.

Lemma mul_bounded Bx By x y :
  bounded_by Bx x -> bounded_by By y -> -1074 <= Bx + By <= 971 ->
  bounded_by (Bx + By + 1) (Float64.mul x y).
Proof.
  intros Hx Hy HB.
  destruct x as [sx|sx| |sx mx ex]; try contradiction;
    destruct y as [sy|sy| |sy my ey]; try contradiction; try exact I.
  simpl in Hx, Hy. unfold Float64.mul, SFmul.
  assert (Zdigits2 (Zpos (mx * my)) <= digits mx + digits my) as Hd.
  { pose proof (digits_upper mx). pose proof (digits_upper my).
    pose proof (digits_pos mx). pose proof (digits_pos my).
    apply Zdigits2_le; [lia|]. split; [lia|].
    rewrite Z.pow_add_r by lia. rewrite Pos2Z.inj_mul. nia. }
  pose proof (binary_round_aux_within (xorb sx sy) (Zpos (mx * my)) (ex + ey) loc_Exact
                (Zdigits2 (Zpos (mx * my)) + (ex + ey)) (Bx + By)
                ltac:(lia) ltac:(lia) ltac:(lia)) as Hw.
  destruct (binary_round_aux Float64.prec Float64.emax (xorb sx sy) (Zpos (mx * my)) (ex + ey)
              loc_Exact); try contradiction; [exact I|]. simpl. lia.
Qed.

(** [float64(d) / float64(b) * 100] is finite for 64-bit integers [d] and [b <> 0]. *)
Lemma percent_bounded d b :
  Int64.in_range d -> Int64.in_range b -> b <> 0 ->
  bounded_by 74 (Float64.mul (Float64.div (Float64.of_int d) (Float64.of_int b))
                             (Float64.of_int 100)).
Proof.
  intros Hd Hb Hnz.
  apply (mul_bounded 66 7); [|vm_compute; discriminate|lia].
  apply (div_bounded 65 1 65); [apply of_int_bounded; assumption|
                                apply of_int_within; assumption|lia].
Qed.

(** ** The differential comparator: every figure can be encoded *)

Lemma diffPercent_bounded (baselineVal targetVal diff : Z) :
  Int64.in_range baselineVal -> Int64.in_range diff ->
  bounded_by 74 (Diff.diffPercent baselineVal targetVal diff).
Proof.
  intros Hb Hd. unfold Diff.diffPercent.
  destruct (baselineVal >? 0) eqn:Hpos.
  - apply percent_bounded; [assumption|assumption|lia].
  - destruct (targetVal >? 0); [vm_compute; discriminate|exact I].
Qed.

Lemma totalOf_in_range (m : gmap string Z) : Int64.in_range (Diff.totalOf m).
Proof.
  unfold Diff.totalOf.
  assert (forall l total, Int64.in_range total ->
            Int64.in_range (foldl (fun total (kv : string * Z) => Int64.add total (snd kv)) total l))
    as Hgen.
  { induction l as [|kv l IH]; intros total Ht; [exact Ht|].
    simpl. apply IH. apply wrap_range. }
  apply Hgen. unfold Int64.in_range, Int64.min_value, Int64.max_value. lia.
Qed.

Lemma functionDiffJSON_supported (d : Diff.FunctionDiff) (B : Z) :
  bounded_by B (Diff.DiffPercentage d) -> json_supported (Diff.functionDiffJSON d) = true.
Proof.
  intros Hb. destruct (bounded_is_number _ _ Hb) as [Hn Hi].
  simpl. rewrite Hn, Hi. reflexivity.
Qed.

Lemma forallb_map_true {A B : Type} (f : A -> B) (test : B -> bool) (l : list A) :
  Forall (fun x => test (f x) = true) l -> forallb test (map f l) = true.
Proof. induction 1 as [|x l Hx _ IH]; [reflexivity|]. simpl. rewrite Hx, IH. reflexivity. Qed.

Lemma rankedDiffs_bounded `{Formatting} (baselineFuncs targetFuncs : gmap string Z) :
  ranged baselineFuncs ->
  Forall (fun d => bounded_by 74 (Diff.DiffPercentage d))
         (Diff.rankedDiffs baselineFuncs targetFuncs).
Proof.
  intros Hb. unfold Diff.rankedDiffs.
  eapply Permutation_Forall; [symmetry; apply sort_Slice_perm|].
  unfold Diff.computeFunctionDiffs. apply Forall_map, Forall_forall. intros name _.
  unfold Diff.functionDiff; cbn [Diff.DiffPercentage].
  apply diffPercent_bounded; [apply valueOf_ranged, Hb|apply wrap_range].
Qed.

Lemma diffResultJSON_supported `{Formatting} (baselineFuncs targetFuncs : gmap string Z)
    (profileTypeName : string) (topN : Z) :
  ranged baselineFuncs ->
  let diffs := Diff.rankedDiffs baselineFuncs targetFuncs in
  json_supported (Diff.diffResultJSON profileTypeName topN diffs
                    (Diff.computeDiffSummary baselineFuncs targetFuncs diffs)) = true.
Proof.
  intros Hb diffs.
  assert (forallb json_supported (map Diff.functionDiffJSON diffs) = true) as Hfuncs.
  { apply forallb_map_true. eapply Forall_impl; [apply rankedDiffs_bounded, Hb|].
    intros d Hd. simpl in Hd. eapply functionDiffJSON_supported, Hd. }
  assert (bounded_by 74 (Diff.TotalDiffPercent
                           (Diff.computeDiffSummary baselineFuncs targetFuncs diffs))) as Htot.
  { unfold Diff.computeDiffSummary; cbn [Diff.TotalDiffPercent].
    destruct (Diff.totalOf baselineFuncs >? 0) eqn:Hpos; [|exact I].
    apply percent_bounded; [apply wrap_range|apply totalOf_in_range|lia]. }
  destruct (bounded_is_number _ _ Htot) as [Hn Hi].
  unfold Diff.diffResultJSON, Diff.summaryJSON.
  cbn [json_supported forallb snd]. rewrite Hfuncs, Hn, Hi. reflexivity.
Qed.

(** X11.  A comparison never fails.  For every pair of profiles, profile
    type, topN and format, [CompareProfiles] returns a result with a nil
    error, a JSON document for "json" and a report otherwise: a column
    is always found, no index is out of range, and every percentage of
    the result is a finite number, so that the JSON encoder accepts
    it. *)
Theorem comparison_never_fails `{Formatting} (baseline target : Profile)
    (profileTypeName : string) (topN : Z) (format : string) :
  exists out,
    Diff.CompareProfiles baseline target profileTypeName topN format = Done (out, None)
    /\ (format = "json" -> exists j, out = JSON j)
    /\ (format <> "json" -> exists t, out = Table t).
Proof.
  destruct (CompareProfiles_returns baseline target profileTypeName topN format)
    as (valueIndex & baselineFuncs & targetFuncs & Hidx & Hb & Ht & Hrun).
  cbv zeta in Hrun. rewrite Hrun.
  destruct (String.eqb_spec format "json") as [->|Hne].
  - unfold MarshalIndent.
    rewrite diffResultJSON_supported by (eapply aggregateFunctionValues_ranged, Hb).
    eexists. split; [reflexivity|]. split; [eauto|congruence].
  - eexists. split; [reflexivity|]. split; [congruence|eauto].
Qed.

(** ** The contention analysers: groups, failures and JSON *)

Lemma forRange_app {S A : Type} (body : S -> A -> run S) (l1 l2 : list A) (s : S) :
  forRange body s (l1 ++ l2) = (s' ← forRange body s l1; forRange body s' l2).
Proof.
  revert s. induction l1 as [|x l1 IH]; intros s; [reflexivity|].
  cbn [app]. rewrite !forRange_cons. destruct (body s x) as [s'|why]; [|reflexivity].
  rewrite !bind_Done. apply IH.
Qed.

Lemma groupTotal_snoc (ci di column : Z) (name : string) (samples : list Sample) (s : Sample) :
  groupTotal ci di column name (samples ++ [s])
  = groupTotal ci di column name samples
    + (if inGroup ci di name s then valueAt column s else 0).
Proof.
  unfold groupTotal. rewrite List.filter_app, map_app, Zsum_app. cbn [List.filter].
  destruct (inGroup ci di name s); simpl; lia.
Qed.

Lemma contentionFunctionName_nonempty (loc : Location) : contentionFunctionName loc <> "".
Proof.
  unfold contentionFunctionName.
  destruct (String.eqb_spec (match firstFunction (Line_ loc) with
                             | Some f => Name f | None => "" end) "") as [_|Hne];
    [discriminate|exact Hne].
Qed.

Lemma eligible_indexes (ci di : Z) (s : Sample) :
  0 <= ci -> 0 <= di -> eligible ci di s = true ->
  exists loc,
    index (Value s) ci = Done (valueAt ci s)
    /\ index (Value s) di = Done (valueAt di s)
    /\ index (Location_ s) 0 = Done loc
    /\ sampleGroup s = Some (contentionFunctionName loc).
Proof.
  intros Hci Hdi He. unfold eligible in He.
  apply negb_true_iff, orb_false_iff in He. destruct He as [Hloc Hval].
  assert (max ci di < len (Value s)) as Hlt by lia.
  assert (ci <= max ci di /\ di <= max ci di) as [Hc Hd] by (unfold max; destruct (ci >? di) eqn:E; lia).
  destruct (index_in_range (Value s) ci ltac:(lia)) as (c & Hic).
  destruct (index_in_range (Value s) di ltac:(lia)) as (d & Hid).
  pose proof (index_valueAt s ci c Hic) as ->. pose proof (index_valueAt s di d Hid) as ->.
  unfold sampleGroup. destruct (Location_ s) as [|loc locs] eqn:El; [simpl in Hloc; lia|].
  exists loc. repeat split; try assumption.
Qed.

(** One step of the aggregation loop, on a state that holds the groups
    of the samples processed so far. *)
Lemma aggregateSample_cases (ci di : Z) (a : aggregation) (s : Sample) :
  0 <= ci -> 0 <= di ->
  match sampleGroup s with
  | Some name =>
      if eligible ci di s then
        match blockData a !! name with
        | Some old =>
            aggregateSample ci di a s
            = Done {| blockData :=
                        <[name := {| FunctionName := FunctionName old;
                                     Contentions := Int64.add (Contentions old) (valueAt ci s);
                                     DelayNanos := Int64.add (DelayNanos old) (valueAt di s);
                                     DelayFormatted := DelayFormatted old;
                                     ContentionsPct := ContentionsPct old;
                                     DelayPct := DelayPct old;
                                     AvgDelayNanos := AvgDelayNanos old;
                                     AvgDelayFormatted := AvgDelayFormatted old |}]> (blockData a);
                      totalContentions := Int64.add (totalContentions a) (valueAt ci s);
                      totalDelay := Int64.add (totalDelay a) (valueAt di s) |}
        | None =>
            if valueAt ci s =? 0 then aggregateSample ci di a s = Panic divide_by_zero
            else
              aggregateSample ci di a s
              = Done {| blockData :=
                          <[name := {| FunctionName := name;
                                       Contentions := valueAt ci s;
                                       DelayNanos := valueAt di s;
                                       DelayFormatted := "";
                                       ContentionsPct := Float64.zero;
                                       DelayPct := Float64.zero;
                                       AvgDelayNanos :=
                                         Int64.wrap (Z.quot (valueAt di s) (valueAt ci s));
                                       AvgDelayFormatted := "" |}]> (blockData a);
                        totalContentions := Int64.add (totalContentions a) (valueAt ci s);
                        totalDelay := Int64.add (totalDelay a) (valueAt di s) |}
        end
      else aggregateSample ci di a s = Done a
  | None => aggregateSample ci di a s = Done a
  end.
Proof.
  intros Hci Hdi.
  destruct (eligible ci di s) eqn:He.
  - destruct (eligible_indexes ci di s Hci Hdi He) as (loc & Hic & Hid & Hil & Hg).
    rewrite Hg. unfold aggregateSample.
    unfold eligible in He. apply negb_true_iff in He. rewrite He.
    rewrite Hic, Hid, Hil. rewrite !bind_Done. cbv zeta.
    destruct (blockData a !! contentionFunctionName loc) as [old|] eqn:Hl.
    + reflexivity.
    + unfold Int64.quo. destruct (valueAt ci s =? 0); reflexivity.
  - assert (aggregateSample ci di a s = Done a) as Hskip
      by (apply aggregateSample_skips; exact He).
    destruct (sampleGroup s); exact Hskip.
Qed.

Lemma int64Values_snoc (samples : list Sample) (s : Sample) :
  int64Values (samples ++ [s]) <-> int64Values samples /\ Forall Int64.in_range (Value s).
Proof.
  unfold int64Values. rewrite Forall_app, Forall_singleton. reflexivity.
Qed.

Lemma valueAt_in_range (column : Z) (s : Sample) :
  Forall Int64.in_range (Value s) -> Int64.in_range (valueAt column s).
Proof.
  intros Hs. unfold valueAt.
  destruct (nth_in_or_default (Z.to_nat column) (Value s) 0) as [Hin | ->].
  - rewrite Forall_forall in Hs. apply Hs, list_elem_of_In, Hin.
  - unfold Int64.in_range, Int64.min_value, Int64.max_value. lia.
Qed.

Lemma inGroup_other (ci di : Z) (name other : string) (s : Sample) :
  sampleGroup s = Some name -> other <> name -> inGroup ci di other s = false.
Proof.
  intros Hg Hne. unfold inGroup. rewrite Hg.
  rewrite bool_decide_eq_false_2 by congruence. apply andb_false_r.
Qed.

Lemma inGroup_own (ci di : Z) (name : string) (s : Sample) :
  sampleGroup s = Some name -> inGroup ci di name s = eligible ci di s.
Proof.
  intros Hg. unfold inGroup. rewrite Hg, bool_decide_eq_true_2 by reflexivity.
  apply andb_true_r.
Qed.

Lemma inGroup_ineligible (ci di : Z) (name : string) (s : Sample) :
  eligible ci di s = false -> inGroup ci di name s = false.
Proof. intros He. unfold inGroup. rewrite He. reflexivity. Qed.

Lemma groupsOf_nil (ci di : Z) : groupsOf ci di [] noAggregation.
Proof. intros name. cbn [noAggregation blockData]. rewrite lookup_empty. intros s []. Qed.

(** A sample outside the group [name] changes nothing for [name]. *)
Lemma groupsOf_keep (ci di : Z) (samples : list Sample) (s : Sample) (m m' : gmap string ContentionStat)
    (name : string) :
  inGroup ci di name s = false ->
  m' !! name = m !! name ->
  match m !! name with
  | Some stat =>
      FunctionName stat = name /\ name <> ""
      /\ Int64.wrap (Contentions stat) = Int64.wrap (groupTotal ci di ci name samples)
      /\ Int64.wrap (DelayNanos stat) = Int64.wrap (groupTotal ci di di name samples)
      /\ (int64Values samples ->
          Int64.in_range (Contentions stat) /\ Int64.in_range (DelayNanos stat))
      /\ exists s, In s samples /\ inGroup ci di name s = true
  | None => forall s, In s samples -> inGroup ci di name s = false
  end ->
  match m' !! name with
  | Some stat =>
      FunctionName stat = name /\ name <> ""
      /\ Int64.wrap (Contentions stat) = Int64.wrap (groupTotal ci di ci name (samples ++ [s]))
      /\ Int64.wrap (DelayNanos stat) = Int64.wrap (groupTotal ci di di name (samples ++ [s]))
      /\ (int64Values (samples ++ [s]) ->
          Int64.in_range (Contentions stat) /\ Int64.in_range (DelayNanos stat))
      /\ exists s', In s' (samples ++ [s]) /\ inGroup ci di name s' = true
  | None => forall s', In s' (samples ++ [s]) -> inGroup ci di name s' = false
  end.
Proof.
  intros Hout Hsame Hold. rewrite Hsame.
  destruct (m !! name) as [stat|].
  - destruct Hold as (Hn & Hne & Hc & Hd & Hr & s0 & Hin & Hg).
    rewrite !groupTotal_snoc, Hout, !Z.add_0_r.
    split; [exact Hn|]. split; [exact Hne|]. split; [exact Hc|]. split; [exact Hd|].
    split; [intros Hv; apply int64Values_snoc in Hv; apply Hr; tauto|].
    exists s0. split; [apply in_or_app; left; exact Hin|exact Hg].
  - intros s' Hin. apply in_app_or in Hin. destruct Hin as [Hin | [ <- | [] ] ]; [apply Hold, Hin|exact Hout].
Qed.

Lemma aggregateSample_groupsOf (ci di : Z) (samples : list Sample) (s : Sample)
    (a a' : aggregation) :
  0 <= ci -> 0 <= di ->
  groupsOf ci di samples a ->
  aggregateSample ci di a s = Done a' ->
  groupsOf ci di (samples ++ [s]) a'.
Proof.
  intros Hci Hdi Hinv Hstep.
  pose proof (aggregateSample_cases ci di a s Hci Hdi) as Hcases.
  destruct (sampleGroup s) as [group|] eqn:Hg.
  - destruct (eligible ci di s) eqn:He.
    + destruct (blockData a !! group) as [old|] eqn:Hl.
      * rewrite Hcases in Hstep. injection Hstep as <-. intros name. cbn [blockData].
        destruct (decide (name = group)) as [->|Hne].
        -- rewrite lookup_insert_eq. pose proof (Hinv group) as Hold. rewrite Hl in Hold.
           destruct Hold as (Hn & Hne & Hc & Hd & Hr & s0 & Hin & Hgs).
           cbn [FunctionName Contentions DelayNanos].
           rewrite !groupTotal_snoc, (inGroup_own ci di group s Hg), He.
           split; [exact Hn|]. split; [exact Hne|].
           split; [clear -Hc; wrap_lia|]. split; [clear -Hd; wrap_lia|].
           split; [intros _; split; apply wrap_range|].
           exists s0. split; [apply in_or_app; left; exact Hin|exact Hgs].
        -- eapply groupsOf_keep; [eapply inGroup_other; eassumption| |apply Hinv].
           apply lookup_insert_ne. congruence.
      * destruct (valueAt ci s =? 0) eqn:Hz; [congruence|].
        rewrite Hcases in Hstep. injection Hstep as <-. intros name. cbn [blockData].
        destruct (decide (name = group)) as [->|Hne].
        -- rewrite lookup_insert_eq. pose proof (Hinv group) as Hold. rewrite Hl in Hold.
           cbn [FunctionName Contentions DelayNanos].
           assert (forall column, groupTotal ci di column group samples = 0) as Hzero.
           { intros column. unfold groupTotal.
             replace (List.filter (inGroup ci di group) samples) with (@nil Sample); [reflexivity|].
             symmetry. clear -Hold. induction samples as [|x l IH]; [reflexivity|].
             cbn [List.filter]. rewrite (Hold x) by (left; reflexivity).
             apply IH. intros s' Hin. apply Hold. right. exact Hin. }
           rewrite !groupTotal_snoc, (inGroup_own ci di group s Hg), He, !Hzero.
           split; [reflexivity|].
           split.
           { unfold sampleGroup in Hg. destruct (head (Location_ s)) as [loc|]; [|discriminate].
             injection Hg as <-. apply contentionFunctionName_nonempty. }
           split; [reflexivity|]. split; [reflexivity|].
           split.
           { intros Hv. apply int64Values_snoc in Hv. destruct Hv as [_ Hv].
             split; apply valueAt_in_range; exact Hv. }
           exists s. split; [apply in_or_app; right; left; reflexivity|].
           rewrite (inGroup_own ci di group s Hg). exact He.
        -- eapply groupsOf_keep; [eapply inGroup_other; eassumption| |apply Hinv].
           apply lookup_insert_ne. congruence.
    + rewrite Hcases in Hstep. injection Hstep as <-. intros name.
      eapply groupsOf_keep; [apply inGroup_ineligible, He|reflexivity|apply Hinv].
  - rewrite Hcases in Hstep. injection Hstep as <-. intros name.
    eapply groupsOf_keep; [|reflexivity|apply Hinv].
    unfold inGroup. rewrite Hg. rewrite bool_decide_eq_false_2 by discriminate. apply andb_false_r.
Qed.

Lemma forRange_groupsOf (ci di : Z) (rest : list Sample) :
  0 <= ci -> 0 <= di ->
  forall (processed : list Sample) (a a' : aggregation),
    groupsOf ci di processed a ->
    forRange (aggregateSample ci di) a rest = Done a' ->
    groupsOf ci di (processed ++ rest) a'.
Proof.
  intros Hci Hdi. induction rest as [|s rest IH]; intros processed a a' Hinv Hrun.
  - injection Hrun as <-. rewrite app_nil_r. exact Hinv.
  - rewrite forRange_cons in Hrun.
    destruct (aggregateSample ci di a s) as [a1|why] eqn:Hstep; [|discriminate].
    rewrite bind_Done in Hrun.
    replace (processed ++ s :: rest) with ((processed ++ [s]) ++ rest)
      by (rewrite <- app_assoc; reflexivity).
    eapply IH; [|exact Hrun].
    eapply aggregateSample_groupsOf; eassumption.
Qed.

Lemma aggregateSamples_groupsOf (ci di : Z) (samples : list Sample) (a : aggregation) :
  0 <= ci -> 0 <= di ->
  aggregateSamples ci di samples = Done a -> groupsOf ci di samples a.
Proof.
  intros Hci Hdi Hrun.
  apply (forRange_groupsOf ci di samples Hci Hdi [] noAggregation a (groupsOf_nil ci di) Hrun).
Qed.


Lemma contentionColumns_bounds (types : list ValueType) :
  forall i c d,
    0 <= i -> (c = -1 \/ 0 <= c) -> (d = -1 \/ 0 <= d) ->
    (fst (contentionColumns i types c d) = -1 \/ 0 <= fst (contentionColumns i types c d))
    /\ (snd (contentionColumns i types c d) = -1 \/ 0 <= snd (contentionColumns i types c d)).
Proof.
  induction types as [|st rest IH]; intros i c d Hi Hc Hd; [simpl; tauto|].
  cbn [contentionColumns].
  destruct (String.eqb (Type_ st) "contentions").
  - apply IH; [lia|right; lia|exact Hd].
  - destruct (String.eqb (Type_ st) "delay"); apply IH; try lia; try assumption.
Qed.

Lemma contentionColumns_found (p : Profile) (ci di : Z) :
  contentionColumns 0 (SampleType p) (-1) (-1) = (ci, di) -> ci <> -1 -> di <> -1 ->
  0 <= ci /\ 0 <= di.
Proof.
  intros Hcol Hci Hdi.
  pose proof (contentionColumns_bounds (SampleType p) 0 (-1) (-1) ltac:(lia) ltac:(tauto)
                ltac:(tauto)) as Hb.
  rewrite Hcol in Hb. cbn [fst snd] in Hb. lia.
Qed.

Lemma inGroup_true (ci di : Z) (name : string) (s : Sample) :
  inGroup ci di name s = true <-> eligible ci di s = true /\ sampleGroup s = Some name.
Proof.
  unfold inGroup. rewrite andb_true_iff, bool_decide_eq_true. reflexivity.
Qed.

(** When one step of the aggregation loop fails. *)
Lemma aggregateSample_Panic (ci di : Z) (processed : list Sample) (a : aggregation)
    (s : Sample) (r : string) :
  0 <= ci -> 0 <= di -> groupsOf ci di processed a ->
  (aggregateSample ci di a s = Panic r
   <-> r = divide_by_zero
       /\ eligible ci di s = true
       /\ valueAt ci s = 0
       /\ forall s', In s' processed -> eligible ci di s' = true ->
                     sampleGroup s' <> sampleGroup s).
Proof.
  intros Hci Hdi Hinv.
  pose proof (aggregateSample_cases ci di a s Hci Hdi) as Hcases.
  destruct (sampleGroup s) as [group|] eqn:Hg.
  - destruct (eligible ci di s) eqn:He.
    + pose proof (Hinv group) as Hgroup.
      destruct (blockData a !! group) as [old|] eqn:Hl.
      * rewrite Hcases. split; [discriminate|].
        intros (_ & _ & _ & Hnone).
        destruct Hgroup as (_ & _ & _ & _ & _ & s0 & Hin & Hs0).
        apply inGroup_true in Hs0. destruct Hs0 as [He0 Hg0].
        exfalso. exact (Hnone s0 Hin He0 Hg0).
      * destruct (Z.eqb_spec (valueAt ci s) 0) as [Hz|Hnz].
        -- rewrite Hcases. split.
           ++ intros [= <-]. repeat split; try assumption.
              intros s' Hin He' Hg'. pose proof (Hgroup s' Hin) as Hout.
              assert (inGroup ci di group s' = true) by (apply inGroup_true; split; assumption).
              congruence.
           ++ intros (-> & _). reflexivity.
        -- rewrite Hcases. split; [discriminate|]. intros (_ & _ & Hz & _). contradiction.
    + rewrite Hcases. split; [discriminate|]. intros (_ & Habs & _). discriminate.
  - rewrite Hcases. split; [discriminate|].
    intros (_ & He & _). exfalso.
    unfold sampleGroup in Hg. unfold eligible in He.
    destruct (Location_ s); [simpl in He; discriminate|discriminate].
Qed.

(** When the aggregation loop fails. *)
Lemma forRange_aggregate_Panic (ci di : Z) (rest : list Sample) (r : string) :
  0 <= ci -> 0 <= di ->
  forall (processed : list Sample) (a : aggregation),
    groupsOf ci di processed a ->
    (forRange (aggregateSample ci di) a rest = Panic r
     <-> r = divide_by_zero
         /\ exists before s after,
              rest = before ++ s :: after
              /\ eligible ci di s = true
              /\ valueAt ci s = 0
              /\ forall s', In s' (processed ++ before) -> eligible ci di s' = true ->
                            sampleGroup s' <> sampleGroup s).
Proof.
  intros Hci Hdi. induction rest as [|s rest IH]; intros processed a Hinv.
  - split; [discriminate|]. intros (_ & before & s & after & Habs & _).
    destruct before; discriminate.
  - rewrite forRange_cons.
    pose proof (aggregateSample_Panic ci di processed a s) as Hstep.
    destruct (aggregateSample ci di a s) as [a1|why] eqn:Es.
    + rewrite bind_Done.
      assert (groupsOf ci di (processed ++ [s]) a1) as Hinv1
        by (eapply aggregateSample_groupsOf; eassumption).
      rewrite (IH (processed ++ [s]) a1 Hinv1). split.
      * intros (-> & before & s0 & after & -> & He & Hz & Hnone).
        split; [reflexivity|]. exists (s :: before), s0, after.
        repeat split; try assumption.
        intros s' Hin. apply Hnone. rewrite <- app_assoc. exact Hin.
      * intros (-> & before & s0 & after & Hsplit & He & Hz & Hnone).
        split; [reflexivity|].
        destruct before as [|x before].
        -- injection Hsplit as <- <-. exfalso.
           assert (Done a1 = Panic divide_by_zero) as Habs; [|discriminate].
           apply (Hstep divide_by_zero Hci Hdi Hinv). repeat split; try assumption.
           intros s' Hin. apply Hnone. rewrite app_nil_r. exact Hin.
        -- injection Hsplit as <- ->. exists before, s0, after.
           repeat split; try assumption.
           intros s' Hin. apply Hnone. rewrite <- app_assoc in Hin. exact Hin.
    + cbn. split.
      * intros [= <-]. destruct (Hstep why Hci Hdi Hinv) as [Hwhy _].
        destruct (Hwhy eq_refl) as (-> & He & Hz & Hnone). split; [reflexivity|].
        exists [], s, rest. repeat split; try assumption.
        intros s' Hin. apply Hnone. rewrite app_nil_r in Hin. exact Hin.
      * intros (-> & _). f_equal.
        destruct (Hstep why Hci Hdi Hinv) as [Hwhy _]. destruct (Hwhy eq_refl) as [-> _].
        reflexivity.
Qed.

Lemma aggregateSamples_Panic (ci di : Z) (samples : list Sample) (r : string) :
  0 <= ci -> 0 <= di ->
  (aggregateSamples ci di samples = Panic r
   <-> r = divide_by_zero /\ zeroOpener ci di samples).
Proof.
  intros Hci Hdi. unfold aggregateSamples, zeroOpener.
  rewrite (forRange_aggregate_Panic ci di samples r Hci Hdi [] noAggregation (groupsOf_nil ci di)).
  reflexivity.
Qed.

Lemma analyzeContention_Panic `{Formatting} (w : wording) (p : Profile)
    (topN : Z) (format r : string) :
  analyzeContention w p topN format = Panic r
  <-> r = divide_by_zero
      /\ fst (contentionColumns 0 (SampleType p) (-1) (-1)) <> -1
      /\ snd (contentionColumns 0 (SampleType p) (-1) (-1)) <> -1
      /\ zeroOpener (fst (contentionColumns 0 (SampleType p) (-1) (-1)))
                    (snd (contentionColumns 0 (SampleType p) (-1) (-1))) (Sample_ p).
Proof.
  unfold analyzeContention.
  destruct (contentionColumns 0 (SampleType p) (-1) (-1)) as [ci di] eqn:Hcol. cbn [fst snd].
  destruct (Z.eqb_spec ci (-1)) as [->|Hci]; cbn [orb].
  { split; [discriminate|]. intros (_ & Habs & _). contradiction. }
  destruct (Z.eqb_spec di (-1)) as [->|Hdi].
  { split; [discriminate|]. intros (_ & _ & Habs & _). contradiction. }
  destruct (contentionColumns_found p ci di Hcol Hci Hdi) as [Hci0 Hdi0].
  pose proof (aggregateSamples_Panic ci di (Sample_ p) r Hci0 Hdi0) as Hagg.
  destruct (aggregateSamples ci di (Sample_ p)) as [a|why] eqn:Ea.
  - rewrite bind_Done.
    split.
    + destruct (totalContentions a =? 0); discriminate.
    + intros (Hr & _ & _ & Hz). exfalso.
      assert (Done a = Panic r) as Habs by (apply Hagg; tauto). discriminate.
  - cbn. split.
    + intros [= <-]. destruct Hagg as [Hagg _]. specialize (Hagg eq_refl). tauto.
    + intros (-> & _ & _ & Hz). f_equal. destruct Hagg as [Hagg _].
      assert (aggregateSamples ci di (Sample_ p) = Panic divide_by_zero) as Hp.
      { apply aggregateSamples_Panic; tauto. }
      congruence.
Qed.

(** X2.  The block and mutex analysers fail in one way only.  For every
    profile, topN and format, a run panics exactly when both columns are
    declared and some sample that takes part in the aggregation has zero
    contentions and is the first of its function group; the panic is
    then the integer division by zero.  No run fails by an index out of
    range, and every other run returns. *)
Theorem contention_fails_only_on_zero_opener `{Formatting} (p : Profile) (topN : Z)
    (format : string) :
  let contentionIndex := fst (contentionColumns 0 (SampleType p) (-1) (-1)) in
  let delayIndex := snd (contentionColumns 0 (SampleType p) (-1) (-1)) in
  let fails :=
    contentionIndex <> -1 /\ delayIndex <> -1
    /\ zeroOpener contentionIndex delayIndex (Sample_ p) in
  (forall r, AnalyzeBlockProfile p topN format = Panic r <-> r = divide_by_zero /\ fails)
  /\ (forall r, AnalyzeMutexProfile p topN format = Panic r <-> r = divide_by_zero /\ fails)
  /\ (~ fails ->
      (exists result, AnalyzeBlockProfile p topN format = Done result)
      /\ (exists result, AnalyzeMutexProfile p topN format = Done result)).
Proof.
  cbv zeta. split; [|split].
  - intros r. apply analyzeContention_Panic.
  - intros r. apply analyzeContention_Panic.
  - intros Hno. split.
    + destruct (AnalyzeBlockProfile p topN format) as [result|why] eqn:Hrun; [eauto|].
      apply analyzeContention_Panic in Hrun. tauto.
    + destruct (AnalyzeMutexProfile p topN format) as [result|why] eqn:Hrun; [eauto|].
      apply analyzeContention_Panic in Hrun. tauto.
Qed.

Lemma withShares_fields `{Formatting} (totalC totalD : Z) (stat : ContentionStat) :
  FunctionName (withShares totalC totalD stat) = FunctionName stat
  /\ Contentions (withShares totalC totalD stat) = Contentions stat
  /\ DelayNanos (withShares totalC totalD stat) = DelayNanos stat
  /\ AvgDelayNanos (withShares totalC totalD stat) = AvgDelayNanos stat.
Proof. repeat split. Qed.

Lemma rankedStats_names `{Formatting} (ci di : Z) (samples : list Sample) (a : aggregation) :
  groupsOf ci di samples a ->
  map FunctionName (rankedStats a) ≡ₚ map fst (map_to_list (blockData a)).
Proof.
  intros Hinv. rewrite rankedStats_perm. rewrite map_map.
  assert (map (fun kv => FunctionName (withShares (totalContentions a) (totalDelay a) (snd kv)))
              (map_to_list (blockData a))
          = map fst (map_to_list (blockData a))) as ->; [|reflexivity].
  apply map_ext_in. intros [name stat] Hin. cbn [fst snd].
  apply list_elem_of_In, elem_of_map_to_list in Hin.
  pose proof (Hinv name) as Hname. rewrite Hin in Hname. tauto.
Qed.

(** X1.  Each ranked group holds the samples of one function.  When
    the aggregation of a profile whose values are 64-bit integers
    completes, the ranked list names every function once, never with an
    empty name; a function is listed exactly when some sample that takes
    part in the aggregation falls in its group; and the contentions and
    the delay of a group are the 64-bit sums of the two columns over the
    samples of the group. *)
Theorem ranked_groups_hold_their_samples `{Formatting} (p : Profile)
    (contentionIndex delayIndex : Z) (a : aggregation) :
  contentionColumns 0 (SampleType p) (-1) (-1) = (contentionIndex, delayIndex) ->
  contentionIndex <> -1 -> delayIndex <> -1 ->
  int64Values (Sample_ p) ->
  aggregateSamples contentionIndex delayIndex (Sample_ p) = Done a ->
  NoDup (map FunctionName (rankedStats a))
  /\ (forall name,
         In name (map FunctionName (rankedStats a))
         <-> exists s, In s (Sample_ p)
                       /\ inGroup contentionIndex delayIndex name s = true)
  /\ Forall (fun stat =>
               FunctionName stat <> ""
               /\ Contentions stat
                  = Int64.wrap (groupTotal contentionIndex delayIndex contentionIndex
                                  (FunctionName stat) (Sample_ p))
               /\ DelayNanos stat
                  = Int64.wrap (groupTotal contentionIndex delayIndex delayIndex
                                  (FunctionName stat) (Sample_ p)))
            (rankedStats a).
Proof.
  intros Hcol Hci Hdi Hval Hrun.
  destruct (contentionColumns_found p _ _ Hcol Hci Hdi) as [Hci0 Hdi0].
  pose proof (aggregateSamples_groupsOf _ _ _ _ Hci0 Hdi0 Hrun) as Hinv.
  pose proof (rankedStats_names _ _ _ _ Hinv) as Hnames.
  split; [|split].
  - rewrite Hnames. exact (NoDup_fst_map_to_list (blockData a)).
  - intros name. rewrite <- list_elem_of_In, Hnames.
    pose proof (Hinv name) as Hname. split.
    + intros Hin. apply list_elem_of_fmap in Hin. destruct Hin as ([k stat] & -> & Hin).
      apply elem_of_map_to_list in Hin. cbn [fst] in *. rewrite Hin in Hname. tauto.
    + intros (s & Hin & Hg). destruct (blockData a !! name) as [stat|] eqn:Hl.
      * apply list_elem_of_fmap. exists (name, stat). split; [reflexivity|].
        apply elem_of_map_to_list, Hl.
      * rewrite (Hname s Hin) in Hg. discriminate.
  - eapply Permutation_Forall; [symmetry; apply rankedStats_perm|].
    apply Forall_map, Forall_forall. intros [name stat] Hin. cbn [snd].
    apply elem_of_map_to_list in Hin.
    pose proof (Hinv name) as Hname. rewrite Hin in Hname.
    destruct Hname as (Hn & Hne & Hc & Hd & Hr & _). destruct (Hr Hval) as [Hrc Hrd].
    cbn [withShares FunctionName Contentions DelayNanos]. rewrite Hn.
    split; [exact Hne|]. rewrite <- Hc, <- Hd. rewrite !wrap_in_range by assumption. tauto.
Qed.

(** A percentage of a zero total is not a number that JSON can hold. *)
Lemma percent_of_zero (d : Z) :
  let x := Float64.mul (Float64.div (Float64.of_int d) (Float64.of_int 0)) (Float64.of_int 100) in
  Float64.is_nan x || Float64.is_inf x = true.
Proof.
  intros x. subst x. pose proof (of_int_not_nan d) as Hn.
  change (Float64.of_int 0) with (S754_zero false).
  change (Float64.of_int 100) with (S754_finite false 7036874417766400 (-46)).
  destruct (Float64.of_int d) as [s|s| |s m e]; try discriminate; reflexivity.
Qed.

Lemma statJSON_supported (stat : ContentionStat) (B : Z) :
  bounded_by B (ContentionsPct stat) -> bounded_by B (DelayPct stat) ->
  json_supported (statJSON stat) = true.
Proof.
  intros Hc Hd. destruct (bounded_is_number _ _ Hc) as [Hn1 Hi1].
  destruct (bounded_is_number _ _ Hd) as [Hn2 Hi2].
  simpl. rewrite Hn1, Hi1, Hn2, Hi2. reflexivity.
Qed.

Lemma statJSON_unsupported (stat : ContentionStat) :
  Float64.is_nan (DelayPct stat) || Float64.is_inf (DelayPct stat) = true ->
  json_supported (statJSON stat) = false.
Proof.
  intros Hd. simpl. rewrite Hd. cbn [negb andb]. rewrite !andb_false_r. reflexivity.
Qed.

Lemma resultJSON_supported `{Formatting} (w : wording) (totalC totalD topN : Z)
    (stats : list ContentionStat) :
  json_supported (resultJSON w totalC totalD topN stats)
  = forallb json_supported (map statJSON stats).
Proof. unfold resultJSON. cbn [json_supported forallb snd]. rewrite andb_true_r. reflexivity. Qed.

Lemma rankedStats_nonempty `{Formatting} (ci di : Z) (samples : list Sample) (a : aggregation) :
  aggregateSamples ci di samples = Done a -> totalContentions a <> 0 ->
  rankedStats a <> [].
Proof.
  intros Hrun Hnz Hnil.
  pose proof (aggregateSamples_closed ci di samples a Hrun) as [Hc _].
  apply (f_equal (@length _)) in Hnil. rewrite rankedStats_length in Hnil. cbn in Hnil.
  apply map_size_empty_iff in Hnil. rewrite Hnil, sumOver_empty, wrap_zero in Hc. congruence.
Qed.

(** X3.  The JSON rendering of a contention analysis needs a non-zero
    total delay.  For a profile whose values are 64-bit integers and
    whose aggregation completes with a non-zero total of contentions:
    when the total delay is zero, the delay percentages are NaN or
    infinite and the "json" format returns the encoder's error; when it
    is not zero, the "json" format returns the encoded result with a nil
    error. *)
Theorem contention_json_needs_total_delay `{Formatting} (w : wording) (p : Profile)
    (topN : Z) (contentionIndex delayIndex : Z) (a : aggregation) :
  contentionColumns 0 (SampleType p) (-1) (-1) = (contentionIndex, delayIndex) ->
  contentionIndex <> -1 -> delayIndex <> -1 ->
  int64Values (Sample_ p) ->
  aggregateSamples contentionIndex delayIndex (Sample_ p) = Done a ->
  totalContentions a <> 0 ->
  (totalDelay a = 0 ->
   analyzeContention w p topN "json" = Done (Text "", Some marshalError))
  /\ (totalDelay a <> 0 ->
      analyzeContention w p topN "json"
      = Done (JSON (resultJSON w (totalContentions a) (totalDelay a) topN (rankedStats a)),
              None)).
Proof.
  intros Hcol Hci Hdi Hval Hrun Hnz.
  rewrite (analyzeContention_found w p topN "json" _ _ a Hcol Hci Hdi Hrun).
  destruct (Z.eqb_spec (totalContentions a) 0) as [|_]; [contradiction|].
  unfold renderContention. cbn [String.eqb Ascii.eqb Bool.eqb]. unfold MarshalIndent.
  rewrite resultJSON_supported.
  destruct (contentionColumns_found p _ _ Hcol Hci Hdi) as [Hci0 Hdi0].
  pose proof (aggregateSamples_groupsOf _ _ _ _ Hci0 Hdi0 Hrun) as Hinv.
  destruct (aggregateSamples_totals _ _ _ _ Hrun) as [HtC HtD].
  split.
  - intros Hzero.
    assert (forallb json_supported (map statJSON (rankedStats a)) = false) as ->; [|reflexivity].
    pose proof (rankedStats_nonempty _ _ _ _ Hrun Hnz) as Hne.
    assert (Forall (fun stat => json_supported (statJSON stat) = false) (rankedStats a)) as Hall.
    { eapply Permutation_Forall; [symmetry; apply rankedStats_perm|].
      apply Forall_map, Forall_forall. intros [name stat] _. cbn [snd].
      apply statJSON_unsupported. cbn [withShares DelayPct]. rewrite Hzero.
      apply percent_of_zero. }
    destruct (rankedStats a) as [|stat stats]; [contradiction|].
    apply Forall_cons in Hall. destruct Hall as [Hstat _]. cbn [map forallb].
    rewrite Hstat. reflexivity.
  - intros Hdelay.
    assert (forallb json_supported (map statJSON (rankedStats a)) = true) as ->; [|reflexivity].
    apply forallb_map_true.
    eapply Permutation_Forall; [symmetry; apply rankedStats_perm|].
    apply Forall_map, Forall_forall. intros [name stat] Hin. cbn [snd].
    apply elem_of_map_to_list in Hin.
    pose proof (Hinv name) as Hname. rewrite Hin in Hname.
    destruct Hname as (_ & _ & _ & _ & Hr & _). destruct (Hr Hval) as [Hrc Hrd].
    apply (statJSON_supported _ 74); cbn [withShares ContentionsPct DelayPct];
      apply percent_bounded; try assumption.
    + rewrite HtC. apply wrap_range.
    + rewrite HtD. apply wrap_range.
Qed.


(** Closed lists of samples: all their values are 64-bit integers. *)
Ltac check_values :=
  unfold int64Values;
  repeat (first [apply List.Forall_nil | apply List.Forall_cons]);
  unfold Int64.in_range, Int64.min_value, Int64.max_value; lia.

(** The two-function profile: its two groups and their figures. *)
Lemma two_function_groups :
  exists a,
    aggregateSamples 0 1 (Sample_ twoFunctionProfile) = Done a
    /\ NoDup (map FunctionName (rankedStats a))
    /\ (forall name,
           In name (map FunctionName (rankedStats a))
           <-> exists s, In s (Sample_ twoFunctionProfile) /\ inGroup 0 1 name s = true)
    /\ Forall (fun stat =>
                 FunctionName stat <> ""
                 /\ Contentions stat
                    = Int64.wrap (groupTotal 0 1 0 (FunctionName stat) (Sample_ twoFunctionProfile))
                 /\ DelayNanos stat
                    = Int64.wrap (groupTotal 0 1 1 (FunctionName stat) (Sample_ twoFunctionProfile)))
              (rankedStats a).
Proof.
  assert (exists a, aggregateSamples 0 1 (Sample_ twoFunctionProfile) = Done a) as (a & Hagg).
  { eexists. vm_compute. reflexivity. }
  exists a. split; [exact Hagg|].
  apply (@ranked_groups_hold_their_samples plainFormatting twoFunctionProfile 0 1 a eq_refl);
    [lia|lia| |exact Hagg].
  check_values.
Defined.

(** A profile without any delay cannot be rendered as JSON; the
    two-function profile can. *)
Lemma json_of_zero_delay_profile :
  (exists a,
      aggregateSamples 0 1 (Sample_ zeroDelayProfile) = Done a
      /\ totalDelay a = 0
      /\ AnalyzeBlockProfile zeroDelayProfile 5 "json" = Done (Text "", Some marshalError))
  /\ (exists j, AnalyzeBlockProfile twoFunctionProfile 5 "json" = Done (JSON j, None)).
Proof.
  split.
  - assert (exists a, aggregateSamples 0 1 (Sample_ zeroDelayProfile) = Done a
                      /\ totalContentions a = 5 /\ totalDelay a = 0) as (a & Hagg & Hc & Hd).
    { eexists. split; [vm_compute; reflexivity|]. split; reflexivity. }
    exists a. split; [exact Hagg|]. split; [exact Hd|].
    apply (@contention_json_needs_total_delay plainFormatting blockWording zeroDelayProfile 5
             0 1 a eq_refl); try lia; try assumption.
    check_values.
  - assert (exists a, aggregateSamples 0 1 (Sample_ twoFunctionProfile) = Done a
                      /\ totalContentions a = 280 /\ totalDelay a = 140000000)
      as (a & Hagg & Hc & Hd).
    { eexists. split; [vm_compute; reflexivity|]. split; reflexivity. }
    eexists.
    apply (@contention_json_needs_total_delay plainFormatting blockWording twoFunctionProfile 5
             0 1 a eq_refl); try lia; try assumption.
    check_values.
Defined.

(** ** The differential comparator: the column and the aggregated maps *)

Lemma kindColumn_first (profileType : string) (types : list ValueType) :
  forall i j,
    Diff.kindColumn i profileType types = Some j ->
    exists before st after,
      types = before ++ st :: after
      /\ j = i + len before
      /\ Diff.matchesKind profileType st = true
      /\ Forall (fun st' => Diff.matchesKind profileType st' = false) before.
Proof.
  induction types as [|st rest IH]; intros i j Hk; [discriminate|].
  cbn [Diff.kindColumn] in Hk.
  destruct (Diff.matchesKind profileType st) eqn:Hm.
  - injection Hk as <-. exists [], st, rest.
    split; [reflexivity|]. split; [unfold len; simpl; lia|]. split; [assumption|constructor].
  - destruct (IH _ _ Hk) as (before & st' & after & -> & -> & Hst & Hbefore).
    exists (st :: before), st', after.
    split; [reflexivity|]. split; [unfold len; cbn [length]; lia|].
    split; [assumption|constructor; assumption].
Qed.

(** X6.  The value column of a comparison is the first column of the
    baseline that matches the profile kind.  When some sample type
    matches, the index returned is the position of the first match; in
    every case the index is a position of the baseline's sample types,
    unless the baseline declares none (then it is 0). *)
Theorem value_column_is_first_match (p : Profile) (profileType : string) :
  exists i,
    Diff.getValueIndex p profileType = (i, None)
    /\ (existsb (Diff.matchesKind profileType) (SampleType p) = true ->
        exists before st after,
          SampleType p = before ++ st :: after
          /\ i = len before
          /\ Diff.matchesKind profileType st = true
          /\ Forall (fun st' => Diff.matchesKind profileType st' = false) before)
    /\ (0 <= i < len (SampleType p) \/ (SampleType p = [] /\ i = 0)).
Proof.
  unfold Diff.getValueIndex.
  destruct (Diff.kindColumn 0 profileType (SampleType p)) as [j|] eqn:Hk.
  - exists j. split; [reflexivity|].
    destruct (kindColumn_first _ _ _ _ Hk) as (before & st & after & Hsplit & -> & Hst & Hb).
    split.
    + intros _. exists before, st, after.
      split; [assumption|]. split; [lia|]. split; assumption.
    + left. rewrite Hsplit. unfold len. rewrite length_app. cbn [length]. lia.
  - apply kindColumn_None in Hk.
    destruct (len (SampleType p) >? 1) eqn:Hlen.
    + exists 1. split; [reflexivity|]. split; [congruence|]. left. lia.
    + exists 0. split; [reflexivity|]. split; [congruence|].
      destruct (SampleType p) as [|st rest]; [right; split; reflexivity|].
      left. unfold len. cbn [length]. lia.
Qed.

(** One step of the aggregation of [aggregateFunctionValues]. *)
Lemma aggregateValue_cases (valueIndex : Z) (result : gmap string Z) (s : Sample) :
  0 <= valueIndex ->
  match topName s with
  | Some name =>
      if counted valueIndex s then
        Diff.aggregateValue valueIndex result s
        = Done (<[name := Int64.add (Diff.valueOf result name) (valueAt valueIndex s)]> result)
      else Diff.aggregateValue valueIndex result s = Done result
  | None =>
      counted valueIndex s = false /\ Diff.aggregateValue valueIndex result s = Done result
  end.
Proof.
  intros Hi. unfold topName, counted, Diff.aggregateValue.
  destruct (Location_ s) as [|loc locs] eqn:Hloc; cbn [head fmap option_fmap option_map].
  - split; reflexivity.
  - destruct (Z.eqb_spec (len (loc :: locs)) 0) as [Habs|_];
      [unfold len in Habs; cbn [length] in Habs; lia|]. cbn [orb negb].
    destruct (Z.leb_spec (len (Value s)) valueIndex) as [Hle|Hgt]; cbn [negb]; [reflexivity|].
    destruct (index_in_range (Value s) valueIndex ltac:(lia)) as (v & Hv).
    rewrite Hv, bind_Done. apply index_valueAt in Hv. subst v. reflexivity.
Qed.

Lemma filter_none {A : Type} (test : A -> bool) (l : list A) :
  existsb test l = false -> List.filter test l = [].
Proof.
  induction l as [|x l IH]; [reflexivity|]. cbn [existsb List.filter].
  destruct (test x); [discriminate|]. exact IH.
Qed.

Lemma functionTotal_snoc (valueIndex : Z) (name : string) (samples : list Sample) (s : Sample) :
  functionTotal valueIndex name (samples ++ [s])
  = functionTotal valueIndex name samples
    + (if inFunction valueIndex name s then valueAt valueIndex s else 0).
Proof.
  unfold functionTotal. rewrite List.filter_app, map_app, Zsum_app. cbn [List.filter].
  destruct (inFunction valueIndex name s); simpl; lia.
Qed.

Lemma sumsOf_nil (valueIndex : Z) : sumsOf valueIndex [] ∅.
Proof. intros name. apply lookup_empty. Qed.

Lemma aggregateValue_sumsOf (valueIndex : Z) (samples : list Sample) (s : Sample)
    (result result' : gmap string Z) :
  0 <= valueIndex ->
  sumsOf valueIndex samples result ->
  Diff.aggregateValue valueIndex result s = Done result' ->
  sumsOf valueIndex (samples ++ [s]) result'.
Proof.
  intros Hi Hinv Hstep name.
  pose proof (aggregateValue_cases valueIndex result s Hi) as Hcases.
  rewrite existsb_app, functionTotal_snoc. cbn [existsb]. rewrite orb_false_r.
  assert (inFunction valueIndex name s = false -> result' = result \/ (exists other v, other <> name /\ result' = <[other := v]> result) ->
          result' !! name
          = (if existsb (inFunction valueIndex name) samples || inFunction valueIndex name s
             then Some (Int64.wrap (functionTotal valueIndex name samples
                                    + (if inFunction valueIndex name s
                                       then valueAt valueIndex s else 0)))
             else None)) as Hkeep.
  { intros Hout Hsame. rewrite Hout, orb_false_r, Z.add_0_r.
    destruct Hsame as [->|(other & v & Hne & ->)]; [apply Hinv|].
    rewrite lookup_insert_ne by exact Hne. apply Hinv. }
  unfold inFunction in *.
  destruct (topName s) as [group|] eqn:Hg.
  - destruct (counted valueIndex s) eqn:Hc.
    + rewrite Hcases in Hstep. injection Hstep as <-.
      destruct (decide (name = group)) as [->|Hne].
      * rewrite lookup_insert_eq. rewrite bool_decide_eq_true_2 by reflexivity.
        cbn [andb]. rewrite orb_true_r.
        f_equal. unfold Diff.valueOf. rewrite (Hinv group). unfold inFunction.
        destruct (existsb _ samples) eqn:Hex; cbn [from_option]; unfold id.
        -- wrap_lia.
        -- unfold functionTotal, inFunction. rewrite (filter_none _ _ Hex). reflexivity.
      * apply Hkeep.
        -- rewrite bool_decide_eq_false_2 by congruence. apply andb_false_r.
        -- right. eauto.
    + rewrite Hcases in Hstep. injection Hstep as <-. apply Hkeep; [reflexivity|left; reflexivity].
  - destruct Hcases as [Hc Hrun]. rewrite Hrun in Hstep. injection Hstep as <-.
    apply Hkeep; [rewrite Hc; reflexivity|left; reflexivity].
Qed.

Lemma forRange_sumsOf (valueIndex : Z) (rest : list Sample) :
  0 <= valueIndex ->
  forall (processed : list Sample) (result result' : gmap string Z),
    sumsOf valueIndex processed result ->
    forRange (Diff.aggregateValue valueIndex) result rest = Done result' ->
    sumsOf valueIndex (processed ++ rest) result'.
Proof.
  intros Hi. induction rest as [|s rest IH]; intros processed result result' Hinv Hrun.
  - injection Hrun as <-. rewrite app_nil_r. exact Hinv.
  - rewrite forRange_cons in Hrun.
    destruct (Diff.aggregateValue valueIndex result s) as [r1|why] eqn:Hstep; [|discriminate].
    rewrite bind_Done in Hrun.
    replace (processed ++ s :: rest) with ((processed ++ [s]) ++ rest)
      by (rewrite <- app_assoc; reflexivity).
    eapply IH; [|exact Hrun].
    eapply aggregateValue_sumsOf; eassumption.
Qed.

Lemma aggregateFunctionValues_sumsOf (p : Profile) (valueIndex : Z) (funcs : gmap string Z) :
  0 <= valueIndex ->
  Diff.aggregateFunctionValues p valueIndex = Done funcs ->
  sumsOf valueIndex (Sample_ p) funcs.
Proof.
  intros Hi Hrun.
  apply (forRange_sumsOf valueIndex (Sample_ p) Hi [] ∅ funcs (sumsOf_nil valueIndex) Hrun).
Qed.

(** The values of the aggregated map add up to the column total of the
    counted samples. *)
Lemma aggregateValue_sum (valueIndex : Z) (result result' : gmap string Z) (s : Sample) :
  0 <= valueIndex ->
  Diff.aggregateValue valueIndex result s = Done result' ->
  Int64.wrap (sumOver (fun v => v) result')
  = Int64.wrap (sumOver (fun v => v) result
                + (if counted valueIndex s then valueAt valueIndex s else 0)).
Proof.
  intros Hi Hstep.
  pose proof (aggregateValue_cases valueIndex result s Hi) as Hcases.
  destruct (topName s) as [group|].
  - destruct (counted valueIndex s).
    + rewrite Hcases in Hstep. injection Hstep as <-. unfold Diff.valueOf.
      destruct (result !! group) as [old|] eqn:Hold; cbn [from_option]; unfold id.
      * rewrite (sumOver_insert_present _ _ _ old) by exact Hold. wrap_lia.
      * rewrite sumOver_insert_fresh by exact Hold. wrap_lia.
    + rewrite Hcases in Hstep. injection Hstep as <-. rewrite Z.add_0_r. reflexivity.
  - destruct Hcases as [-> Hrun]. rewrite Hrun in Hstep. injection Hstep as <-.
    rewrite Z.add_0_r. reflexivity.
Qed.

Lemma forRange_aggregateValue_sum (valueIndex : Z) (samples : list Sample) :
  0 <= valueIndex ->
  forall result result',
    forRange (Diff.aggregateValue valueIndex) result samples = Done result' ->
    Int64.wrap (sumOver (fun v => v) result')
    = Int64.wrap (sumOver (fun v => v) result + countedTotal valueIndex samples).
Proof.
  intros Hi. induction samples as [|s samples IH]; intros result result' Hrun.
  - injection Hrun as <-. unfold countedTotal. simpl. rewrite Z.add_0_r. reflexivity.
  - rewrite forRange_cons in Hrun.
    destruct (Diff.aggregateValue valueIndex result s) as [r1|why] eqn:Hstep; [|discriminate].
    rewrite bind_Done in Hrun. rewrite (IH _ _ Hrun).
    pose proof (aggregateValue_sum _ _ _ _ Hi Hstep) as H1.
    unfold countedTotal in *. cbn [List.filter].
    destruct (counted valueIndex s); unfold Zsum in *; cbn [map foldr] in *; wrap_lia.
Qed.

Lemma totalOf_sum (m : gmap string Z) : Diff.totalOf m = Int64.wrap (sumOver (fun v => v) m).
Proof.
  unfold Diff.totalOf, sumOver.
  assert (forall l total,
            Int64.in_range total ->
            foldl (fun total (kv : string * Z) => Int64.add total (snd kv)) total l
            = Int64.wrap (total + Zsum (map (fun kv : string * Z => snd kv) l))) as Hgen.
  { induction l as [|kv l IH]; intros total Ht.
    - simpl. rewrite Z.add_0_r. symmetry. apply wrap_in_range, Ht.
    - cbn [foldl map]. rewrite IH by apply wrap_range.
      unfold Zsum; cbn [foldr]. wrap_lia. }
  rewrite Hgen by (unfold Int64.in_range, Int64.min_value, Int64.max_value; lia).
  reflexivity.
Qed.

(** The sum of [m[key]] over a finite set of keys that covers the map is
    the sum of the values of the map. *)
Lemma Zsum_indicator (k : string) (v : Z) (l : list string) :
  NoDup l -> k ∈ l -> Zsum (map (fun k' => if decide (k' = k) then v else 0) l) = v.
Proof.
  induction 1 as [|x l Hx Hnd IH]; intros Hin; [inversion Hin|].
  unfold Zsum in *. cbn [map foldr].
  apply elem_of_cons in Hin. destruct (decide (x = k)) as [->|Hne].
  - assert (foldr Z.add 0 (map (fun k' => if decide (k' = k) then v else 0) l) = 0) as ->; [|lia].
    clear -Hx. induction l as [|y l IH]; [reflexivity|]. cbn [map foldr].
    apply not_elem_of_cons in Hx. destruct Hx as [Hy Hx].
    destruct (decide (y = k)) as [->|_]; [contradiction|]. rewrite IH by exact Hx. reflexivity.
  - destruct Hin as [->|Hin]; [contradiction|]. rewrite IH by exact Hin. lia.
Qed.

Lemma Zsum_pointwise {A : Type} (f g h : A -> Z) (l : list A) :
  (forall x, f x = g x + h x) -> Zsum (map f l) = Zsum (map g l) + Zsum (map h l).
Proof.
  intros Hf. unfold Zsum. induction l as [|x l IH]; [reflexivity|].
  cbn [map foldr]. rewrite IH, Hf. lia.
Qed.

Lemma Zsum_valueOf (m : gmap string Z) :
  forall X : gset string,
    dom m ⊆ X -> Zsum (map (Diff.valueOf m) (elements X)) = sumOver (fun v => v) m.
Proof.
  induction m as [|k v m Hfresh IH] using map_ind; intros X Hsub.
  - rewrite sumOver_empty. unfold Zsum. induction (elements X) as [|x l IHl]; [reflexivity|].
    cbn [map foldr]. rewrite IHl. unfold Diff.valueOf. rewrite lookup_empty. reflexivity.
  - rewrite sumOver_insert_fresh by exact Hfresh.
    rewrite (Zsum_pointwise _ (fun k' => if decide (k' = k) then v else 0) (Diff.valueOf m)).
    + rewrite Zsum_indicator; [|apply NoDup_elements|].
      * rewrite IH; [reflexivity|]. intros x Hx. apply Hsub. rewrite dom_insert. set_solver.
      * apply elem_of_elements, Hsub. rewrite dom_insert. set_solver.
    + intros k'. unfold Diff.valueOf. destruct (decide (k' = k)) as [->|Hne].
      * rewrite lookup_insert_eq, Hfresh. simpl. unfold id. lia.
      * rewrite lookup_insert_ne by congruence. lia.
Qed.

Lemma Zsum_wrap {A : Type} (f : A -> Z) (l : list A) :
  Int64.wrap (Zsum (map (fun x => Int64.wrap (f x)) l)) = Int64.wrap (Zsum (map f l)).
Proof.
  unfold Zsum. induction l as [|x l IH]; [reflexivity|]. cbn [map foldr].
  rewrite <- wrap_add_r, IH, wrap_add_r, wrap_add_l. reflexivity.
Qed.

(** The differences of all entries add up, in 64-bit arithmetic, to the
    difference of the two totals. *)
Lemma rankedDiffs_sum `{Formatting} (baselineFuncs targetFuncs : gmap string Z) :
  Int64.wrap (Zsum (map Diff.DiffValue (Diff.rankedDiffs baselineFuncs targetFuncs)))
  = Int64.wrap (sumOver (fun v => v) targetFuncs - sumOver (fun v => v) baselineFuncs).
Proof.
  rewrite (Zsum_perm _ (map Diff.DiffValue (Diff.computeFunctionDiffs baselineFuncs targetFuncs)))
    by (apply Permutation_map, rankedDiffs_perm).
  unfold Diff.computeFunctionDiffs. rewrite map_map. cbn [Diff.functionDiff Diff.DiffValue].
  unfold Int64.sub.
  rewrite (Zsum_wrap (fun name => Diff.valueOf targetFuncs name - Diff.valueOf baselineFuncs name)).
  rewrite (Zsum_pointwise _ (Diff.valueOf targetFuncs)
             (fun name => - Diff.valueOf baselineFuncs name)) by (intros; lia).
  rewrite Zsum_valueOf by set_solver.
  assert (Zsum (map (fun name => - Diff.valueOf baselineFuncs name)
                    (elements (dom baselineFuncs ∪ dom targetFuncs)))
          = - sumOver (fun v => v) baselineFuncs) as ->.
  { rewrite <- (Zsum_valueOf baselineFuncs (dom baselineFuncs ∪ dom targetFuncs)) by set_solver.
    unfold Zsum. induction (elements _) as [|x l IH]; [reflexivity|].
    cbn [map foldr]. rewrite IH. lia. }
  reflexivity.
Qed.

(** What [CompareProfiles] computes and returns, with the facts about
    the value column and the two aggregated maps. *)
Lemma CompareProfiles_run `{Formatting} (baseline target : Profile)
    (profileTypeName : string) (topN : Z) (format : string) :
  exists valueIndex baselineFuncs targetFuncs,
    Diff.getValueIndex baseline profileTypeName = (valueIndex, None)
    /\ 0 <= valueIndex
    /\ Diff.aggregateFunctionValues baseline valueIndex = Done baselineFuncs
    /\ Diff.aggregateFunctionValues target valueIndex = Done targetFuncs
    /\ sumsOf valueIndex (Sample_ baseline) baselineFuncs
    /\ sumsOf valueIndex (Sample_ target) targetFuncs
    /\ ranged baselineFuncs /\ ranged targetFuncs
    /\ Diff.CompareProfiles baseline target profileTypeName topN format
       = Done (let diffs := Diff.rankedDiffs baselineFuncs targetFuncs in
               let summary := Diff.computeDiffSummary baselineFuncs targetFuncs diffs in
               if String.eqb format "json" then
                 MarshalIndent (Diff.diffResultJSON profileTypeName topN diffs summary)
               else
                 (Table (Diff.formatDiffReport diffs summary profileTypeName topN format),
                  None)).
Proof.
  destruct (CompareProfiles_returns baseline target profileTypeName topN format)
    as (valueIndex & baselineFuncs & targetFuncs & Hidx & Hb & Ht & Hrun).
  destruct (getValueIndex_returns baseline profileTypeName) as (i & Hi & Hi0 & _).
  rewrite Hidx in Hi. injection Hi as <-.
  exists valueIndex, baselineFuncs, targetFuncs.
  split; [exact Hidx|]. split; [exact Hi0|]. split; [exact Hb|]. split; [exact Ht|].
  split; [apply aggregateFunctionValues_sumsOf; assumption|].
  split; [apply aggregateFunctionValues_sumsOf; assumption|].
  split; [eapply aggregateFunctionValues_ranged, Hb|].
  split; [eapply aggregateFunctionValues_ranged, Ht|].
  exact Hrun.
Qed.

Lemma sumsOf_dom (valueIndex : Z) (samples : list Sample) (funcs : gmap string Z)
    (name : string) :
  sumsOf valueIndex samples funcs ->
  (name ∈ dom funcs <-> existsb (inFunction valueIndex name) samples = true).
Proof.
  intros Hs. rewrite elem_of_dom, (Hs name).
  destruct (existsb _ samples); split; intros Hx; try reflexivity; try discriminate.
  - eexists; reflexivity.
  - destruct Hx; discriminate.
Qed.

Lemma sumsOf_valueOf (valueIndex : Z) (samples : list Sample) (funcs : gmap string Z)
    (name : string) :
  sumsOf valueIndex samples funcs ->
  Diff.valueOf funcs name
  = if existsb (inFunction valueIndex name) samples
    then Int64.wrap (functionTotal valueIndex name samples) else 0.
Proof.
  intros Hs. unfold Diff.valueOf. rewrite (Hs name).
  destruct (existsb _ samples); reflexivity.
Qed.

(** X7.  The entries of a comparison hold the per-function sums of the
    two profiles.  For every baseline, target, kind, topN and format the
    comparison returns the rendering of a list of entries that names
    every function once; a function is listed exactly when the baseline
    or the target has a counted sample attributed to it; and the
    baseline (target) value of an entry is the 64-bit sum of the value
    column over the baseline's (target's) counted samples of that
    function, 0 when there is none.  Both profiles are read in the
    column found for the baseline. *)
Theorem comparison_entries_hold_function_sums `{Formatting} (baseline target : Profile)
    (profileTypeName : string) (topN : Z) (format : string) :
  exists valueIndex diffs summary,
    Diff.getValueIndex baseline profileTypeName = (valueIndex, None)
    /\ Diff.CompareProfiles baseline target profileTypeName topN format
       = Done (if String.eqb format "json" then
                 MarshalIndent (Diff.diffResultJSON profileTypeName topN diffs summary)
               else
                 (Table (Diff.formatDiffReport diffs summary profileTypeName topN format),
                  None))
    /\ NoDup (map Diff.FunctionName diffs)
    /\ (forall name,
           In name (map Diff.FunctionName diffs)
           <-> existsb (inFunction valueIndex name) (Sample_ baseline)
               || existsb (inFunction valueIndex name) (Sample_ target) = true)
    /\ Forall (fun d =>
                 Diff.BaselineValue d
                 = (if existsb (inFunction valueIndex (Diff.FunctionName d)) (Sample_ baseline)
                    then Int64.wrap (functionTotal valueIndex (Diff.FunctionName d)
                                       (Sample_ baseline))
                    else 0)
                 /\ Diff.TargetValue d
                    = (if existsb (inFunction valueIndex (Diff.FunctionName d)) (Sample_ target)
                       then Int64.wrap (functionTotal valueIndex (Diff.FunctionName d)
                                          (Sample_ target))
                       else 0))
              diffs.
Proof.
  destruct (CompareProfiles_run baseline target profileTypeName topN format)
    as (valueIndex & baselineFuncs & targetFuncs & Hidx & Hi0 & _ & _ & Hsb & Hst & _ & _ & Hrun).
  exists valueIndex, (Diff.rankedDiffs baselineFuncs targetFuncs),
    (Diff.computeDiffSummary baselineFuncs targetFuncs
       (Diff.rankedDiffs baselineFuncs targetFuncs)).
  split; [exact Hidx|]. split; [exact Hrun|].
  pose proof (rankedDiffs_names baselineFuncs targetFuncs) as Hnames.
  split; [|split].
  - rewrite Hnames. apply NoDup_elements.
  - intros name. rewrite <- list_elem_of_In, Hnames, elem_of_elements, elem_of_union.
    rewrite (sumsOf_dom _ _ _ name Hsb), (sumsOf_dom _ _ _ name Hst), orb_true_iff.
    reflexivity.
  - eapply Forall_impl; [apply rankedDiffs_computed|].
    intros d (Hb & Ht & _). cbv zeta in Hb, Ht. rewrite Hb at 1. rewrite Ht at 1.
    rewrite (sumsOf_valueOf _ _ _ _ Hsb), (sumsOf_valueOf _ _ _ _ Hst). split; reflexivity.
Qed.

(** X8.  The totals of the summary of a comparison.  The baseline
    (target) total is the 64-bit sum of the value column over the counted
    samples of the baseline (target); the total difference is their
    64-bit difference, and it is also the 64-bit sum of the differences
    of all entries. *)
Theorem comparison_totals_add_up `{Formatting} (baseline target : Profile)
    (profileTypeName : string) (topN : Z) (format : string) :
  exists valueIndex diffs summary,
    Diff.getValueIndex baseline profileTypeName = (valueIndex, None)
    /\ Diff.CompareProfiles baseline target profileTypeName topN format
       = Done (if String.eqb format "json" then
                 MarshalIndent (Diff.diffResultJSON profileTypeName topN diffs summary)
               else
                 (Table (Diff.formatDiffReport diffs summary profileTypeName topN format),
                  None))
    /\ Diff.BaselineTotal summary = Int64.wrap (countedTotal valueIndex (Sample_ baseline))
    /\ Diff.TargetTotal summary = Int64.wrap (countedTotal valueIndex (Sample_ target))
    /\ Diff.TotalDiff summary
       = Int64.wrap (Diff.TargetTotal summary - Diff.BaselineTotal summary)
    /\ Diff.TotalDiff summary = Int64.wrap (Zsum (map Diff.DiffValue diffs)).
Proof.
  destruct (CompareProfiles_run baseline target profileTypeName topN format)
    as (valueIndex & baselineFuncs & targetFuncs & Hidx & Hi0 & Hb & Ht & _ & _ & _ & _ & Hrun).
  exists valueIndex, (Diff.rankedDiffs baselineFuncs targetFuncs),
    (Diff.computeDiffSummary baselineFuncs targetFuncs
       (Diff.rankedDiffs baselineFuncs targetFuncs)).
  split; [exact Hidx|]. split; [exact Hrun|].
  pose proof (forRange_aggregateValue_sum valueIndex (Sample_ baseline) Hi0 ∅ baselineFuncs Hb)
    as Hsb.
  pose proof (forRange_aggregateValue_sum valueIndex (Sample_ target) Hi0 ∅ targetFuncs Ht)
    as Hst.
  rewrite sumOver_empty, Z.add_0_l in Hsb, Hst.
  unfold Diff.computeDiffSummary.
  cbn [Diff.BaselineTotal Diff.TargetTotal Diff.TotalDiff].
  rewrite !totalOf_sum, rankedDiffs_sum.
  split; [exact Hsb|]. split; [exact Hst|]. split; [reflexivity|].
  unfold Int64.sub. clear. wrap_lia.
Qed.


(** ** The differential comparator: classes and indicators *)

(** An entry computed from maps of 64-bit integers: an added function
    has a positive difference, a removed one a negative difference. *)
Lemma entry_signs (baselineFuncs targetFuncs : gmap string Z) (d : Diff.FunctionDiff) :
  ranged baselineFuncs -> ranged targetFuncs ->
  entryAsComputed baselineFuncs targetFuncs d ->
  (addedEntry d = true -> Diff.DiffValue d > 0)
  /\ (removedEntry d = true -> Diff.DiffValue d < 0).
Proof.
  intros Hrb Hrt (Hb & Ht & Hd & _). cbv zeta in *.
  pose proof (valueOf_ranged baselineFuncs (Diff.FunctionName d) Hrb) as Hib.
  pose proof (valueOf_ranged targetFuncs (Diff.FunctionName d) Hrt) as Hit.
  rewrite <- Hb in Hib. rewrite <- Ht in Hit.
  unfold addedEntry, removedEntry. rewrite Hd.
  unfold Int64.in_range, Int64.min_value, Int64.max_value in *.
  split; intros Hc; apply andb_true_iff in Hc; destruct Hc as [H1 H2]; wrap_lia.
Qed.

Lemma entry_classes (baselineFuncs targetFuncs : gmap string Z) (d : Diff.FunctionDiff) :
  ranged baselineFuncs -> ranged targetFuncs ->
  entryAsComputed baselineFuncs targetFuncs d ->
  (if addedEntry d then 1 else 0) + (if removedEntry d then 1 else 0)
  + (if improvedEntry d then 1 else 0) + (if regressedEntry d then 1 else 0)
  = (if changedEntry d then 1 else 0).
Proof.
  intros Hrb Hrt Hd. destruct (entry_signs _ _ _ Hrb Hrt Hd) as [Ha Hr].
  unfold improvedEntry, regressedEntry, changedEntry.
  destruct (addedEntry d) eqn:Ea; destruct (removedEntry d) eqn:Er; cbn [negb andb];
    rewrite ?andb_false_r, ?andb_true_r;
    try specialize (Ha eq_refl); try specialize (Hr eq_refl);
    destruct (Z.ltb_spec (Diff.DiffValue d) 0); destruct (Z.gtb_spec (Diff.DiffValue d) 0);
    destruct (Z.eqb_spec (Diff.DiffValue d) 0); cbn [negb]; lia.
Qed.

Lemma countIf_sum {A : Type} (t1 t2 t3 t4 t : A -> bool) (l : list A) :
  Forall (fun x => (if t1 x then 1 else 0) + (if t2 x then 1 else 0)
                   + (if t3 x then 1 else 0) + (if t4 x then 1 else 0)
                   = (if t x then 1 else 0)) l ->
  countIf t1 l + countIf t2 l + countIf t3 l + countIf t4 l = countIf t l.
Proof.
  induction 1 as [|x l Hx _ IH]; [reflexivity|]. rewrite !countIf_cons. lia.
Qed.

Lemma countIf_bounds {A : Type} (t : A -> bool) (l : list A) : 0 <= countIf t l <= len l.
Proof.
  induction l as [|x l IH]; [unfold countIf, len; simpl; lia|].
  rewrite countIf_cons. unfold len in *. cbn [length]. destruct (t x); lia.
Qed.

(** X9.  The four counters of the summary of a comparison count the
    functions whose value changed, each once: added, removed, improved
    and regressed are disjoint classes, an entry with a zero difference
    is in none of them, and every entry with a non-zero difference is in
    exactly one.  So the counters add up to the number of changed
    entries, which is at most the number of entries. *)
Theorem summary_counts_changed_functions `{Formatting} (baseline target : Profile)
    (profileTypeName : string) (topN : Z) (format : string) :
  exists diffs summary,
    Diff.CompareProfiles baseline target profileTypeName topN format
    = Done (if String.eqb format "json" then
              MarshalIndent (Diff.diffResultJSON profileTypeName topN diffs summary)
            else
              (Table (Diff.formatDiffReport diffs summary profileTypeName topN format),
               None))
    /\ Diff.AddedFuncs summary + Diff.RemovedFuncs summary
       + Diff.ImprovedFuncs summary + Diff.RegressedFuncs summary
       = countIf changedEntry diffs
    /\ countIf changedEntry diffs <= len diffs
    /\ Forall (fun d => (addedEntry d = true -> Diff.DiffValue d > 0)
                        /\ (removedEntry d = true -> Diff.DiffValue d < 0)) diffs.
Proof.
  destruct (CompareProfiles_run baseline target profileTypeName topN format)
    as (valueIndex & baselineFuncs & targetFuncs & _ & _ & _ & _ & _ & _ & Hrb & Hrt & Hrun).
  exists (Diff.rankedDiffs baselineFuncs targetFuncs),
    (Diff.computeDiffSummary baselineFuncs targetFuncs
       (Diff.rankedDiffs baselineFuncs targetFuncs)).
  split; [exact Hrun|].
  destruct (summary_counts baselineFuncs targetFuncs (Diff.rankedDiffs baselineFuncs targetFuncs))
    as (-> & -> & -> & ->).
  split; [|split].
  - apply countIf_sum. eapply Forall_impl; [apply rankedDiffs_computed|].
    intros d Hd. exact (entry_classes _ _ _ Hrb Hrt Hd).
  - apply countIf_bounds.
  - eapply Forall_impl; [apply rankedDiffs_computed|].
    intros d Hd. exact (entry_signs _ _ _ Hrb Hrt Hd).
Qed.

(** X10.  The markdown table of a comparison never shows the "new
    function" indicator.  Every row of the table is written with the red
    indicator when the difference is positive, with the cross when the
    function is removed, and with the green indicator otherwise: an added
    function has a positive difference, so it is shown in red, and the
    branch that selects the "new" indicator is never taken. *)
Theorem markdown_rows_never_show_new `{Formatting} (baseline target : Profile)
    (profileTypeName : string) (topN : Z) :
  exists diffs summary,
    Diff.CompareProfiles baseline target profileTypeName topN "markdown"
    = Done (Table (Diff.formatDiffReport diffs summary profileTypeName topN "markdown"), None)
    /\ Forall (fun d =>
                 (forall i, Diff.diffRow true i d = markdownRow (shownIndicator d) i d)
                 /\ shownIndicator d <> "🆕"
                 /\ (addedEntry d = true -> shownIndicator d = "🔴")) diffs.
Proof.
  destruct (CompareProfiles_run baseline target profileTypeName topN "markdown")
    as (valueIndex & baselineFuncs & targetFuncs & _ & _ & _ & _ & _ & _ & Hrb & Hrt & Hrun).
  exists (Diff.rankedDiffs baselineFuncs targetFuncs),
    (Diff.computeDiffSummary baselineFuncs targetFuncs
       (Diff.rankedDiffs baselineFuncs targetFuncs)).
  split; [exact Hrun|].
  eapply Forall_impl; [apply rankedDiffs_computed|].
  intros d Hd. destruct (entry_signs _ _ _ Hrb Hrt Hd) as [Ha _].
  unfold Diff.diffRow, markdownRow, shownIndicator.
  fold (addedEntry d). fold (removedEntry d).
  destruct (Z.gtb_spec (Diff.DiffValue d) 0) as [Hpos|Hle].
  - split; [reflexivity|]. split; [discriminate|reflexivity].
  - destruct (addedEntry d) eqn:Ea; [specialize (Ha eq_refl); lia|].
    split; [reflexivity|]. split; [|discriminate].
    destruct (removedEntry d); discriminate.
Qed.

(** ** The differential comparator: a profile against itself *)

Lemma percent_of_nothing (b : Z) :
  Int64.in_range b -> 0 < b ->
  Float64.mul (Float64.div (Float64.of_int 0) (Float64.of_int b)) (Float64.of_int 100)
  = Float64.zero.
Proof.
  intros Hb Hpos.
  destruct (of_int_finite b) as (m & e & Hfin);
    [unfold Int64.in_range, Int64.min_value, Int64.max_value in Hb; lia|lia|].
  rewrite Hfin. destruct (Z.ltb_spec b 0); [lia|]. reflexivity.
Qed.

Lemma foldl_count_unchanged (diffs : list Diff.FunctionDiff) (c : Diff.tally) :
  Forall (fun d => Diff.DiffValue d = 0 /\ Diff.BaselineValue d = Diff.TargetValue d) diffs ->
  foldl Diff.count c diffs = c.
Proof.
  intros Hall. revert c. induction Hall as [|d diffs [Hd Hbt] _ IH]; intros c; [reflexivity|].
  cbn [foldl]. rewrite <- (IH c) at 2. f_equal.
  unfold Diff.count. rewrite Hd, Hbt.
  destruct (Z.eqb_spec (Diff.TargetValue d) 0) as [->|Hne]; cbn [andb]; reflexivity.
Qed.

(** X12.  Comparing a profile with itself reports no change.  Every
    entry has equal baseline and target values, difference 0 and
    percentage 0; the total difference is 0 with percentage 0; and the
    four counters are 0. *)
Theorem comparison_with_itself `{Formatting} (p : Profile) (profileTypeName : string)
    (topN : Z) (format : string) :
  exists diffs summary,
    Diff.CompareProfiles p p profileTypeName topN format
    = Done (if String.eqb format "json" then
              MarshalIndent (Diff.diffResultJSON profileTypeName topN diffs summary)
            else
              (Table (Diff.formatDiffReport diffs summary profileTypeName topN format),
               None))
    /\ Forall (fun d => Diff.BaselineValue d = Diff.TargetValue d
                        /\ Diff.DiffValue d = 0
                        /\ Diff.DiffPercentage d = Float64.zero) diffs
    /\ Diff.TotalDiff summary = 0
    /\ Diff.TotalDiffPercent summary = Float64.zero
    /\ Diff.AddedFuncs summary = 0 /\ Diff.RemovedFuncs summary = 0
    /\ Diff.ImprovedFuncs summary = 0 /\ Diff.RegressedFuncs summary = 0.
Proof.
  destruct (CompareProfiles_run p p profileTypeName topN format)
    as (valueIndex & funcs & funcs' & _ & _ & Hb & Ht & _ & _ & Hr & _ & Hrun).
  rewrite Hb in Ht. injection Ht as <-.
  exists (Diff.rankedDiffs funcs funcs),
    (Diff.computeDiffSummary funcs funcs (Diff.rankedDiffs funcs funcs)).
  split; [exact Hrun|].
  assert (Forall (fun d => Diff.BaselineValue d = Diff.TargetValue d
                           /\ Diff.DiffValue d = 0
                           /\ Diff.DiffPercentage d = Float64.zero)
                 (Diff.rankedDiffs funcs funcs)) as Hall.
  { eapply Permutation_Forall; [symmetry; apply rankedDiffs_perm|].
    unfold Diff.computeFunctionDiffs. apply Forall_map, Forall_forall. intros name _.
    unfold Diff.functionDiff.
    cbn [Diff.BaselineValue Diff.TargetValue Diff.DiffValue Diff.DiffPercentage].
    pose proof (valueOf_ranged funcs name Hr) as Hv.
    assert (Int64.sub (Diff.valueOf funcs name) (Diff.valueOf funcs name) = 0) as ->.
    { unfold Int64.sub. rewrite Z.sub_diag. apply wrap_zero. }
    split; [reflexivity|]. split; [reflexivity|].
    unfold Diff.diffPercent.
    destruct (Z.gtb_spec (Diff.valueOf funcs name) 0) as [Hpos|_]; [|reflexivity].
    apply percent_of_nothing; [exact Hv|lia]. }
  split; [exact Hall|].
  unfold Diff.computeDiffSummary.
  cbn [Diff.TotalDiff Diff.TotalDiffPercent Diff.AddedFuncs Diff.RemovedFuncs
       Diff.ImprovedFuncs Diff.RegressedFuncs].
  assert (Int64.sub (Diff.totalOf funcs) (Diff.totalOf funcs) = 0) as ->.
  { unfold Int64.sub. rewrite Z.sub_diag. apply wrap_zero. }
  rewrite foldl_count_unchanged
    by (eapply Forall_impl; [exact Hall|]; intros d (? & ? & _); split; assumption).
  split; [reflexivity|]. split; [|repeat split].
  destruct (Z.gtb_spec (Diff.totalOf funcs) 0) as [Hpos|_]; [|reflexivity].
  apply percent_of_nothing; [apply totalOf_in_range|lia].
Qed.

(** ** Time series: the points of the series *)

Lemma addSample_spec (valueIndex objectIndex : Z) (totals : Z * Z) (sample : Sample) :
  Int64.in_range (fst totals) -> Int64.in_range (snd totals) ->
  exists totals',
    TimeSeries.addSample valueIndex objectIndex totals sample = Done totals'
    /\ fst totals' = Int64.wrap (fst totals + bytesOf valueIndex sample)
    /\ snd totals' = Int64.wrap (snd totals + bytesOf objectIndex sample).
Proof.
  intros Hb Ho. unfold TimeSeries.addSample, bytesOf.
  assert (forall idx total,
             Int64.in_range total ->
             exists total',
               (if (idx >=? 0) && (len (Value sample) >? idx)
                then v ← index (Value sample) idx; Done (Int64.add total v)
                else Done total) = Done total'
               /\ total' = Int64.wrap (total + (if (idx >=? 0) && (len (Value sample) >? idx)
                                               then valueAt idx sample else 0))) as Hone.
  { intros idx total Ht.
    destruct ((idx >=? 0) && (len (Value sample) >? idx)) eqn:Hguard.
    - apply andb_true_iff in Hguard as [Hge Hgt].
      apply Z.geb_le in Hge. apply Z.gtb_lt in Hgt.
      destruct (index_in_range (Value sample) idx) as [v Hv]; [lia|].
      rewrite Hv, bind_Done. apply index_valueAt in Hv. rewrite Hv.
      eexists. split; reflexivity.
    - eexists. split; [reflexivity|]. rewrite Z.add_0_r. symmetry. apply wrap_in_range, Ht. }
  destruct (Hone valueIndex (fst totals) Hb) as (b & -> & Hbv).
  destruct (Hone objectIndex (snd totals) Ho) as (o & -> & Hov).
  rewrite !bind_Done. eexists. split; [reflexivity|]. split; assumption.
Qed.

Lemma addSamples_spec (valueIndex objectIndex : Z) (samples : list Sample) :
  forall totals,
    Int64.in_range (fst totals) -> Int64.in_range (snd totals) ->
    exists totals',
      forRange (TimeSeries.addSample valueIndex objectIndex) totals samples = Done totals'
      /\ fst totals' = Int64.wrap (fst totals + Zsum (map (bytesOf valueIndex) samples))
      /\ snd totals' = Int64.wrap (snd totals + Zsum (map (bytesOf objectIndex) samples)).
Proof.
  induction samples as [|s samples IH]; intros totals Hb Ho.
  - exists totals. split; [reflexivity|]. unfold Zsum. cbn [map foldr]. rewrite !Z.add_0_r.
    split; symmetry; apply wrap_in_range; assumption.
  - rewrite forRange_cons.
    destruct (addSample_spec valueIndex objectIndex totals s Hb Ho) as (t1 & -> & Hb1 & Ho1).
    rewrite bind_Done.
    destruct (IH t1) as (t2 & -> & Hb2 & Ho2);
      [rewrite Hb1; apply wrap_range|rewrite Ho1; apply wrap_range|].
    exists t2. split; [reflexivity|]. rewrite Hb2, Ho2, Hb1, Ho1.
    unfold Zsum. cbn [map foldr]. split; wrap_lia.
Qed.

Lemma pointData_spec `{Formatting} `{Clock} (k : nat) (prof : Profile) (labels : list string)
    (label : string) :
  labels !! k = Some label ->
  TimeSeries.pointData (Z.of_nat k) prof labels = Done (pointOf k prof label).
Proof.
  intros Hlabel. unfold TimeSeries.pointData, pointOf, lastInuseSpace, lastInuseObjects, heapTotal.
  destruct (TimeSeries.heapColumns 0 (SampleType prof) (-1) (-1)) as [valueIndex objectIndex].
  destruct (addSamples_spec valueIndex objectIndex (Sample_ prof) (0, 0))
    as (totals & -> & Hb & Ho);
    [vm_compute; split; discriminate|vm_compute; split; discriminate|].
  rewrite bind_Done.
  assert (index labels (Z.of_nat k) = Done label) as ->.
  { apply index_Done. split; [lia|]. rewrite Nat2Z.id. exact Hlabel. }
  rewrite bind_Done. cbn [fst snd] in *. rewrite Hb, Ho, !Z.add_0_l. reflexivity.
Qed.

Lemma extractFrom_spec `{Formatting} `{Clock} (labels : list string) (profiles : list Profile) :
  forall (i : nat),
    (i + length profiles <= length labels)%nat ->
    exists series,
      TimeSeries.extractFrom (Z.of_nat i) profiles labels = Done series
      /\ length series = length profiles
      /\ forall k prof,
           profiles !! k = Some prof ->
           exists label,
             labels !! (i + k)%nat = Some label
             /\ series !! k = Some (pointOf (i + k) prof label).
Proof.
  induction profiles as [|prof profiles IH]; intros i Hlen.
  - exists []. split; [reflexivity|]. split; [reflexivity|]. intros k prof Hk. discriminate.
  - cbn [length] in Hlen.
    destruct (lookup_lt_is_Some_2 labels i ltac:(lia)) as [label Hlabel].
    destruct (IH (S i) ltac:(lia)) as (series & Hrun & Hlength & Hpoints).
    exists (pointOf i prof label :: series).
    cbn [TimeSeries.extractFrom]. rewrite (pointData_spec i prof labels label Hlabel), bind_Done.
    replace (Z.of_nat i + 1) with (Z.of_nat (S i)) by lia. rewrite Hrun, bind_Done.
    split; [reflexivity|]. split; [cbn [length]; lia|].
    intros [|k] prof' Hk.
    + injection Hk as <-. exists label. rewrite Nat.add_0_r. split; [exact Hlabel|reflexivity].
    + destruct (Hpoints k prof' Hk) as (label' & Hl' & Hs').
      exists label'. replace (i + S k)%nat with (S i + k)%nat by lia.
      split; [exact Hl'|exact Hs'].
Qed.

(** X14.  The series has one point per profile, in order.  When there
    are at least as many labels as profiles, [extractTimeSeriesData]
    returns a series of the length of the profile list whose point at
    position k carries the k-th label, the timestamp of minute k, the
    64-bit sum of the last column named "inuse_space" of the k-th profile
    over the samples that have a value in it, and the same sum for the
    last column named "inuse_objects"; a total is 0 when the profile
    does not declare the column. *)
Theorem series_points_follow_profiles `{Formatting} `{Clock} (profiles : list Profile)
    (labels : list string) :
  len profiles <= len labels ->
  exists series,
    TimeSeries.extractTimeSeriesData profiles labels = Done series
    /\ length series = length profiles
    /\ (forall k prof,
           profiles !! k = Some prof ->
           exists label,
             labels !! k = Some label /\ series !! k = Some (pointOf k prof label))
    /\ (forall prof, lastInuseSpace prof = -1 -> heapTotal (lastInuseSpace prof) prof = 0).
Proof.
  intros Hlen. unfold TimeSeries.extractTimeSeriesData.
  destruct (extractFrom_spec labels profiles 0%nat) as (series & Hrun & Hlength & Hpoints);
    [unfold len in Hlen; lia|].
  exists series. change (Z.of_nat 0) with 0 in Hrun.
  split; [exact Hrun|]. split; [exact Hlength|]. split; [exact Hpoints|].
  intros prof ->. unfold heapTotal, Zsum.
  induction (Sample_ prof) as [|s l IH]; [reflexivity|]. cbn [map foldr]. rewrite IH.
  reflexivity.
Qed.

(** ** Time series: the whole analysis *)

Lemma trendLoop_length `{Formatting} (markdown : bool) (trends : list TimeSeries.ObjectTrend) :
  forall i maxTrends lines,
    TimeSeries.trendLoop markdown i maxTrends trends = Done lines ->
    length lines = Z.to_nat (Z.min (maxTrends - i) (len trends)).
Proof.
  induction trends as [|trend trends IH]; intros i maxTrends lines Hrun.
  - injection Hrun as <-. unfold len. simpl. lia.
  - cbn [TimeSeries.trendLoop] in Hrun. unfold len. cbn [length].
    destruct (Z.ltb_spec i maxTrends) as [Hlt|Hge].
    + destruct (TimeSeries.trendRow markdown trend) as [line|]; [|discriminate].
      rewrite bind_Done in Hrun.
      destruct (TimeSeries.trendLoop markdown (i + 1) maxTrends trends) as [rest|] eqn:Hrest;
        [|discriminate].
      rewrite bind_Done in Hrun. injection Hrun as <-. cbn [length].
      rewrite (IH _ _ _ Hrest). unfold len. lia.
    + injection Hrun as <-. simpl. lia.
Qed.

(** What the analysis computes and returns once the preconditions hold. *)
Lemma analyzeSeries_run `{Formatting} `{Clock} (profiles : list Profile)
    (labels : list string) (format : string) :
  len profiles <= len labels ->
  exists series typeDataMap unranked summary lines,
    TimeSeries.extractTimeSeriesData profiles labels = Done series
    /\ length series = length profiles
    /\ TimeSeries.typeData profiles = Done typeDataMap
    /\ Forall2 (fun e t => TimeSeries.TypeName t = fst e
                           /\ TimeSeries.Values t = snd e
                           /\ TimeSeries.FormattedValues t = map FormatBytes (snd e)
                           /\ trendAsComputed (length profiles) t)
               (map_to_list typeDataMap) unranked
    /\ let trends := sort_Slice TimeSeries.byGrowth unranked in
       TimeSeries.analyzeObjectTrends profiles labels = Done (trends, None)
       /\ TimeSeries.computeTimeSeriesSummary series trends = Done summary
       /\ TimeSeries.trendLoop (String.eqb format "markdown") 0 (rowLimit 10 trends) trends
          = Done lines
       /\ TimeSeries.analyzeSeries profiles labels format
          = Done (if String.eqb format "json" then
                    MarshalIndent (TimeSeries.timeSeriesResultJSON series trends summary)
                  else
                    (Table {| header := TimeSeries.seriesHeader series summary
                                          (String.eqb format "markdown");
                              rows := lines;
                              footer := TimeSeries.seriesFooter (String.eqb format "markdown") |},
                     None)).
Proof.
  intros Hlabels.
  destruct (extractFrom_spec labels profiles 0%nat) as (series & Hseries & Hlength & _);
    [unfold len in Hlabels; lia|].
  change (Z.of_nat 0) with 0 in Hseries.
  change (TimeSeries.extractFrom 0 profiles labels)
    with (TimeSeries.extractTimeSeriesData profiles labels) in Hseries.
  destruct (analyzeObjectTrends_Done profiles labels)
    as (M & unranked & HM & _ & _ & Hall & Htrends).
  destruct (computeTimeSeriesSummary_Done series (sort_Slice TimeSeries.byGrowth unranked))
    as [summary Hsummary].
  destruct (trendLoop_Done (String.eqb format "markdown")
              (sort_Slice TimeSeries.byGrowth unranked)) with (i := 0)
    (maxTrends := rowLimit 10 (sort_Slice TimeSeries.byGrowth unranked)) as [lines Hlines].
  { rewrite sort_Slice_perm.
    refine (Forall2_right _ _ _ _ _ Hall).
    intros e t (_ & Hvalues & Hfmt' & _ & first & final & Hhead & _).
    rewrite Hfmt', length_map, <- Hvalues.
    destruct (TimeSeries.Values t); [discriminate | simpl; lia]. }
  exists series, M, unranked, summary, lines.
  split; [exact Hseries|]. split; [exact Hlength|]. split; [exact HM|]. split; [exact Hall|].
  cbv zeta. split; [exact Htrends|]. split; [exact Hsummary|]. split; [exact Hlines|].
  unfold TimeSeries.analyzeSeries. rewrite Hseries, Htrends, !bind_Done.
  cbn [fst snd]. rewrite Hsummary, bind_Done.
  destruct (String.eqb format "json"); [reflexivity|].
  unfold TimeSeries.formatTimeSeriesReport. rewrite Hlines, bind_Done. reflexivity.
Qed.

Lemma AnalyzeHeapTimeSeries_checked `{Formatting} `{Clock} (profiles : list Profile)
    (labels : list string) (format : string) :
  3 <= len profiles -> len labels = len profiles ->
  TimeSeries.AnalyzeHeapTimeSeries profiles labels format
  = TimeSeries.analyzeSeries profiles labels format.
Proof.
  intros H3 Hlabels. unfold TimeSeries.AnalyzeHeapTimeSeries.
  destruct (Z.ltb_spec (len profiles) 3); [lia|].
  destruct (Z.eqb_spec (len labels) (len profiles)); [reflexivity|contradiction].
Qed.

(** ** Time series: the summary *)

Lemma direction_is_one_of_three (points : nat) (t : TimeSeries.ObjectTrend) :
  trendAsComputed points t ->
  TimeSeries.TrendDirection t = "increasing"
  \/ TimeSeries.TrendDirection t = "stable"
  \/ TimeSeries.TrendDirection t = "decreasing".
Proof.
  intros (_ & firstVal & lastVal & _ & _ & _ & _ & _ & _ & _ & Hinc & Hdec & Hst).
  cbv zeta in *.
  destruct (Float64.gt (TimeSeries.GrowthPercent t) (Float64.of_int 10)) eqn:Hgt.
  - left. apply Hinc. reflexivity.
  - destruct (Float64.lt (TimeSeries.GrowthPercent t) (Float64.of_int (-10))) eqn:Hlt.
    + right. right. apply Hdec. reflexivity.
    + right. left. apply Hst. split; reflexivity.
Qed.

Lemma countDirection_foldl (points : nat) (trends : list TimeSeries.ObjectTrend) :
  Forall (trendAsComputed points) trends ->
  forall counts,
    fst (foldl TimeSeries.countDirection counts trends) = fst counts + countIf increasing trends
    /\ fst (foldl TimeSeries.countDirection counts trends)
       + snd (foldl TimeSeries.countDirection counts trends)
       = fst counts + snd counts + len trends.
Proof.
  induction 1 as [|t trends Ht _ IH]; intros counts.
  - unfold countIf, len. simpl. lia.
  - cbn [foldl]. destruct (IH (TimeSeries.countDirection counts t)) as [-> ->].
    rewrite countIf_cons. unfold len. cbn [length].
    unfold TimeSeries.countDirection, increasing.
    destruct (direction_is_one_of_three points t Ht) as [-> | [-> | ->]]; cbn; lia.
Qed.

(** X13.  The summary of a time-series analysis.  With at least three
    profiles and as many labels, the analysis computes a summary whose
    number of data points is the number of profiles, whose time span is
    that number less one, whose total growth is the 64-bit difference of
    the total bytes of the last and the first point, whose count of
    growing types is the number of trends marked "increasing", and whose
    count of stable types takes all the others, the "decreasing" ones
    included: the two counts add up to the number of trends. *)
Theorem time_series_summary `{Formatting} `{Clock} (profiles : list Profile)
    (labels : list string) (format : string) :
  3 <= len profiles -> len labels = len profiles ->
  exists series trends summary,
    TimeSeries.extractTimeSeriesData profiles labels = Done series
    /\ TimeSeries.analyzeObjectTrends profiles labels = Done (trends, None)
    /\ TimeSeries.computeTimeSeriesSummary series trends = Done summary
    /\ (format = "json" ->
        TimeSeries.AnalyzeHeapTimeSeries profiles labels format
        = Done (MarshalIndent (TimeSeries.timeSeriesResultJSON series trends summary)))
    /\ TimeSeries.DataPoints summary = len profiles
    /\ TimeSeries.TimeSpanMinutes summary = Float64.of_int (len profiles - 1)
    /\ (exists first final,
           head series = Some first /\ last series = Some final
           /\ TimeSeries.TotalGrowth summary
              = Int64.sub (TimeSeries.TotalBytes final) (TimeSeries.TotalBytes first))
    /\ TimeSeries.GrowingObjects summary = countIf increasing trends
    /\ TimeSeries.GrowingObjects summary + TimeSeries.StableObjects summary = len trends.
Proof.
  intros H3 Hlabels.
  destruct (analyzeSeries_run profiles labels format ltac:(lia))
    as (series & M & unranked & summary & lines & Hseries & Hlength & _ & Hall & Hrun).
  cbv zeta in Hrun. destruct Hrun as (Htrends & Hsummary & _ & Hrun).
  exists series, (sort_Slice TimeSeries.byGrowth unranked), summary.
  split; [exact Hseries|]. split; [exact Htrends|]. split; [exact Hsummary|].
  split.
  { intros ->. rewrite AnalyzeHeapTimeSeries_checked by assumption. exact Hrun. }
  assert (len series = len profiles) as Hlen by (unfold len; rewrite Hlength; reflexivity).
  unfold TimeSeries.computeTimeSeriesSummary in Hsummary.
  destruct (Z.ltb_spec (len series) 2); [lia|].
  destruct (nonempty_ends series) as (first & final & Hfirst & Hfinal);
    [unfold len in *; lia|].
  rewrite (index_last series final Hfinal), bind_Done in Hsummary.
  rewrite (index_first series first Hfirst), bind_Done in Hsummary.
  injection Hsummary as <-.
  cbn [TimeSeries.DataPoints TimeSeries.TimeSpanMinutes TimeSeries.TotalGrowth
       TimeSeries.GrowingObjects TimeSeries.StableObjects]. rewrite Hlen.
  assert (Forall (trendAsComputed (length profiles)) (sort_Slice TimeSeries.byGrowth unranked))
    as Hcomputed.
  { rewrite sort_Slice_perm. refine (Forall2_right _ _ _ _ _ Hall). intros e t Ht. apply Ht. }
  destruct (countDirection_foldl _ _ Hcomputed (0, 0)) as [Hgrow Hsum]. cbn [fst snd] in *.
  split; [reflexivity|]. split; [reflexivity|].
  split; [exists first, final; repeat split; assumption|].
  split; [rewrite Hgrow; lia|rewrite Hsum; lia].
Qed.

(** ** Time series: the report *)

(** X15.  The report of a time-series analysis lists every point and at
    most ten trends.  With at least three profiles and as many labels, a
    format other than "json" yields a report whose header holds one line
    per point of the series, in order, and whose ranked rows are those of
    the first min(10, number of trends) trends; the "json" format encodes
    an object that holds every point and every trend. *)
Theorem time_series_report_shows_ten_trends `{Formatting} `{Clock} (profiles : list Profile)
    (labels : list string) (format : string) :
  3 <= len profiles -> len labels = len profiles ->
  exists series trends,
    TimeSeries.extractTimeSeriesData profiles labels = Done series
    /\ TimeSeries.analyzeObjectTrends profiles labels = Done (trends, None)
    /\ (format <> "json" ->
        exists t above below,
          TimeSeries.AnalyzeHeapTimeSeries profiles labels format = Done (Table t, None)
          /\ length (rows t) = Nat.min 10 (length trends)
          /\ header t
             = above ++ map (TimeSeries.seriesLine (String.eqb format "markdown")) series
                     ++ below)
    /\ (format = "json" ->
        exists j,
          TimeSeries.AnalyzeHeapTimeSeries profiles labels format = Done (MarshalIndent j)
          /\ field "series" j = Some (JArray (map TimeSeries.seriesJSON series))
          /\ field "trends" j = Some (JArray (map TimeSeries.trendJSON trends))).
Proof.
  intros H3 Hlabels.
  destruct (analyzeSeries_run profiles labels format ltac:(lia))
    as (series & M & unranked & summary & lines & Hseries & Hlength & _ & Hall & Hrun).
  cbv zeta in Hrun. destruct Hrun as (Htrends & Hsummary & Hlines & Hrun).
  rewrite <- (AnalyzeHeapTimeSeries_checked profiles labels format H3 Hlabels) in Hrun.
  exists series, (sort_Slice TimeSeries.byGrowth unranked).
  split; [exact Hseries|]. split; [exact Htrends|]. split.
  - intros Hfmt. destruct (String.eqb_spec format "json") as [|_]; [contradiction|].
    destruct (String.eqb format "markdown") eqn:Hmd.
    + eexists _, _, _. split; [exact Hrun|]. cbn [rows header]. split.
      * rewrite (trendLoop_length _ _ _ _ _ Hlines), rowLimit_min. unfold len. lia.
      * unfold TimeSeries.seriesHeader. reflexivity.
    + eexists _, _, _. split; [exact Hrun|]. cbn [rows header]. split.
      * rewrite (trendLoop_length _ _ _ _ _ Hlines), rowLimit_min. unfold len. lia.
      * unfold TimeSeries.seriesHeader. reflexivity.
  - intros ->. eexists. split; [exact Hrun|]. split; reflexivity.
Qed.

(** ** Time series: every figure can be encoded *)

Lemma rate_bounded (growth points : Z) :
  Int64.in_range growth -> Int64.in_range points -> points <> 0 ->
  bounded_by 48
    (Float64.div
       (Float64.div (Float64.div (Float64.of_int growth) (Float64.of_int points))
                    (Float64.of_int 1024))
       (Float64.of_int 1024)).
Proof.
  intros Hg Hp Hnz.
  assert (within 11 11 (Float64.of_int 1024)) as Hk by (vm_compute; split; discriminate).
  apply (div_bounded 57 11 11); [|exact Hk|lia].
  apply (div_bounded 66 11 11); [|exact Hk|lia].
  apply (div_bounded 65 1 65); [apply of_int_bounded, Hg|apply of_int_within; assumption|lia].
Qed.

Lemma trend_bounded (points : nat) (t : TimeSeries.ObjectTrend) :
  (0 < points)%nat -> Z.of_nat points <= Int64.max_value ->
  trendAsComputed points t -> Forall Int64.in_range (TimeSeries.Values t) ->
  bounded_by 74 (TimeSeries.GrowthPercent t) /\ bounded_by 48 (TimeSeries.GrowthRate t).
Proof.
  intros Hpos Hmax (Hlen & firstVal & lastVal & Hhead & _ & Hg & _ & Hpct & Hzero & Hrate & _)
    Hvalues.
  assert (Int64.in_range firstVal) as Hfirst.
  { rewrite Forall_forall in Hvalues. apply Hvalues.
    destruct (TimeSeries.Values t) as [|x l]; [discriminate|].
    injection Hhead as <-. apply list_elem_of_here. }
  assert (Int64.in_range (TimeSeries.GrowthBytes t)) as Hgrowth
    by (rewrite Hg; apply wrap_range).
  split.
  - destruct (Z_gt_le_dec firstVal 0) as [Hgt|Hle].
    + rewrite (Hpct Hgt). apply percent_bounded; [assumption|assumption|lia].
    + rewrite (Hzero Hle). exact I.
  - rewrite Hrate. unfold growthPerPoint. apply rate_bounded; [assumption| |].
    + unfold len. rewrite Hlen. unfold Int64.in_range, Int64.min_value, Int64.max_value in *. lia.
    + unfold len. rewrite Hlen. lia.
Qed.

Lemma trendJSON_supported (t : TimeSeries.ObjectTrend) (B1 B2 : Z) :
  bounded_by B1 (TimeSeries.GrowthPercent t) -> bounded_by B2 (TimeSeries.GrowthRate t) ->
  json_supported (TimeSeries.trendJSON t) = true.
Proof.
  intros Hp Hr. destruct (bounded_is_number _ _ Hp) as [Hn1 Hi1].
  destruct (bounded_is_number _ _ Hr) as [Hn2 Hi2].
  unfold TimeSeries.trendJSON. cbn [json_supported forallb snd].
  rewrite Hn1, Hi1, Hn2, Hi2.
  assert (forall l, forallb json_supported (map JInt l) = true) as ->
    by (induction l; [reflexivity|assumption]).
  assert (forall l, forallb json_supported (map JString l) = true) as ->
    by (induction l; [reflexivity|assumption]).
  reflexivity.
Qed.

Lemma seriesJSON_supported (data : TimeSeries.TimeSeriesData) :
  json_supported (TimeSeries.seriesJSON data) = true.
Proof.
  unfold TimeSeries.seriesJSON. destruct (TimeSeries.TotalObjects data =? 0); reflexivity.
Qed.

(** Past its two checks, the analysis of at least three profiles returns a
    result and no error. *)
Lemma analyzeSeries_succeeds `{Formatting} `{Clock} (profiles : list Profile)
    (labels : list string) (format : string) :
  3 <= len profiles <= Int64.max_value -> len labels = len profiles ->
  exists out,
    TimeSeries.analyzeSeries profiles labels format = Done (out, None)
    /\ (format = "json" -> exists j, out = JSON j)
    /\ (format <> "json" -> exists t, out = Table t).
Proof.
  intros [H3 Hmax] Hlabels.
  destruct (analyzeSeries_run profiles labels format ltac:(lia))
    as (series & M & unranked & summary & lines & Hseries & Hlength & HM & Hall & Hrun).
  cbv zeta in Hrun. destruct Hrun as (Htrends & Hsummary & Hlines & Hrun).
  rewrite Hrun.
  destruct (String.eqb_spec format "json") as [->|Hfmt];
    [|eexists; split; [reflexivity|]; split; [congruence|eauto]].
  assert (json_supported
            (TimeSeries.timeSeriesResultJSON series (sort_Slice TimeSeries.byGrowth unranked)
               summary) = true) as Hjson.
  { unfold TimeSeries.timeSeriesResultJSON, TimeSeries.timeSeriesSummaryJSON.
    cbn [json_supported forallb snd].
    assert (forallb json_supported (map TimeSeries.seriesJSON series) = true) as ->.
    { apply forallb_map_true, Forall_forall. intros data _. apply seriesJSON_supported. }
    assert (forallb json_supported
              (map TimeSeries.trendJSON (sort_Slice TimeSeries.byGrowth unranked)) = true) as ->.
    { apply forallb_map_true. rewrite sort_Slice_perm.
      pose proof (typeData_ranged profiles M HM) as Hranged.
      assert (Forall (fun e : string * list Z => Forall Int64.in_range (snd e)) (map_to_list M))
        as Hentries.
      { apply Forall_forall. intros [name values] Hin. apply elem_of_map_to_list in Hin.
        exact (Hranged name values Hin). }
      clear -Hall Hentries H3 Hmax.
      induction Hall as [|e t entries trends (_ & Hv & _ & Ht) _ IH]; [constructor|].
      apply Forall_cons in Hentries. destruct Hentries as [He Hrest].
      constructor; [|apply IH, Hrest].
      destruct (trend_bounded (length profiles) t) as [Hp Hr];
        [unfold len in H3; lia|exact Hmax|exact Ht|rewrite Hv; exact He|].
      eapply trendJSON_supported; eassumption. }
    assert (len series = len profiles) as Hlen by (unfold len; rewrite Hlength; reflexivity).
    unfold TimeSeries.computeTimeSeriesSummary in Hsummary.
    destruct (Z.ltb_spec (len series) 2); [lia|].
    destruct (nonempty_ends series) as (first & final & Hfirst & Hfinal);
      [unfold len in *; lia|].
    rewrite (index_last series final Hfinal), bind_Done in Hsummary.
    rewrite (index_first series first Hfirst), bind_Done in Hsummary.
    apply (f_equal (fun r => match r with Done x => x | Panic _ => summary end)) in Hsummary.
    subst summary.
    cbv [TimeSeries.TimeSpanMinutes TimeSeries.AvgGrowthRate].
    assert (Int64.in_range (len series - 1)) as Hspan
      by (unfold Int64.in_range, Int64.min_value, Int64.max_value in *; lia).
    destruct (bounded_is_number _ _ (of_int_bounded _ Hspan)) as [-> ->].
    destruct (bounded_is_number _ _
                (rate_bounded (Int64.sub (TimeSeries.TotalBytes final)
                                         (TimeSeries.TotalBytes first))
                              (len series - 1) (wrap_range _) Hspan ltac:(lia))) as [-> ->].
    reflexivity. }
  unfold MarshalIndent. rewrite Hjson.
  eexists. split; [reflexivity|]. split; [eauto|congruence].
Qed.

(** X16.  A time-series analysis of valid input never fails.  With at
    least three profiles (and no more than a Go slice can hold) and as
    many labels, [AnalyzeHeapTimeSeries] returns a result with a nil
    error in every format: no index is out of range, and every
    percentage and rate of the result is a finite number, so that the
    JSON encoder accepts it. *)
Theorem time_series_never_fails `{Formatting} `{Clock} (profiles : list Profile)
    (labels : list string) (format : string) :
  3 <= len profiles <= Int64.max_value -> len labels = len profiles ->
  exists out,
    TimeSeries.AnalyzeHeapTimeSeries profiles labels format = Done (out, None)
    /\ (format = "json" -> exists j, out = JSON j)
    /\ (format <> "json" -> exists t, out = Table t).
Proof.
  intros [H3 Hmax] Hlabels.
  rewrite (AnalyzeHeapTimeSeries_checked profiles labels format H3 Hlabels).
  apply analyzeSeries_succeeds; [split; assumption|exact Hlabels].
Qed.

(** ** Time series: the growing series of the tests *)

(** The points of the growing series. *)
Lemma growing_series_points :
  exists series,
    TimeSeries.extractTimeSeriesData growingSeries ["a"; "b"; "c"] = Done series
    /\ map TimeSeries.Label series = ["a"; "b"; "c"]
    /\ map TimeSeries.TotalBytes series = [10485760; 20971520; 52428800]
    /\ map TimeSeries.TotalObjects series = [100; 100; 100]
    /\ forall k prof,
         growingSeries !! k = Some prof ->
         exists label,
           ["a"; "b"; "c"] !! k = Some label /\ series !! k = Some (pointOf k prof label).
Proof.
  destruct (@series_points_follow_profiles plainFormatting fixedClock growingSeries
              ["a"; "b"; "c"]) as (series & Hseries & _ & Hpoints & _);
    [vm_compute; discriminate|].
  exists series. split; [exact Hseries|].
  vm_compute in Hseries. injection Hseries as <-.
  split; [reflexivity|]. split; [reflexivity|]. split; [reflexivity|]. exact Hpoints.
Defined.

(** The summary of the growing series: three points, one growing type. *)
Lemma growing_series_summary :
  exists series trends summary,
    TimeSeries.extractTimeSeriesData growingSeries ["a"; "b"; "c"] = Done series
    /\ TimeSeries.analyzeObjectTrends growingSeries ["a"; "b"; "c"] = Done (trends, None)
    /\ TimeSeries.computeTimeSeriesSummary series trends = Done summary
    /\ TimeSeries.DataPoints summary = 3
    /\ TimeSeries.TotalGrowth summary = 41943040
    /\ TimeSeries.GrowingObjects summary = 1
    /\ TimeSeries.GrowingObjects summary + TimeSeries.StableObjects summary = len trends.
Proof.
  destruct (@time_series_summary plainFormatting fixedClock growingSeries ["a"; "b"; "c"] "text")
    as (series & trends & summary & Hseries & Htrends & Hsummary & _ & Hpoints & _ & _
        & _ & Hsum);
    [vm_compute; discriminate|reflexivity|].
  exists series, trends, summary.
  split; [exact Hseries|]. split; [exact Htrends|]. split; [exact Hsummary|].
  split; [exact Hpoints|].
  vm_compute in Hseries. injection Hseries as <-.
  vm_compute in Htrends. injection Htrends as <-.
  vm_compute in Hsummary. injection Hsummary as <-.
  split; [reflexivity|]. split; [reflexivity|]. exact Hsum.
Defined.

(** The report of the growing series: three points, one trend. *)
Lemma growing_series_report :
  exists t,
    TimeSeries.AnalyzeHeapTimeSeries growingSeries ["a"; "b"; "c"] "text" = Done (Table t, None)
    /\ length (rows t) = 1%nat.
Proof.
  destruct (@time_series_report_shows_ten_trends plainFormatting fixedClock growingSeries
              ["a"; "b"; "c"] "text")
    as (series & trends & _ & Htrends & Htable & _);
    [vm_compute; discriminate|reflexivity|].
  destruct Htable as (t & above & below & Hrun & Hrows & _); [discriminate|].
  exists t. split; [exact Hrun|]. rewrite Hrows.
  vm_compute in Htrends. injection Htrends as <-. reflexivity.
Defined.

(** The growing series is analysed without an error in the three formats. *)
Lemma growing_series_is_analysed :
  (exists t, TimeSeries.AnalyzeHeapTimeSeries growingSeries ["a"; "b"; "c"] "text"
             = Done (Table t, None))
  /\ (exists t, TimeSeries.AnalyzeHeapTimeSeries growingSeries ["a"; "b"; "c"] "markdown"
                = Done (Table t, None))
  /\ (exists j, TimeSeries.AnalyzeHeapTimeSeries growingSeries ["a"; "b"; "c"] "json"
                = Done (JSON j, None)).
Proof.
  split; [|split].
  - destruct (@time_series_never_fails plainFormatting fixedClock growingSeries
                ["a"; "b"; "c"] "text") as (out & Hrun & _ & Htable);
      [vm_compute; split; discriminate|reflexivity|].
    destruct Htable as [t ->]; [discriminate|]. exists t. exact Hrun.
  - destruct (@time_series_never_fails plainFormatting fixedClock growingSeries
                ["a"; "b"; "c"] "markdown") as (out & Hrun & _ & Htable);
      [vm_compute; split; discriminate|reflexivity|].
    destruct Htable as [t ->]; [discriminate|]. exists t. exact Hrun.
  - destruct (@time_series_never_fails plainFormatting fixedClock growingSeries
                ["a"; "b"; "c"] "json") as (out & Hrun & Hjson & _);
      [vm_compute; split; discriminate|reflexivity|].
    destruct Hjson as [j ->]; [reflexivity|]. exists j. exact Hrun.
Defined.

(** ** Time series: the values of each type *)

(** The per-type sums of one profile. *)
Lemma addTypeValue_cases (valueIndex : Z) (typeValues : gmap string Z) (s : Sample) :
  0 <= valueIndex ->
  TimeSeries.addTypeValue valueIndex typeValues s
  = Done (if len (Value s) >? valueIndex then
            <[TimeSeries.getObjectTypeFromSample s :=
                Int64.add (Diff.valueOf typeValues (TimeSeries.getObjectTypeFromSample s))
                          (valueAt valueIndex s)]> typeValues
          else typeValues).
Proof.
  intros Hi. unfold TimeSeries.addTypeValue.
  destruct (Z.leb_spec (len (Value s)) valueIndex) as [Hle|Hgt];
    destruct (Z.gtb_spec (len (Value s)) valueIndex) as [Hgt'|Hle']; try lia; [reflexivity|].
  destruct (index_in_range (Value s) valueIndex ltac:(lia)) as (v & Hv).
  rewrite Hv, bind_Done. apply index_valueAt in Hv. subst v. reflexivity.
Qed.

Lemma addTypeValues_lookup (valueIndex : Z) (rest : list Sample) :
  0 <= valueIndex ->
  forall (processed : list Sample) (typeValues : gmap string Z),
    (forall name,
        typeValues !! name
        = if existsb (inType valueIndex name) processed
          then Some (Int64.wrap (Zsum (map (valueAt valueIndex)
                                           (List.filter (inType valueIndex name) processed))))
          else None) ->
    exists typeValues',
      forRange (TimeSeries.addTypeValue valueIndex) typeValues rest = Done typeValues'
      /\ forall name,
           typeValues' !! name
           = if existsb (inType valueIndex name) (processed ++ rest)
             then Some (Int64.wrap
                          (Zsum (map (valueAt valueIndex)
                                     (List.filter (inType valueIndex name) (processed ++ rest)))))
             else None.
Proof.
  intros Hi. induction rest as [|s rest IH]; intros processed typeValues Hinv.
  - exists typeValues. split; [reflexivity|]. rewrite app_nil_r. exact Hinv.
  - rewrite forRange_cons, (addTypeValue_cases valueIndex typeValues s Hi), bind_Done.
    replace (processed ++ s :: rest) with ((processed ++ [s]) ++ rest)
      by (rewrite <- app_assoc; reflexivity).
    apply IH. intros name.
    rewrite existsb_app, List.filter_app, map_app, Zsum_app. cbn [existsb List.filter].
    rewrite orb_false_r. unfold inType at 2 4.
    destruct (Z.gtb_spec (len (Value s)) valueIndex) as [Hgt|Hle]; cbn [andb].
    + destruct (decide (TimeSeries.getObjectTypeFromSample s = name)) as [Heq|Hne].
      * rewrite bool_decide_eq_true_2 by exact Heq. rewrite orb_true_r. subst name.
        rewrite lookup_insert_eq. f_equal. unfold Diff.valueOf. rewrite Hinv.
        destruct (existsb _ processed) eqn:Hex; cbn [from_option]; unfold id.
        -- unfold Zsum. cbn [map foldr]. wrap_lia.
        -- rewrite (filter_none _ _ Hex). unfold Zsum. cbn [map foldr]. wrap_lia.
      * rewrite bool_decide_eq_false_2 by exact Hne. rewrite orb_false_r.
        rewrite lookup_insert_ne by exact Hne. unfold Zsum at 2. cbn [map foldr].
        rewrite Z.add_0_r. apply Hinv.
    + rewrite orb_false_r. unfold Zsum at 2. cbn [map foldr]. rewrite Z.add_0_r. apply Hinv.
Qed.

Lemma typeValuesOf_lookup (prof : Profile) (typeName : string) :
  typeValuesOf prof !! typeName
  = if hasType prof typeName then Some (typeValue prof typeName) else None.
Proof.
  unfold typeValuesOf, typeValue, hasType. cbv zeta.
  destruct (Z.eqb_spec (TimeSeries.firstInuseSpace 0 (SampleType prof)) (-1)) as [E|Hne].
  - rewrite E. cbn. apply lookup_empty.
  - cbn [negb andb].
    assert (0 <= TimeSeries.firstInuseSpace 0 (SampleType prof)) as Hi
      by (pose proof (firstInuseSpace_bounds (SampleType prof) 0); lia).
    destruct (addTypeValues_lookup _ (Sample_ prof) Hi [] ∅) as (tv & -> & Hlookup).
    { intros name. apply lookup_empty. }
    cbn [app] in Hlookup. rewrite Hlookup.
    destruct (existsb _ (Sample_ prof)); reflexivity.
Qed.

Lemma typeValue_absent (prof : Profile) (typeName : string) :
  hasType prof typeName = false -> typeValue prof typeName = 0.
Proof. intros Hno. unfold typeValue. cbv zeta. rewrite Hno. reflexivity. Qed.

Lemma typeValue_valueOf (prof : Profile) (typeName : string) :
  Diff.valueOf (typeValuesOf prof) typeName = typeValue prof typeName.
Proof.
  unfold Diff.valueOf. rewrite typeValuesOf_lookup.
  destruct (hasType prof typeName) eqn:Hh; [reflexivity|].
  symmetry. apply typeValue_absent, Hh.
Qed.

Lemma recordValue_step (points i : nat) (typeDataMap : gmap string (list Z))
    (typeName : string) (v : Z) :
  (forall name values, typeDataMap !! name = Some values -> length values = points) ->
  (i < points)%nat ->
  TimeSeries.recordValue (Z.of_nat points) (Z.of_nat i) typeDataMap (typeName, v)
  = Done (<[typeName := <[i := v]> (default (replicate points 0) (typeDataMap !! typeName))]>
            typeDataMap).
Proof.
  intros Hshape Hi. unfold TimeSeries.recordValue. cbn [fst snd]. cbv zeta.
  rewrite !Nat2Z.id.
  assert (length (default (replicate points 0) (typeDataMap !! typeName)) = points) as Hlen.
  { destruct (typeDataMap !! typeName) as [vals|] eqn:Hl; cbn [from_option]; unfold id;
      [exact (Hshape _ _ Hl)|apply length_replicate]. }
  destruct (typeDataMap !! typeName) as [vals|]; cbn [from_option] in *; unfold id in *.
  - destruct (Z.leb_spec 0 (Z.of_nat i)); [|lia].
    destruct (Z.ltb_spec (Z.of_nat i) (len vals)); [|unfold len in *; lia]. reflexivity.
  - destruct (Z.leb_spec 0 (Z.of_nat i)); [|lia].
    destruct (Z.ltb_spec (Z.of_nat i) (len (replicate points 0)));
      [|unfold len in *; lia]. reflexivity.
Qed.

(** The loop [for typeName, value := range typeValues] at time point [i],
    type by type. *)
Lemma recordValues_lookup (points i : nat) (entries : list (string * Z)) :
  NoDup (entries.*1) -> (i < points)%nat ->
  forall typeDataMap : gmap string (list Z),
    (forall typeName values, typeDataMap !! typeName = Some values -> length values = points) ->
    exists typeDataMap',
      forRange (TimeSeries.recordValue (Z.of_nat points) (Z.of_nat i)) typeDataMap entries
      = Done typeDataMap'
      /\ (forall typeName values,
             typeDataMap' !! typeName = Some values -> length values = points)
      /\ forall typeName,
           typeDataMap' !! typeName
           = match (list_to_map entries : gmap string Z) !! typeName with
             | Some v =>
                 Some (<[i := v]> (default (replicate points 0) (typeDataMap !! typeName)))
             | None => typeDataMap !! typeName
             end.
Proof.
  intros Hnd Hi. induction entries as [|[name v] entries IH]; intros M Hshape.
  - exists M. split; [reflexivity|]. split; [exact Hshape|]. intros T.
    cbn [list_to_map foldr]. rewrite lookup_empty. reflexivity.
  - rewrite fmap_cons in Hnd. cbn [fst] in Hnd.
    apply NoDup_cons in Hnd. destruct Hnd as [Hfresh Hnd].
    rewrite forRange_cons, (recordValue_step points i M name v Hshape Hi), bind_Done.
    assert (length (default (replicate points 0) (M !! name)) = points) as Hlen.
    { destruct (M !! name) as [vals|] eqn:Hl; cbn [from_option]; unfold id;
        [exact (Hshape _ _ Hl)|apply length_replicate]. }
    destruct (IH Hnd (<[name := <[i := v]> (default (replicate points 0) (M !! name))]> M))
      as (M' & Hrun & Hshape' & Hlookup).
    { intros T vals. destruct (decide (T = name)) as [->|Hne].
      - rewrite lookup_insert_eq. intros [= <-]. rewrite length_insert. exact Hlen.
      - rewrite lookup_insert_ne by congruence. apply Hshape. }
    exists M'. split; [exact Hrun|]. split; [exact Hshape'|].
    intros T. rewrite Hlookup. cbn [list_to_map foldr fst snd].
    destruct (decide (T = name)) as [->|Hne].
    + rewrite lookup_insert_eq.
      assert ((list_to_map entries : gmap string Z) !! name = None) as ->.
      { apply not_elem_of_list_to_map_1. exact Hfresh. }
      rewrite lookup_insert_eq. reflexivity.
    + rewrite !lookup_insert_ne by congruence. reflexivity.
Qed.

Lemma hasType_dom (prof : Profile) (typeName : string) :
  typeValuesOf prof !! typeName = None <-> hasType prof typeName = false.
Proof.
  rewrite typeValuesOf_lookup. destruct (hasType prof typeName); split; congruence.
Qed.

Lemma replicate_insert_zero (n i : nat) (v : Z) :
  (i < n)%nat -> <[i := v]> (replicate n 0) = replicate i 0 ++ v :: replicate (n - S i) 0.
Proof.
  revert n. induction i as [|i IH]; intros [|n] Hlt; try lia.
  - cbn. rewrite Nat.sub_0_r. reflexivity.
  - cbn [replicate]. cbn. f_equal. apply IH. lia.
Qed.

Lemma map_absent (processed : list Profile) (typeName : string) :
  existsb (fun prof => hasType prof typeName) processed = false ->
  map (fun prof => typeValue prof typeName) processed = replicate (length processed) 0.
Proof.
  induction processed as [|prof processed IH]; [reflexivity|]. cbn [existsb map length replicate].
  intros Hno. apply orb_false_iff in Hno. destruct Hno as [Hp Hrest].
  rewrite (typeValue_absent _ _ Hp), (IH Hrest). reflexivity.
Qed.

Lemma insert_at_end (l : list Z) (n : nat) (v : Z) :
  <[length l := v]> (l ++ replicate (S n) 0) = (l ++ [v]) ++ replicate n 0.
Proof.
  induction l as [|x l IH]; [reflexivity|]. cbn. f_equal. exact IH.
Qed.

(** One profile more in the table. *)
Lemma recordProfile_table (points : nat) (processed : list Profile)
    (typeDataMap : gmap string (list Z)) (prof : Profile) :
  (length processed < points)%nat ->
  tableOf points processed typeDataMap ->
  exists typeDataMap',
    TimeSeries.recordProfile (Z.of_nat points) (Z.of_nat (length processed), typeDataMap) prof
    = Done (Z.of_nat (length (processed ++ [prof])), typeDataMap')
    /\ tableOf points (processed ++ [prof]) typeDataMap'.
Proof.
  intros Hlt Hinv.
  assert (forall M' : gmap string (list Z),
             (forall typeName,
                 M' !! typeName
                 = match typeValuesOf prof !! typeName with
                   | Some v =>
                       Some (<[length processed := v]>
                               (default (replicate points 0) (typeDataMap !! typeName)))
                   | None => typeDataMap !! typeName
                   end) ->
             tableOf points (processed ++ [prof]) M') as Htable.
  { intros M' HM' typeName. rewrite HM', existsb_app, map_app, length_app. cbn [existsb map length].
    rewrite orb_false_r, typeValuesOf_lookup, (Hinv typeName).
    replace (points - length processed)%nat with (S (points - (length processed + 1)))
      by lia.
    destruct (hasType prof typeName) eqn:Hh.
    - rewrite orb_true_r. f_equal.
      destruct (existsb (fun prof => hasType prof typeName) processed) eqn:Hex;
        cbn [from_option]; unfold id.
      + rewrite <- (length_map (fun prof => typeValue prof typeName) processed) at 1.
        apply insert_at_end.
      + rewrite (map_absent _ _ Hex).
        rewrite replicate_insert_zero by lia.
        rewrite <- app_assoc. cbn [app]. f_equal. f_equal. f_equal. lia.
    - rewrite orb_false_r.
      destruct (existsb (fun prof => hasType prof typeName) processed); [|reflexivity].
      f_equal. rewrite (typeValue_absent _ _ Hh). rewrite <- app_assoc. reflexivity. }
  assert (length (processed ++ [prof]) = S (length processed)) as Hlen
    by (rewrite length_app; cbn [length]; lia).
  unfold TimeSeries.recordProfile.
  destruct (Z.eqb_spec (TimeSeries.firstInuseSpace 0 (SampleType prof)) (-1)) as [Hnone|Hsome].
  - exists typeDataMap. split; [f_equal; f_equal; lia|].
    apply Htable. intros typeName.
    assert (typeValuesOf prof = ∅) as ->
      by (unfold typeValuesOf; rewrite Hnone; reflexivity).
    rewrite lookup_empty. reflexivity.
  - assert (0 <= TimeSeries.firstInuseSpace 0 (SampleType prof)) as Hi
      by (pose proof (firstInuseSpace_bounds (SampleType prof) 0); lia).
    destruct (addTypeValues_lookup _ (Sample_ prof) Hi [] ∅) as (tv & Htv & _).
    { intros name. apply lookup_empty. }
    assert (typeValuesOf prof = tv) as Htvo.
    { unfold typeValuesOf. destruct (Z.eqb_spec (TimeSeries.firstInuseSpace 0 (SampleType prof)) (-1));
        [contradiction|]. rewrite Htv. reflexivity. }
    rewrite Htv, bind_Done.
    destruct (recordValues_lookup points (length processed) (map_to_list tv)
                (NoDup_fst_map_to_list tv) Hlt typeDataMap) as (M' & Hrun & _ & Hlookup).
    { intros typeName values Hl. rewrite (Hinv typeName) in Hl.
      destruct (existsb _ processed); [|discriminate]. injection Hl as <-.
      rewrite length_app, length_map, length_replicate. lia. }
    rewrite Hrun, bind_Done. exists M'. split; [f_equal; f_equal; lia|].
    apply Htable. intros typeName. rewrite Hlookup, list_to_map_to_list, Htvo. reflexivity.
Qed.

Lemma recordProfiles_table (points : nat) (rest : list Profile) :
  forall (processed : list Profile) (typeDataMap : gmap string (list Z)),
    (length processed + length rest = points)%nat ->
    tableOf points processed typeDataMap ->
    exists typeDataMap',
      forRange (TimeSeries.recordProfile (Z.of_nat points))
               (Z.of_nat (length processed), typeDataMap) rest
      = Done (Z.of_nat points, typeDataMap')
      /\ tableOf points (processed ++ rest) typeDataMap'.
Proof.
  induction rest as [|prof rest IH]; intros processed M Hlen Hinv.
  - exists M. cbn [length] in Hlen. split; [cbn; f_equal; f_equal; lia|].
    rewrite app_nil_r. exact Hinv.
  - cbn [length] in Hlen. rewrite forRange_cons.
    destruct (recordProfile_table points processed M prof ltac:(lia) Hinv)
      as (M1 & -> & Hinv1).
    rewrite bind_Done.
    destruct (IH (processed ++ [prof]) M1) as (M2 & Hrun & Hinv2);
      [rewrite length_app; cbn [length]; lia|exact Hinv1|].
    exists M2. split; [exact Hrun|]. rewrite <- app_assoc in Hinv2. exact Hinv2.
Qed.

Lemma typeData_table (profiles : list Profile) :
  exists typeDataMap,
    TimeSeries.typeData profiles = Done typeDataMap
    /\ forall typeName,
         typeDataMap !! typeName
         = if existsb (fun prof => hasType prof typeName) profiles
           then Some (map (fun prof => typeValue prof typeName) profiles)
           else None.
Proof.
  unfold TimeSeries.typeData.
  destruct (recordProfiles_table (length profiles) profiles [] ∅) as (M & Hrun & Hinv);
    [reflexivity|intros typeName; apply lookup_empty|].
  change (Z.of_nat (length [])) with 0 in Hrun. unfold len. rewrite Hrun, bind_Done.
  exists M. split; [reflexivity|]. intros typeName. rewrite (Hinv typeName). cbn [app].
  rewrite Nat.sub_diag. cbn [replicate]. rewrite app_nil_r. reflexivity.
Qed.

Lemma Forall2_names `{Formatting} (points : nat) (entries : list (string * list Z))
    (trends : list TimeSeries.ObjectTrend) :
  Forall2 (fun e t => TimeSeries.TypeName t = fst e
                      /\ TimeSeries.Values t = snd e
                      /\ TimeSeries.FormattedValues t = map FormatBytes (snd e)
                      /\ trendAsComputed points t)
          entries trends ->
  map TimeSeries.TypeName trends = entries.*1
  /\ Forall (fun t => In (TimeSeries.TypeName t, TimeSeries.Values t) entries) trends.
Proof.
  induction 1 as [|e t entries trends (Hn & Hv & _) _ [IHn IHv]]; [split; [reflexivity|constructor]|].
  split.
  - cbn [map]. rewrite fmap_cons, Hn, IHn. reflexivity.
  - constructor.
    + left. rewrite Hn, Hv. destruct e; reflexivity.
    + eapply Forall_impl; [exact IHv|]. intros t' Hin. right. exact Hin.
Qed.

(** X17.  Each trend holds the values of one type, profile by profile.
    For every list of profiles the trend analysis returns trends that
    name every type once; a type has a trend exactly when some profile
    has a sample of it; and the value sequence of a trend holds, at the
    position of each profile, the 64-bit sum of the first "inuse_space"
    column over the samples of the type in that profile, and 0 when the
    profile has none or does not declare the column. *)
Theorem trends_hold_type_values `{Formatting} (profiles : list Profile)
    (labels : list string) :
  exists trends,
    TimeSeries.analyzeObjectTrends profiles labels = Done (trends, None)
    /\ NoDup (map TimeSeries.TypeName trends)
    /\ (forall typeName,
           In typeName (map TimeSeries.TypeName trends)
           <-> exists prof, In prof profiles /\ hasType prof typeName = true)
    /\ Forall (fun t =>
                 TimeSeries.Values t
                 = map (fun prof => typeValue prof (TimeSeries.TypeName t)) profiles)
              trends.
Proof.
  destruct (analyzeObjectTrends_Done profiles labels)
    as (M & unranked & HM & _ & _ & Hall & Hrun).
  destruct (typeData_table profiles) as (M' & HM' & Htable).
  rewrite HM in HM'. injection HM' as <-.
  destruct (Forall2_names _ _ _ Hall) as [Hnames Hvalues].
  exists (sort_Slice TimeSeries.byGrowth unranked).
  split; [exact Hrun|]. split; [|split].
  - rewrite sort_Slice_perm, Hnames. apply NoDup_fst_map_to_list.
  - intros typeName. rewrite <- list_elem_of_In, sort_Slice_perm, Hnames.
    pose proof (Htable typeName) as Hlookup. split.
    + intros Hin. apply list_elem_of_fmap in Hin. destruct Hin as ([name values] & -> & Hin).
      apply elem_of_map_to_list in Hin. cbn [fst] in *. rewrite Hin in Hlookup.
      destruct (existsb _ profiles) eqn:Hex; [|discriminate].
      apply existsb_exists in Hex. exact Hex.
    + intros Hex.
      assert (existsb (fun prof => hasType prof typeName) profiles = true) as Hexb
        by (apply existsb_exists; exact Hex).
      rewrite Hexb in Hlookup. apply list_elem_of_fmap.
      eexists (typeName, _). split; [reflexivity|]. apply elem_of_map_to_list. exact Hlookup.
  - rewrite sort_Slice_perm.
    eapply Forall_impl; [exact Hvalues|]. intros t Hin.
    apply list_elem_of_In, elem_of_map_to_list in Hin.
    rewrite (Htable (TimeSeries.TypeName t)) in Hin.
    destruct (existsb _ profiles); [|discriminate]. injection Hin as ->. reflexivity.
Qed.

(** ** Durations and formats *)

(** X4.  The unit in which [formatNanos] prints a duration.  Below 1000
    (negative durations included) the integer is printed in ns; from
    1000 on the duration is printed in microseconds from the nanoseconds,
    from 10^6 on in milliseconds from the whole microseconds, from 10^9
    on in seconds from the whole milliseconds, and from one minute on as
    whole minutes and whole seconds below 60 that recompose the whole
    seconds of the duration.  From 10^6 on, the text depends on the whole
    microseconds only. *)
Theorem formatNanos_units `{Formatting} (nanos : Z) :
  (nanos < 1000 -> formatNanos nanos = Sprintf "%d ns" [IntArg nanos])
  /\ (1000 <= nanos < 1000000 ->
      formatNanos nanos
      = Sprintf "%.2f μs" [FloatArg (Float64.div (Float64.of_int nanos) (Float64.of_int 1000))])
  /\ (1000000 <= nanos < 1000000000 ->
      formatNanos nanos
      = Sprintf "%.2f ms" [FloatArg (Float64.div (Float64.of_int (nanos / 1000))
                                                  (Float64.of_int 1000))])
  /\ (1000000000 <= nanos < 60000000000 ->
      formatNanos nanos
      = Sprintf "%.2f s" [FloatArg (Float64.div (Float64.of_int (nanos / 1000000))
                                                 (Float64.of_int 1000))])
  /\ (60000000000 <= nanos ->
      exists minutes seconds,
        formatNanos nanos = Sprintf "%d m %d s" [IntArg minutes; IntArg seconds]
        /\ 0 <= seconds < 60
        /\ 60 * minutes + seconds = nanos / 1000000000)
  /\ (forall nanos',
         1000000 <= nanos -> 1000000 <= nanos' -> nanos / 1000 = nanos' / 1000 ->
         formatNanos nanos = formatNanos nanos').
Proof.
  assert (forall n, 0 <= n -> Z.quot n 1000 = n / 1000) as Hq1
    by (intros n Hn; apply Z.quot_div_nonneg; lia).
  assert (forall n, 0 <= n -> Z.quot (Z.quot n 1000) 1000 = n / 1000000) as Hq2.
  { intros n Hn. rewrite Z.quot_quot by lia. apply Z.quot_div_nonneg; lia. }
  assert (forall n, 0 <= n -> Z.quot (Z.quot (Z.quot n 1000) 1000) 1000 = n / 1000000000) as Hq3.
  { intros n Hn. rewrite !Z.quot_quot by lia. apply Z.quot_div_nonneg; lia. }
  assert (forall n, 1000 <= n ->
            formatNanos n
            = if n / 1000 <? 1000 then
                Sprintf "%.2f μs" [FloatArg (Float64.div (Float64.of_int n) (Float64.of_int 1000))]
              else if n / 1000000 <? 1000 then
                Sprintf "%.2f ms" [FloatArg (Float64.div (Float64.of_int (n / 1000))
                                                          (Float64.of_int 1000))]
              else if n / 1000000000 <? 60 then
                Sprintf "%.2f s" [FloatArg (Float64.div (Float64.of_int (n / 1000000))
                                                         (Float64.of_int 1000))]
              else Sprintf "%d m %d s" [IntArg (Z.quot (n / 1000000000) 60);
                                        IntArg (Z.rem (n / 1000000000) 60)]) as Hform.
  { intros n Hn. unfold formatNanos. cbv zeta.
    destruct (Z.ltb_spec n 1000); [lia|].
    rewrite Hq3, Hq2, Hq1 by lia. reflexivity. }
  split; [|split; [|split; [|split; [|split]]]].
  - intros Hlt. unfold formatNanos. destruct (Z.ltb_spec nanos 1000); [reflexivity|lia].
  - intros [Hlo Hhi]. rewrite Hform by lia.
    destruct (Z.ltb_spec (nanos / 1000) 1000) as [_|Hge]; [reflexivity|].
    assert (nanos / 1000 < 1000) by (apply Z.div_lt_upper_bound; lia). lia.
  - intros [Hlo Hhi]. rewrite Hform by lia.
    destruct (Z.ltb_spec (nanos / 1000) 1000) as [Hlt|_].
    { assert (1000 <= nanos / 1000) by (apply Z.div_le_lower_bound; lia). lia. }
    destruct (Z.ltb_spec (nanos / 1000000) 1000) as [_|Hge]; [reflexivity|].
    assert (nanos / 1000000 < 1000) by (apply Z.div_lt_upper_bound; lia). lia.
  - intros [Hlo Hhi]. rewrite Hform by lia.
    destruct (Z.ltb_spec (nanos / 1000) 1000) as [Hlt|_].
    { assert (1000 <= nanos / 1000) by (apply Z.div_le_lower_bound; lia). lia. }
    destruct (Z.ltb_spec (nanos / 1000000) 1000) as [Hlt|_].
    { assert (1000 <= nanos / 1000000) by (apply Z.div_le_lower_bound; lia). lia. }
    destruct (Z.ltb_spec (nanos / 1000000000) 60) as [_|Hge]; [reflexivity|].
    assert (nanos / 1000000000 < 60) by (apply Z.div_lt_upper_bound; lia). lia.
  - intros Hlo. rewrite Hform by lia.
    destruct (Z.ltb_spec (nanos / 1000) 1000) as [Hlt|_].
    { assert (1000 <= nanos / 1000) by (apply Z.div_le_lower_bound; lia). lia. }
    destruct (Z.ltb_spec (nanos / 1000000) 1000) as [Hlt|_].
    { assert (1000 <= nanos / 1000000) by (apply Z.div_le_lower_bound; lia). lia. }
    assert (60 <= nanos / 1000000000) as Hsec by (apply Z.div_le_lower_bound; lia).
    destruct (Z.ltb_spec (nanos / 1000000000) 60) as [Hlt|_]; [lia|].
    eexists _, _. split; [reflexivity|].
    pose proof (Z.quot_rem' (nanos / 1000000000) 60) as Hqr.
    pose proof (Z.rem_bound_pos (nanos / 1000000000) 60 ltac:(lia) ltac:(lia)) as Hr.
    lia.
  - intros nanos' Hlo Hlo' Hsame. rewrite !Hform by lia.
    assert (forall n, n / 1000000 = n / 1000 / 1000) as Hd2
      by (intros n; rewrite Z.div_div by lia; reflexivity).
    assert (forall n, n / 1000000000 = n / 1000 / 1000000) as Hd3
      by (intros n; rewrite Z.div_div by lia; reflexivity).
    rewrite (Hd2 nanos), (Hd2 nanos'), (Hd3 nanos), (Hd3 nanos'), Hsame.
    destruct (Z.ltb_spec (nanos' / 1000) 1000) as [Hlt|_]; [|reflexivity].
    assert (1000 <= nanos' / 1000) by (apply Z.div_le_lower_bound; lia). lia.
Qed.

(** X5.  A format that is neither "json" nor "markdown" is rendered as
    text.  The four analyses return for such a format what they return
    for "text"; no format string is refused. *)
Theorem other_formats_render_as_text `{Formatting} `{Clock} (format : string) :
  format <> "json" -> format <> "markdown" ->
  (forall p topN,
      AnalyzeBlockProfile p topN format = AnalyzeBlockProfile p topN "text"
      /\ AnalyzeMutexProfile p topN format = AnalyzeMutexProfile p topN "text")
  /\ (forall baseline target profileTypeName topN,
         Diff.CompareProfiles baseline target profileTypeName topN format
         = Diff.CompareProfiles baseline target profileTypeName topN "text")
  /\ (forall profiles labels,
         TimeSeries.AnalyzeHeapTimeSeries profiles labels format
         = TimeSeries.AnalyzeHeapTimeSeries profiles labels "text").
Proof.
  intros Hjson Hmd.
  assert (String.eqb format "json" = false) as Ej by (apply String.eqb_neq; exact Hjson).
  assert (String.eqb format "markdown" = false) as Em by (apply String.eqb_neq; exact Hmd).
  split; [|split].
  - intros p topN. unfold AnalyzeBlockProfile, AnalyzeMutexProfile, analyzeContention,
      renderContention. rewrite Ej, Em. split; reflexivity.
  - intros baseline target profileTypeName topN.
    unfold Diff.CompareProfiles, Diff.formatDiffReport. rewrite Ej, Em. reflexivity.
  - intros profiles labels.
    unfold TimeSeries.AnalyzeHeapTimeSeries, TimeSeries.analyzeSeries,
      TimeSeries.formatTimeSeriesReport. rewrite Ej, Em. reflexivity.
Qed.

(** The default format of the analysis tool, "flamegraph-json", is one
    of them. *)
Lemma flamegraph_json_renders_as_text :
  AnalyzeBlockProfile twoFunctionProfile 5 "flamegraph-json"
  = AnalyzeBlockProfile twoFunctionProfile 5 "text"
  /\ AnalyzeMutexProfile twoFunctionProfile 5 "flamegraph-json"
     = AnalyzeMutexProfile twoFunctionProfile 5 "text".
Proof.
  destruct (@other_formats_render_as_text plainFormatting fixedClock "flamegraph-json")
    as [Hcontention _]; [discriminate|discriminate|].
  apply Hcontention.
Defined.

(** ** The substring test *)

Lemma length_append (a b : string) :
  String.length (a +:+ b) = (String.length a + String.length b)%nat.
Proof.
  induction a as [|c a IH]; [reflexivity|].
  change (String c a +:+ b) with (String c (a +:+ b)). cbn [String.length]. rewrite IH. reflexivity.
Qed.

Lemma append_empty (s : string) : s +:+ "" = s.
Proof.
  induction s as [|c s IH]; [reflexivity|].
  change (String c s +:+ "") with (String c (s +:+ "")). rewrite IH. reflexivity.
Qed.

Lemma substring_whole (s rest : string) :
  String.substring 0 (String.length s) (s +:+ rest) = s.
Proof.
  induction s as [|c s IH]; [destruct rest; reflexivity|].
  change (String c s +:+ rest) with (String c (s +:+ rest)).
  cbn [String.length String.substring]. rewrite IH. reflexivity.
Qed.

Lemma substring_skip (before rest : string) (n : nat) :
  String.substring (String.length before) n (before +:+ rest) = String.substring 0 n rest.
Proof.
  induction before as [|c before IH]; [reflexivity|].
  change (String c before +:+ rest) with (String c (before +:+ rest)).
  cbn [String.length String.substring]. exact IH.
Qed.

(** The piece of [s] at a position is a substring occurrence there. *)
Lemma substring_occurrence (s : string) :
  forall (i n : nat),
    (i + n <= String.length s)%nat ->
    exists before after,
      s = before +:+ String.substring i n s +:+ after /\ String.length before = i.
Proof.
  induction s as [|c s IH]; intros i n Hlen.
  - cbn [String.length] in Hlen. assert (i = 0%nat) as -> by lia. assert (n = 0%nat) as -> by lia.
    exists "", "". split; reflexivity.
  - destruct i as [|i].
    + destruct n as [|n].
      * exists "", (String c s). split; reflexivity.
      * cbn [String.length] in Hlen.
        destruct (IH 0%nat n ltac:(lia)) as (before & after & Hs & Hb).
        destruct before; [|discriminate]. cbn [String.substring].
        exists "", after. split; [|reflexivity].
        change ("" +:+ String c (String.substring 0 n s) +:+ after)
          with (String c ("" +:+ String.substring 0 n s +:+ after)).
        rewrite <- Hs. reflexivity.
    + cbn [String.length] in Hlen.
      destruct (IH i n ltac:(lia)) as (before & after & Hs & Hb).
      exists (String c before), after. cbn [String.substring String.length].
      split; [|rewrite Hb; reflexivity].
      change (String c before +:+ String.substring i n s +:+ after)
        with (String c (before +:+ String.substring i n s +:+ after)).
      rewrite <- Hs. reflexivity.
Qed.

Lemma slice_in_range (s : string) (i n : nat) :
  (i + n <= String.length s)%nat ->
  slice s (Z.of_nat i) (Z.of_nat i + Z.of_nat n) = Done (String.substring i n s).
Proof.
  intros Hlen. unfold slice, strlen.
  destruct (Z.leb_spec 0 (Z.of_nat i)); [|lia].
  destruct (Z.leb_spec (Z.of_nat i) (Z.of_nat i + Z.of_nat n)); [|lia].
  destruct (Z.leb_spec (Z.of_nat i + Z.of_nat n) (Z.of_nat (String.length s))); [|lia].
  cbn [andb]. rewrite Nat2Z.id. replace (Z.of_nat i + Z.of_nat n - Z.of_nat i) with (Z.of_nat n) by lia.
  rewrite Nat2Z.id. reflexivity.
Qed.

(** The scan from position [i] over [n] positions. *)
Lemma containsSubstringFrom_spec (s substr : string) :
  forall (n i : nat),
    (i + n + String.length substr <= S (String.length s))%nat ->
    exists b,
      containsSubstringFrom s substr (Z.of_nat i) n = Done b
      /\ (b = true
          <-> exists k, (i <= k < i + n)%nat
                        /\ String.substring k (String.length substr) s = substr).
Proof.
  induction n as [|n IH]; intros i Hlen.
  - exists false. split; [reflexivity|]. split; [discriminate|]. intros (k & Hk & _). lia.
  - cbn [containsSubstringFrom]. unfold strlen at 1.
    rewrite (slice_in_range s i (String.length substr)) by lia. rewrite bind_Done.
    destruct (String.eqb_spec (String.substring i (String.length substr) s) substr) as [Heq|Hne].
    + exists true. split; [reflexivity|]. split; [|reflexivity]. intros _.
      exists i. split; [lia|exact Heq].
    + replace (Z.of_nat i + 1) with (Z.of_nat (S i)) by lia.
      destruct (IH (S i) ltac:(lia)) as (b & Hrun & Hb).
      exists b. split; [exact Hrun|]. rewrite Hb. split.
      * intros (k & Hk & Hsub). exists k. split; [lia|exact Hsub].
      * intros (k & Hk & Hsub). destruct (Nat.eq_dec k i) as [->|Hki]; [contradiction|].
        exists k. split; [lia|exact Hsub].
Qed.

Lemma occursIn_position (substr s : string) :
  occursIn substr s
  <-> exists k, (k + String.length substr <= String.length s)%nat
                /\ String.substring k (String.length substr) s = substr.
Proof.
  split.
  - intros (before & after & ->). exists (String.length before).
    rewrite !length_append. split; [lia|].
    rewrite substring_skip. apply substring_whole.
  - intros (k & Hlen & Hsub).
    destruct (substring_occurrence s k (String.length substr) Hlen) as (before & after & Hs & _).
    rewrite Hsub in Hs. exists before, after. exact Hs.
Qed.

(** X18.  The substring test of the package's tests is correct: for all
    strings [containsString] returns, without slicing out of range, and
    it returns true exactly when the second string occurs in the first. *)
Theorem containsString_finds_occurrences (s substr : string) :
  exists b, containsString s substr = Done b /\ (b = true <-> occursIn substr s).
Proof.
  unfold containsString, strlen.
  destruct (Z.geb_spec (Z.of_nat (String.length s)) (Z.of_nat (String.length substr)))
    as [Hge|Hlt].
  - destruct (String.eqb_spec s substr) as [->|Hne].
    + exists true. split; [reflexivity|]. split; [|reflexivity]. intros _.
      exists "", "". change ("" +:+ substr +:+ "") with (substr +:+ "").
      symmetry. apply append_empty.
    + destruct (Z.gtb_spec (Z.of_nat (String.length s)) (Z.of_nat (String.length substr)))
        as [Hgt|Hle].
      * unfold containsSubstring, strlen.
        destruct (containsSubstringFrom_spec s substr
                    (Z.to_nat (Z.of_nat (String.length s) - Z.of_nat (String.length substr) + 1))
                    0%nat ltac:(lia)) as (b & Hrun & Hb).
        exists b. split; [exact Hrun|]. rewrite Hb, occursIn_position. split.
        -- intros (k & Hk & Hsub). exists k. split; [lia|exact Hsub].
        -- intros (k & Hk & Hsub). exists k. split; [lia|exact Hsub].
      * exists false. split; [reflexivity|]. split; [discriminate|].
        intros Hocc. exfalso. apply occursIn_position in Hocc.
        destruct Hocc as (k & Hk & Hsub).
        assert (String.length s = String.length substr) as Hsame by lia.
        assert (k = 0%nat) as -> by lia.
        apply Hne. rewrite <- Hsub, <- Hsame. symmetry.
        rewrite <- (append_empty s) at 2. apply substring_whole.
  - exists false. split; [reflexivity|]. split; [discriminate|].
    intros Hocc. exfalso. apply occursIn_position in Hocc.
    destruct Hocc as (k & Hk & _). lia.
Qed.

(** ** The tool handlers *)

Lemma respond_Done `{Environment} (prefix : option string) (out : output) :
  respond prefix (Done (out, None)) = Done (success [out]).
Proof. reflexivity. Qed.

Lemma loadProfiles_length `{Environment} (uris : list string) :
  forall i profiles, loadProfiles i uris = Ok profiles -> length profiles = length uris.
Proof.
  induction uris as [|uri uris IH]; intros i profiles Hload; cbn [loadProfiles] in Hload.
  - injection Hload as <-. reflexivity.
  - destruct (loadProfile i uri _) as [prof|err]; [|discriminate].
    destruct (loadProfiles (i + 1) uris) as [rest|err] eqn:Hrest; [|discriminate].
    injection Hload as <-. cbn [length]. f_equal. exact (IH _ _ Hrest).
Qed.

Lemma defaultLabels_length (uris : list string) :
  length (defaultLabels uris) = length uris.
Proof. unfold defaultLabels. apply length_imap. Qed.

Lemma comparison_response `{Formatting} `{Environment} (baseline target : Profile)
    (profileTypeName : string) (topN : Z) (format : string) :
  exists out,
    respond (Some "failed to compare profiles: ")
      (Diff.CompareProfiles baseline target profileTypeName topN format)
    = Done (success [out]).
Proof.
  destruct (CompareProfiles_returns baseline target profileTypeName topN format)
    as (valueIndex & baselineFuncs & targetFuncs & Hidx & Hb & Ht & Hrun).
  cbv zeta in Hrun. rewrite Hrun.
  destruct (String.eqb format "json").
  - unfold MarshalIndent.
    rewrite diffResultJSON_supported by (eapply aggregateFunctionValues_ranged, Hb).
    eexists. apply respond_Done.
  - eexists. apply respond_Done.
Qed.

Lemma series_response `{Formatting} `{Clock} `{Environment} (profiles : list Profile)
    (labels : list string) (format : string) :
  3 <= len profiles <= Int64.max_value -> len labels = len profiles ->
  exists out,
    respond (Some "failed to analyze time series: ")
      (TimeSeries.AnalyzeHeapTimeSeries profiles labels format)
    = Done (success [out]).
Proof.
  intros [H3 Hmax] Hlabels.
  rewrite (AnalyzeHeapTimeSeries_checked profiles labels format H3 Hlabels).
  destruct (analyzeSeries_succeeds profiles labels format) as (out & -> & _);
    [split; assumption|exact Hlabels|].
  eexists. apply respond_Done.
Qed.

(** X19.  The comparison tool fails only before the comparison.  The
    handler of compare_profiles never panics, and it answers with one
    content exactly when the two URIs and the profile type are given and
    both profiles can be fetched, opened and parsed: once the profiles
    are in memory, no profile type, number of entries or output format
    makes the call fail. *)
Theorem compare_tool_fails_only_before_comparing `{Formatting} `{Environment}
    (args : CompareProfilesArgs.t) :
  (exists r, handleCompareProfiles args = Done r)
  /\ ((exists out, handleCompareProfiles args = Done (success [out]))
      <-> CompareProfilesArgs.BaselineProfileURI args <> ""
          /\ CompareProfilesArgs.TargetProfileURI args <> ""
          /\ CompareProfilesArgs.ProfileType args <> ""
          /\ (exists prof, loadProfile 0 (CompareProfilesArgs.BaselineProfileURI args)
                             "baseline profile file" = Ok prof)
          /\ (exists prof, loadProfile 1 (CompareProfilesArgs.TargetProfileURI args)
                             "target profile file" = Ok prof)).
Proof.
  unfold handleCompareProfiles.
  destruct (String.eqb_spec (CompareProfilesArgs.BaselineProfileURI args) "") as [Eb|Nb].
  { split; [eauto|]. split; [intros [out Heq]; discriminate|tauto]. }
  destruct (String.eqb_spec (CompareProfilesArgs.TargetProfileURI args) "") as [Et|Nt].
  { split; [eauto|]. split; [intros [out Heq]; discriminate|tauto]. }
  destruct (String.eqb_spec (CompareProfilesArgs.ProfileType args) "") as [Ep|Np].
  { split; [eauto|]. split; [intros [out Heq]; discriminate|tauto]. }
  cbv zeta.
  destruct (loadProfile 0 _ "baseline profile file") as [baselineProf|err].
  2:{ split; [eauto|]. split; [intros [out Heq]; discriminate|].
      intros (_ & _ & _ & [prof Habs] & _). discriminate. }
  destruct (loadProfile 1 _ "target profile file") as [targetProf|err].
  2:{ split; [eauto|]. split; [intros [out Heq]; discriminate|].
      intros (_ & _ & _ & _ & [prof Habs]). discriminate. }
  match goal with
  | |- context [Diff.CompareProfiles ?b ?t ?ty ?n ?f] =>
      destruct (comparison_response b t ty n f) as (out & ->)
  end.
  split; [eauto|]. split; [|eauto].
  intros _. repeat (split; [assumption|]). split; eauto.
Qed.

(** X20.  The time-series tool fails only before the analysis.  For a
    list of URIs that a Go slice can hold, the handler of
    analyze_heap_time_series never panics, and it answers with one
    content exactly when there are at least three URIs, the labels are
    omitted or as many as the URIs, and every profile can be fetched,
    opened and parsed.  Omitted labels stand for T1, T2, ...: the call
    gives what it gives with these labels spelled out. *)
Theorem time_series_tool_fails_only_before_analysing `{Formatting} `{Clock} `{Environment}
    (args : AnalyzeHeapTimeSeriesArgs.t) :
  len (AnalyzeHeapTimeSeriesArgs.ProfileURIs args) <= Int64.max_value ->
  (exists r, handleAnalyzeHeapTimeSeries args = Done r)
  /\ ((exists out, handleAnalyzeHeapTimeSeries args = Done (success [out]))
      <-> 3 <= len (AnalyzeHeapTimeSeriesArgs.ProfileURIs args)
          /\ (AnalyzeHeapTimeSeriesArgs.Labels args = []
              \/ len (AnalyzeHeapTimeSeriesArgs.Labels args)
                 = len (AnalyzeHeapTimeSeriesArgs.ProfileURIs args))
          /\ (exists profiles,
                 loadProfiles 0 (AnalyzeHeapTimeSeriesArgs.ProfileURIs args) = Ok profiles))
  /\ (AnalyzeHeapTimeSeriesArgs.Labels args = [] ->
      handleAnalyzeHeapTimeSeries args
      = handleAnalyzeHeapTimeSeries
          {| AnalyzeHeapTimeSeriesArgs.ProfileURIs := AnalyzeHeapTimeSeriesArgs.ProfileURIs args;
             AnalyzeHeapTimeSeriesArgs.Labels :=
               defaultLabels (AnalyzeHeapTimeSeriesArgs.ProfileURIs args);
             AnalyzeHeapTimeSeriesArgs.OutputFormat :=
               AnalyzeHeapTimeSeriesArgs.OutputFormat args |}).
Proof.
  intros Hmax. destruct args as [uris labels format].
  cbn [AnalyzeHeapTimeSeriesArgs.ProfileURIs AnalyzeHeapTimeSeriesArgs.Labels
       AnalyzeHeapTimeSeriesArgs.OutputFormat] in *.
  split; [|split].
  3:{ intros ->. unfold handleAnalyzeHeapTimeSeries.
      cbn [AnalyzeHeapTimeSeriesArgs.ProfileURIs AnalyzeHeapTimeSeriesArgs.Labels
           AnalyzeHeapTimeSeriesArgs.OutputFormat].
      destruct (Z.ltb_spec (len uris) 3) as [|H3]; [reflexivity|]. cbv zeta.
      assert (len (defaultLabels uris) = len uris) as Hdef
          by (unfold len; rewrite defaultLabels_length; reflexivity).
      rewrite Hdef. change (len (@nil string)) with 0. cbn [Z.eqb negb andb].
      rewrite Z.eqb_refl.
      destruct (Z.eqb_spec (len uris) 0) as [|_]; [lia|]. reflexivity. }
  all: unfold handleAnalyzeHeapTimeSeries;
    cbn [AnalyzeHeapTimeSeriesArgs.ProfileURIs AnalyzeHeapTimeSeriesArgs.Labels
         AnalyzeHeapTimeSeriesArgs.OutputFormat];
    destruct (Z.ltb_spec (len uris) 3) as [Hfew|H3];
    [first [solve [eauto] | (split; [intros [out Heq]; discriminate|]; intros (? & _); lia)]|];
    cbv zeta;
    destruct (Z.eqb_spec (len labels) 0) as [Hnone|Hsome]; cbn [negb andb].
  - destruct (loadProfiles 0 uris) as [profiles|err] eqn:Hload; [|eauto].
    pose proof (loadProfiles_length uris 0 profiles Hload) as Hlen.
    destruct (series_response profiles (defaultLabels uris)
                (if String.eqb format "" then "markdown" else format)) as (out & ->).
    { unfold len in *. lia. }
    { unfold len. rewrite defaultLabels_length. lia. }
    eauto.
  - destruct (Z.eqb_spec (len labels) (len uris)) as [Hsame|Hdiff]; cbn [negb]; [|eauto].
    destruct (loadProfiles 0 uris) as [profiles|err] eqn:Hload; [|eauto].
    pose proof (loadProfiles_length uris 0 profiles Hload) as Hlen.
    destruct (series_response profiles labels
                (if String.eqb format "" then "markdown" else format)) as (out & ->).
    { unfold len in *. lia. }
    { unfold len in *. lia. }
    eauto.
  - destruct (loadProfiles 0 uris) as [profiles|err] eqn:Hload.
    2:{ split; [intros [out Heq]; discriminate|].
        intros (_ & _ & [profiles Habs]). discriminate. }
    pose proof (loadProfiles_length uris 0 profiles Hload) as Hlen.
    destruct (series_response profiles (defaultLabels uris)
                (if String.eqb format "" then "markdown" else format)) as (out & ->).
    { unfold len in *. lia. }
    { unfold len. rewrite defaultLabels_length. lia. }
    split; [|eauto]. intros _. split; [lia|]. split; [|eauto].
    left. destruct labels; [reflexivity|]. unfold len in Hnone. cbn in Hnone. lia.
  - destruct (Z.eqb_spec (len labels) (len uris)) as [Hsame|Hdiff]; cbn [negb].
    2:{ split; [intros [out Heq]; discriminate|].
        intros (_ & [->|Habs] & _); [|contradiction]. contradiction Hsome. reflexivity. }
    destruct (loadProfiles 0 uris) as [profiles|err] eqn:Hload.
    2:{ split; [intros [out Heq]; discriminate|].
        intros (_ & _ & [profiles Habs]). discriminate. }
    pose proof (loadProfiles_length uris 0 profiles Hload) as Hlen.
    destruct (series_response profiles labels
                (if String.eqb format "" then "markdown" else format)) as (out & ->).
    { unfold len in *. lia. }
    { unfold len in *. lia. }
    split; [|eauto]. intros _. split; [lia|]. split; [|eauto].
    right. exact Hsame.
Qed.

(** Three profiles without labels are analysed. *)
Lemma three_profiles_through_the_tool :
  exists out,
    handleAnalyzeHeapTimeSeries
      {| AnalyzeHeapTimeSeriesArgs.ProfileURIs := ["a"; "b"; "c"];
         AnalyzeHeapTimeSeriesArgs.Labels := [];
         AnalyzeHeapTimeSeriesArgs.OutputFormat := "" |}
    = Done (success [out]).
Proof.
  destruct (@time_series_tool_fails_only_before_analysing plainFormatting fixedClock
              quietEnvironment
              {| AnalyzeHeapTimeSeriesArgs.ProfileURIs := ["a"; "b"; "c"];
                 AnalyzeHeapTimeSeriesArgs.Labels := [];
                 AnalyzeHeapTimeSeriesArgs.OutputFormat := "" |})
    as (_ & [_ Hright] & _); [vm_compute; discriminate|].
  apply Hright. split; [vm_compute; discriminate|]. split; [left; reflexivity|].
  eexists. reflexivity.
Defined.



(** X22.  A disconnect forgets the session, terminated or not.  A PID
    that is not positive is refused and leaves the registry alone.
    Otherwise the registry afterwards is the one before without the
    PID: an unknown PID is reported as not found; a known one is
    removed before its process is signalled, the call succeeds exactly
    when the interrupt or else the kill signal can be sent, and in
    either case a second call for the PID reports it as not found. *)
Theorem disconnect_forgets_the_session `{Environment}
    (args : DisconnectPprofSessionArgs.t) (runningPprofs : registry) :
  let pid := toInt (DisconnectPprofSessionArgs.PID args) in
  let r := fst (handleDisconnectPprofSession args runningPprofs) in
  let after := snd (handleDisconnectPprofSession args runningPprofs) in
  (notPositive (DisconnectPprofSessionArgs.PID args) = true ->
   after = runningPprofs /\ r = failure (invalidPID pid))
  /\ (notPositive (DisconnectPprofSessionArgs.PID args) = false ->
      after = delete pid runningPprofs
      /\ (runningPprofs !! pid = None -> r = failure (sessionNotFound pid))
      /\ (forall process,
             runningPprofs !! pid = Some process ->
             (exists contents, r = success contents)
             <-> signal process Interrupt = None \/ signal process Kill = None)
      /\ fst (handleDisconnectPprofSession args after) = failure (sessionNotFound pid)).
Proof.
  cbv zeta. unfold handleDisconnectPprofSession.
  destruct (notPositive (DisconnectPprofSessionArgs.PID args)).
  { split; [|discriminate]. intros _. split; reflexivity. }
  split; [discriminate|]. intros _. cbv zeta.
  set (pid := toInt (DisconnectPprofSessionArgs.PID args)).
  destruct (runningPprofs !! pid) as [process|] eqn:Hlookup.
  - destruct (signal process Interrupt) as [e1|] eqn:Hint;
      [destruct (signal process Kill) as [e2|] eqn:Hkill|];
      cbn [fst snd]; unfold registry in *; rewrite lookup_delete_eq;
      (split; [reflexivity|]); (split; [discriminate|]); (split; [|reflexivity]);
      intros other Hsame; injection Hsame as <-; rewrite ?Hint, ?Hkill.
    + split; [intros [contents Habs]; discriminate|]. intros [Habs|Habs]; discriminate.
    + split; [tauto|eauto].
    + split; [tauto|eauto].
  - cbn [fst snd]. rewrite Hlookup. cbn [fst]. split.
    + symmetry. apply delete_id. exact Hlookup.
    + split; [reflexivity|]. split; [discriminate|reflexivity].
Qed.

(** X23.  A session that was opened can be disconnected.  A failed
    open_interactive_pprof leaves the registry alone.  A successful
    one has fetched the profile, started "go tool pprof -http=<address>
    <file>" with the address ":8081" when none is given, and
    registered the started process under its id; a disconnect for that
    id then signals this very process and leaves the registry as it was
    before the session was opened, apart from an older entry with the
    same id, which is gone. *)
Theorem opened_session_can_be_disconnected `{Environment}
    (args : OpenInteractivePprofArgs.t) (runningPprofs : registry) :
  let r := fst (handleOpenInteractivePprof args runningPprofs) in
  let after := snd (handleOpenInteractivePprof args runningPprofs) in
  (forall err, r = failure err -> after = runningPprofs)
  /\ (forall contents,
         r = success contents ->
         exists inputFilePath process,
           OpenInteractivePprofArgs.ProfileURI args <> ""
           /\ getProfileAsFile 0 (OpenInteractivePprofArgs.ProfileURI args) = Ok inputFilePath
           /\ Start "go"
                ["tool"; "pprof";
                 "-http=" +:+ (if String.eqb (OpenInteractivePprofArgs.HTTPAddress args) ""
                               then ":8081" else OpenInteractivePprofArgs.HTTPAddress args);
                 inputFilePath]
              = Ok process
           /\ after = <[Pid process := process]> runningPprofs
           /\ forall request,
                notPositive (DisconnectPprofSessionArgs.PID request) = false ->
                toInt (DisconnectPprofSessionArgs.PID request) = Pid process ->
                snd (handleDisconnectPprofSession request after)
                = delete (Pid process) runningPprofs
                /\ ((exists contents', fst (handleDisconnectPprofSession request after)
                                       = success contents')
                    <-> signal process Interrupt = None \/ signal process Kill = None)).
Proof.
  cbv zeta. unfold handleOpenInteractivePprof.
  destruct (String.eqb_spec (OpenInteractivePprofArgs.ProfileURI args) "") as [Hempty|Huri].
  { split; [reflexivity|discriminate]. }
  cbv zeta.
  destruct (getProfileAsFile 0 _) as [inputFilePath|err]; [|split; [reflexivity|discriminate]].
  destruct (LookPath "go"); [split; [reflexivity|discriminate]|].
  destruct (Start "go" _) as [process|err] eqn:Hstart; [|split; [reflexivity|discriminate]].
  cbn [fst snd]. split; [discriminate|]. intros contents _.
  exists inputFilePath, process. split; [exact Huri|]. split; [reflexivity|].
  split; [exact Hstart|]. split; [reflexivity|].
  intros request Hpositive Hpid. unfold handleDisconnectPprofSession.
  rewrite Hpositive. cbv zeta. rewrite Hpid. unfold registry in *.
  rewrite lookup_insert_eq, delete_insert_eq.
  destruct (signal process Interrupt) as [e1|]; [destruct (signal process Kill) as [e2|]|];
    cbn [fst snd]; (split; [reflexivity|]).
  - split; [intros [contents' Habs]; discriminate|]. intros [Habs|Habs]; discriminate.
  - split; [tauto|eauto].
  - split; [tauto|eauto].
Qed.

(** The session with the id 4242 is opened and disconnected; the
    registry is empty again. *)
Lemma session_round_trip :
  snd (handleDisconnectPprofSession
         {| DisconnectPprofSessionArgs.PID := Float64.of_int 4242;
            DisconnectPprofSessionArgs.HTTPAddress := "" |}
         (snd (handleOpenInteractivePprof
                 {| OpenInteractivePprofArgs.ProfileURI := "heap.pb.gz";
                    OpenInteractivePprofArgs.HTTPAddress := "" |} ∅)))
  = (∅ : registry).
Proof.
  destruct (@opened_session_can_be_disconnected quietEnvironment
              {| OpenInteractivePprofArgs.ProfileURI := "heap.pb.gz";
                 OpenInteractivePprofArgs.HTTPAddress := "" |} ∅) as [_ Hopened].
  destruct (Hopened _ eq_refl) as (inputFilePath & process & _ & _ & Hstart & _ & Hdisconnect).
  injection Hstart as <-.
  destruct (Hdisconnect {| DisconnectPprofSessionArgs.PID := Float64.of_int 4242;
                           DisconnectPprofSessionArgs.HTTPAddress := "" |})
    as [Hafter _]; [reflexivity|reflexivity|].
  rewrite Hafter. apply delete_empty.
Defined.

Lemma respond_Panic `{Environment} (prefix : option string)
    (analysis : run (output * option error)) (why : string) :
  respond prefix analysis = Panic why <-> analysis = Panic why.
Proof.
  unfold respond. destruct analysis as [[out [err|]]|why']; cbn; split; congruence.
Qed.

(** X24.  The analysis tool on block and mutex profiles.  An omitted
    output format stands for "flamegraph-json", which these two
    analysers render as text: the call gives what it gives for "text".
    A top_n that is zero or negative stands for 5.  The handler does not
    recover a panic of the analyser: once the profile is loaded, the
    call panics exactly when the profile declares both columns and has
    a sample without contentions that opens a function group. *)
Theorem analysis_tool_on_contention_profiles `{Formatting} `{Environment}
    (args : AnalyzePprofArgs.t) :
  AnalyzePprofArgs.ProfileType args = "block" \/ AnalyzePprofArgs.ProfileType args = "mutex" ->
  (AnalyzePprofArgs.OutputFormat args = "" ->
   handleAnalyzePprof args
   = handleAnalyzePprof
       {| AnalyzePprofArgs.ProfileURI := AnalyzePprofArgs.ProfileURI args;
          AnalyzePprofArgs.ProfileType := AnalyzePprofArgs.ProfileType args;
          AnalyzePprofArgs.TopN := AnalyzePprofArgs.TopN args;
          AnalyzePprofArgs.OutputFormat := "text" |})
  /\ (notPositive (AnalyzePprofArgs.TopN args) = true ->
      handleAnalyzePprof args
      = handleAnalyzePprof
          {| AnalyzePprofArgs.ProfileURI := AnalyzePprofArgs.ProfileURI args;
             AnalyzePprofArgs.ProfileType := AnalyzePprofArgs.ProfileType args;
             AnalyzePprofArgs.TopN := Float64.of_int 5;
             AnalyzePprofArgs.OutputFormat := AnalyzePprofArgs.OutputFormat args |})
  /\ (forall prof,
         AnalyzePprofArgs.ProfileURI args <> "" ->
         loadProfile 0 (AnalyzePprofArgs.ProfileURI args) "profile file" = Ok prof ->
         let contentionIndex := fst (contentionColumns 0 (SampleType prof) (-1) (-1)) in
         let delayIndex := snd (contentionColumns 0 (SampleType prof) (-1) (-1)) in
         forall why,
           handleAnalyzePprof args = Panic why
           <-> why = divide_by_zero
               /\ contentionIndex <> -1 /\ delayIndex <> -1
               /\ zeroOpener contentionIndex delayIndex (Sample_ prof)).
Proof.
  intros Htype. destruct args as [uri type top format].
  cbn [AnalyzePprofArgs.ProfileURI AnalyzePprofArgs.ProfileType AnalyzePprofArgs.TopN
       AnalyzePprofArgs.OutputFormat] in *.
  split; [|split].
  - intros ->. unfold handleAnalyzePprof.
    cbn [AnalyzePprofArgs.ProfileURI AnalyzePprofArgs.ProfileType AnalyzePprofArgs.TopN
         AnalyzePprofArgs.OutputFormat].
    destruct (String.eqb uri ""); [reflexivity|].
    destruct (String.eqb type ""); [reflexivity|]. cbv zeta.
    destruct (loadProfile 0 uri "profile file") as [prof|err]; [|reflexivity].
    destruct Htype as [-> | ->]; reflexivity.
  - intros Hle. unfold handleAnalyzePprof.
    cbn [AnalyzePprofArgs.ProfileURI AnalyzePprofArgs.ProfileType AnalyzePprofArgs.TopN
         AnalyzePprofArgs.OutputFormat].
    rewrite Hle. reflexivity.
  - intros prof Huri Hload. cbv zeta. intros why. unfold handleAnalyzePprof.
    cbn [AnalyzePprofArgs.ProfileURI AnalyzePprofArgs.ProfileType AnalyzePprofArgs.TopN
         AnalyzePprofArgs.OutputFormat].
    apply String.eqb_neq in Huri. rewrite Huri.
    cbv zeta. rewrite Hload.
    destruct Htype as [-> | ->]; cbn [String.eqb Ascii.eqb Bool.eqb andb];
      rewrite respond_Panic; apply analyzeContention_Panic.
Qed.

(** A block profile analysed without an output format. *)
Lemma block_analysis_without_format :
  handleAnalyzePprof
    {| AnalyzePprofArgs.ProfileURI := "block.pb.gz";
       AnalyzePprofArgs.ProfileType := "block";
       AnalyzePprofArgs.TopN := Float64.zero;
       AnalyzePprofArgs.OutputFormat := "" |}
  = handleAnalyzePprof
      {| AnalyzePprofArgs.ProfileURI := "block.pb.gz";
         AnalyzePprofArgs.ProfileType := "block";
         AnalyzePprofArgs.TopN := Float64.zero;
         AnalyzePprofArgs.OutputFormat := "text" |}.
Proof.
  destruct (@analysis_tool_on_contention_profiles plainFormatting quietEnvironment
              {| AnalyzePprofArgs.ProfileURI := "block.pb.gz";
                 AnalyzePprofArgs.ProfileType := "block";
                 AnalyzePprofArgs.TopN := Float64.zero;
                 AnalyzePprofArgs.OutputFormat := "" |}) as [Hformat _];
    [left; reflexivity|].
  apply Hformat. reflexivity.
Defined.
